(** * Personal Knowledge OS: the storage engine and the content-derived sync,
      embedded in Rocq.

    The development follows the sources:
    - [src/unnamed/part_000], the module [./indexeddb] of the storage layer
      (class [IndexedDBStorage], the entity store),
    - [src/unnamed/part_002], its module [./types] (options, error codes),
    - [src/lib/storage/index.ts] (class [BrainStorage], the domain facade),
    - [src/unnamed/part_003], the module [@/lib/tags] (hashtag extraction
      and tag sync),
    - [src/lib/backlinks.ts] (wiki links, backlink sync, rename),
    - [src/components/dashboard/dashboard-stats.tsx] (the fuzzy match of
      the global search),
    - [src/unnamed/part_004] (the title the editor gives a note).

    Conventions of the embedding.
    - A JavaScript value is a term of [value]; an object is a finite map from
      property names to values ([gmap string value]); object spread
      [{...a, ...b}] is the left-biased union [b ∪ a].
    - Numbers are the integers [Z]: the code only counts and increments, so
      the model covers the integral doubles below 2^53.
    - A string is a sequence of one-byte code units (Latin-1); case mapping
      is the Unicode one restricted to that range.
    - The browser's IndexedDB is modelled from its standard: object stores
      keyed in line by a key path, indexes with optional uniqueness, cursors
      that walk in key order.  Primary keys are strings ([UUID = string] in
      the sources); key paths are one identifier each, as in the sources.
    - [async] code is run to completion, one operation at a time, in a
      state-and-error monad; [crypto.randomUUID], [new Date] and
      [Math.random] read from oracles carried by the state. *)

From Stdlib Require Import ZArith Ascii String List Lia Permutation.
From stdpp Require Import base option list gmap strings fin_maps.

#[local] Set Warnings "-register-all".
#[local] Open Scope string_scope.
#[local] Open Scope Z_scope.

(* ===================================================================== *)
(** ** JavaScript values *)
(* ===================================================================== *)

Inductive value : Type :=
| VUndefined
| VNull
| VBool (b : bool)
| VNum (n : Z)
| VStr (s : string)
| VDate (t : Z)
| VArr (xs : list value)
| VObj (o : gmap string value).

Abbreviation obj := (gmap string value).

(** [ToBoolean]: what [!x], [x || y] and [if (x)] look at. *)
Definition truthy (v : value) : bool :=
  match v with
  | VUndefined | VNull => false
  | VBool b => b
  | VNum n => negb (n =? 0)
  | VStr s => negb (String.eqb s EmptyString)
  | VDate _ | VArr _ | VObj _ => true
  end.

(** [a || b] *)
Definition js_or (a b : value) : value := if truthy a then a else b.

(** [o.k]: a missing property reads as [undefined]. *)
Definition get_prop (o : obj) (k : string) : value := default VUndefined (o !! k).

(** [{...a, ...b}] *)
Definition spread (a b : obj) : obj := b ∪ a.

(** Truthiness of an optional number ([options.limit], [options.offset]). *)
Definition truthy_num (n : option Z) : bool :=
  match n with Some z => negb (z =? 0) | None => false end.

(** Truthiness of an optional string ([options.index]). *)
Definition truthy_str (s : option string) : bool :=
  match s with Some x => negb (String.eqb x EmptyString) | None => false end.

(* ===================================================================== *)
(** ** Errors and the monad of storage operations *)
(* ===================================================================== *)

(** [StorageErrorCodes] of the module [./types]. *)
Inductive StorageErrorCode : Type :=
| DATABASE_OPEN_FAILED
| TRANSACTION_FAILED
| OBJECT_STORE_NOT_FOUND
| KEY_NOT_FOUND
| INVALID_DATA
| QUOTA_EXCEEDED
| UNKNOWN_ERROR.

(** Exceptions the engine itself throws (a [DOMException] by name). *)
Inductive DOMExceptionName : Type :=
| NotFoundError
| DataError
| ConstraintError
| VersionError.

(** What a rejected promise carries.  [Unmodelled] marks a run that leaves
    the fragment of JavaScript the embedding covers (arithmetic on a
    non-number, a primary key that is not a string, a key path that is not
    one identifier, a regular expression with operators), or a promise
    that is never settled (an open request that stays blocked); no theorem
    below is about such a run. *)
Inductive error : Type :=
| StorageError (code : StorageErrorCode)
| DOMException (name : DOMExceptionName)
| TypeError
| Unmodelled.

Inductive result (A : Type) : Type :=
| Ok (a : A)
| Err (e : error).
Arguments Ok {A} a.
Arguments Err {A} e.

(* ===================================================================== *)
(** ** The IndexedDB engine *)
(* ===================================================================== *)

Record IndexConfig : Type := mkIndex {
  ix_name : string;
  ix_keyPath : string;
  ix_unique : bool
}.

Record ObjectStoreConfig : Type := mkStoreConfig {
  sc_name : string;
  sc_keyPath : string;
  sc_indices : list IndexConfig
}.

Record DatabaseConfig : Type := mkConfig {
  cfg_name : string;
  cfg_version : Z;
  cfg_stores : list ObjectStoreConfig
}.

(** An object store: its key path, its indexes and its records by key. *)
Record ObjectStore : Type := mkStore {
  keyPath : string;
  indices : list IndexConfig;
  records : gmap string obj
}.

Inductive IDBCursorDirection : Type := next | nextunique | prev | prevunique.

(** The sources build key ranges with [IDBKeyRange.only] alone. *)
Inductive IDBKeyRange : Type := only (k : value).

(** A value is a valid key when it is a number, a date, a string or an
    array of valid keys. *)
Fixpoint valid_key (v : value) : bool :=
  match v with
  | VNum _ | VStr _ | VDate _ => true
  | VArr xs => forallb valid_key xs
  | _ => false
  end.

(** Equality of keys. *)
Fixpoint key_eqb (a b : value) {struct a} : bool :=
  match a, b with
  | VNum x, VNum y => x =? y
  | VDate x, VDate y => x =? y
  | VStr x, VStr y => String.eqb x y
  | VArr xs, VArr ys =>
      (fix all2 (l : list value) (r : list value) {struct l} : bool :=
         match l, r with
         | [], [] => true
         | x :: l', y :: r' => key_eqb x y && all2 l' r'
         | _, _ => false
         end) xs ys
  | _, _ => false
  end.

(** Records in ascending order of their primary key, as a cursor over the
    store meets them. *)
Fixpoint insert_by_key (kr : string * obj) (l : list (string * obj))
  : list (string * obj) :=
  match l with
  | [] => [kr]
  | kr' :: l' =>
      if String.leb (fst kr) (fst kr') then kr :: l
      else kr' :: insert_by_key kr l'
  end.

Definition in_key_order (m : gmap string obj) : list (string * obj) :=
  foldr insert_by_key [] (map_to_list m).

Definition store_values (st : ObjectStore) : list obj :=
  map snd (in_key_order (records st)).

(** The index entries whose key is [k], in primary-key order. *)
Definition index_only (st : ObjectStore) (path : string) (k : value) : list obj :=
  filter (fun r => Is_true (key_eqb (get_prop r path) k)) (store_values st).

Definition key_path_of_index (st : ObjectStore) (name : string) : option string :=
  ix_keyPath <$> find (fun ix => String.eqb (ix_name ix) name) (indices st).

(** [store.openCursor(null, direction)]: every record, by key. *)
Definition store_cursor (st : ObjectStore) (d : option IDBCursorDirection) : list obj :=
  match d with
  | None | Some next | Some nextunique => store_values st
  | Some prev | Some prevunique => rev (store_values st)
  end.

(** [index.openCursor(range, direction)] for a range of one key: the
    entries of that index key; the [unique] directions stop at the entry
    with the least primary key. *)
Definition index_cursor (st : ObjectStore) (path : string) (r : IDBKeyRange)
    (d : option IDBCursorDirection) : list obj :=
  match r with
  | only k =>
      match d with
      | None | Some next => index_only st path k
      | Some prev => rev (index_only st path k)
      | Some nextunique | Some prevunique => take 1 (index_only st path k)
      end
  end.

(** A record may enter the store under key [k] when no other record holds
    the same key in an index declared unique.  Records whose indexed
    property is not a valid key are not in the index at all. *)
Definition unique_ok (st : ObjectStore) (k : string) (r : obj) : bool :=
  forallb (fun ix =>
    negb (ix_unique ix)
    || negb (valid_key (get_prop r (ix_keyPath ix)))
    || forallb (fun kr' : string * obj =>
          String.eqb (fst kr') k
          || negb (key_eqb (get_prop (snd kr') (ix_keyPath ix))
                           (get_prop r (ix_keyPath ix))))
         (map_to_list (records st)))
    (indices st).

(** The primary key of a record, read through the key path.  An in-line
    key that is missing or of a type that cannot be a key is a
    [DataError]. *)
Definition primary_key (st : ObjectStore) (r : obj) : result string :=
  match get_prop r (keyPath st) with
  | VStr k => Ok k
  | v => if valid_key v then Err Unmodelled else Err (DOMException DataError)
  end.

Definition set_records (st : ObjectStore) (m : gmap string obj) : ObjectStore :=
  mkStore (keyPath st) (indices st) m.

(** A key path that is one identifier: a letter, an underscore or a dollar
    sign, then letters, digits, underscores and dollar signs.  Such a key
    path is valid, and the engine reads it as one property.  The standard
    also has dotted key paths and the empty one, and refuses others with a
    [SyntaxError]; the embedding covers none of these. *)
Definition identifier_char (first : bool) (c : ascii) : bool :=
  let n := N_of_ascii c in
  (N.leb 97 n && N.leb n 122) || (N.leb 65 n && N.leb n 90)
  || N.eqb n 95 || N.eqb n 36
  || (negb first && N.leb 48 n && N.leb n 57).

Fixpoint identifier_rest (s : string) : bool :=
  match s with
  | EmptyString => true
  | String c s' => identifier_char false c && identifier_rest s'
  end.

Definition one_identifier (path : string) : bool :=
  match path with
  | EmptyString => false
  | String c rest => identifier_char true c && identifier_rest rest
  end.

(** [store.createIndex(name, keyPath, { unique })]: a [ConstraintError]
    when the store has an index of that name already. *)
Definition create_index (st : ObjectStore) (index : IndexConfig) : result ObjectStore :=
  if existsb (fun ix => String.eqb (ix_name ix) (ix_name index)) (indices st)
  then Err (DOMException ConstraintError)
  else if one_identifier (ix_keyPath index)
  then Ok (mkStore (keyPath st) (indices st ++ [index]) (records st))
  else Err Unmodelled.

(** [db.createObjectStore(name, { keyPath })], then the indexes one after
    the other. *)
Definition create_store (storeConfig : ObjectStoreConfig) : result ObjectStore :=
  if one_identifier (sc_keyPath storeConfig)
  then
    foldl (fun store index =>
             match store with
             | Ok st => create_index st index
             | Err e => Err e
             end)
          (Ok (mkStore (sc_keyPath storeConfig) [] ∅))
          (sc_indices storeConfig)
  else Err Unmodelled.

(** [store.add(r)]: fails when the key is taken or a unique index would
    hold a key twice. *)
Definition store_add (st : ObjectStore) (r : obj) : result ObjectStore :=
  match primary_key st r with
  | Err e => Err e
  | Ok k =>
      match records st !! k with
      | Some _ => Err (DOMException ConstraintError)
      | None =>
          if unique_ok st k r then Ok (set_records st (<[k := r]> (records st)))
          else Err (DOMException ConstraintError)
      end
  end.

(** [store.put(r)]: as [add], except that the record under the same key is
    replaced. *)
Definition store_put (st : ObjectStore) (r : obj) : result ObjectStore :=
  match primary_key st r with
  | Err e => Err e
  | Ok k =>
      if unique_ok st k r then Ok (set_records st (<[k := r]> (records st)))
      else Err (DOMException ConstraintError)
  end.

(** [store.delete(id)] and [store.clear()]. *)
Definition store_delete (st : ObjectStore) (id : string) : ObjectStore :=
  set_records st (delete id (records st)).

Definition store_clear (st : ObjectStore) : ObjectStore :=
  set_records st ∅.

(* ===================================================================== *)
(** ** The state of the running application *)
(* ===================================================================== *)

(** An oracle: the values a source of the environment yields, one after
    the other, and how many were taken. *)
Record Oracle (A : Type) : Type := mkOracle {
  src : nat -> A;
  drawn : nat
}.
Arguments mkOracle {A} src drawn.
Arguments src {A} o n.
Arguments drawn {A} o.

Definition upcoming {A} (o : Oracle A) : A := src o (drawn o).
Definition advance {A} (o : Oracle A) : Oracle A := mkOracle (src o) (S (drawn o)).

(** The browser's database (its version, 0 before it is first created, and
    its object stores), the connection held by [IndexedDBStorage.db], and
    the oracles behind [crypto.randomUUID()], [new Date()] and
    [Math.random()]. *)
Record State : Type := mkState {
  idb_version : Z;
  idb_stores : gmap string ObjectStore;
  connected : bool;
  uuids : Oracle string;
  dates : Oracle Z;
  randoms : Oracle nat
}.

Definition set_stores (s : State) (m : gmap string ObjectStore) : State :=
  mkState (idb_version s) m (connected s) (uuids s) (dates s) (randoms s).

Definition M (A : Type) : Type := State -> result A * State.

Definition ret {A} (a : A) : M A := fun s => (Ok a, s).

Definition throw {A} (e : error) : M A := fun s => (Err e, s).

Definition bind {A B} (m : M A) (k : A -> M B) : M B :=
  fun s =>
    match m s with
    | (Ok a, s') => k a s'
    | (Err e, s') => (Err e, s')
    end.

Notation "'let*' x ':=' m 'in' k" := (bind m (fun x => k))
  (at level 10, x name, m at level 100, k at level 200).
Notation "m ';;' k" := (bind m (fun _ => k))
  (at level 100, k at level 200, right associativity).

(** A synchronous result lifted into the monad. *)
Definition lift {A} (r : result A) : M A := fun s => (r, s).

(** [for (const x of xs) { await body(x) }] *)
Fixpoint for_each {A} (xs : list A) (body : A -> M unit) : M unit :=
  match xs with
  | [] => ret tt
  | x :: xs' => body x ;; for_each xs' body
  end.

(** [crypto.randomUUID()], [new Date()], [Math.floor(Math.random() * n)] *)
Definition randomUUID : M string :=
  fun s => (Ok (upcoming (uuids s)),
            mkState (idb_version s) (idb_stores s) (connected s)
                    (advance (uuids s)) (dates s) (randoms s)).

Definition new_Date : M Z :=
  fun s => (Ok (upcoming (dates s)),
            mkState (idb_version s) (idb_stores s) (connected s)
                    (uuids s) (advance (dates s)) (randoms s)).

Definition random_below (n : nat) : M nat :=
  fun s => (Ok (upcoming (randoms s) mod n)%nat,
            mkState (idb_version s) (idb_stores s) (connected s)
                    (uuids s) (dates s) (advance (randoms s))).

(** [IDBKeyRange.only(k)] throws a [DataError] on a value that is no key. *)
Definition IDBKeyRange_only (k : value) : M IDBKeyRange :=
  if valid_key k then ret (only k) else throw (DOMException DataError).

(* ===================================================================== *)
(** ** [IndexedDBStorage]: the entity store (src/unnamed/part_000) *)
(* ===================================================================== *)

Module IndexedDBStorage.

(** [QueryOptions] of the module [./types]. *)
Record QueryOptions : Type := mkQuery {
  index : option string;
  range : option IDBKeyRange;
  direction : option IDBCursorDirection;
  limit : option Z;
  offset : option Z
}.

Definition no_options : QueryOptions := mkQuery None None None None None.

(** [createObjectStores]: a store of the configuration is created, with
    its indexes, when the database does not have it yet.  What
    [createObjectStore] or [createIndex] throws ends the loop. *)
Definition createObjectStores (config : DatabaseConfig)
    (db : gmap string ObjectStore) : result (gmap string ObjectStore) :=
  foldl (fun db storeConfig =>
           match db with
           | Err e => Err e
           | Ok db =>
               match db !! sc_name storeConfig with
               | Some _ => Ok db
               | None =>
                   match create_store storeConfig with
                   | Ok store => Ok (<[sc_name storeConfig := store]> db)
                   | Err e => Err e
                   end
               end
           end)
        (Ok db) (cfg_stores config).

(** [initialize]: [indexedDB.open(name, version)].
    - A version that is not an integer from 1 to 2^53 - 1 makes [open]
      throw a [TypeError], which rejects the promise.
    - A request for a version below the stored one fails.
    - A request for a higher version needs every connection to the
      database closed: while the connection held by [this.db] is open the
      request stays blocked, and, no handler closing that connection, the
      promise is never settled.  Otherwise [onupgradeneeded] runs; when
      [createObjectStores] throws in it the upgrade is aborted, the
      database is as it was and [request.onerror] rejects. *)
Definition initialize (config : DatabaseConfig) : M unit :=
  fun s =>
    if (cfg_version config <? 1) || (2 ^ 53 <=? cfg_version config)
    then (Err TypeError, s)
    else if cfg_version config <? idb_version s
    then (Err (StorageError DATABASE_OPEN_FAILED), s)
    else if idb_version s <? cfg_version config
    then
      if connected s then (Err Unmodelled, s)
      else
        match createObjectStores config (idb_stores s) with
        | Ok stores =>
            (Ok tt, mkState (cfg_version config) stores true
                            (uuids s) (dates s) (randoms s))
        | Err Unmodelled => (Err Unmodelled, s)
        | Err _ => (Err (StorageError DATABASE_OPEN_FAILED), s)
        end
    else
      (Ok tt, mkState (cfg_version config) (idb_stores s) true
                      (uuids s) (dates s) (randoms s)).

Definition close : M unit :=
  fun s => (Ok tt, mkState (idb_version s) (idb_stores s) false
                           (uuids s) (dates s) (randoms s)).

(** [if (!this.db) throw new StorageError('Database not initialized', ...)] *)
Definition require_db : M unit :=
  fun s => if connected s then (Ok tt, s)
           else (Err (StorageError DATABASE_OPEN_FAILED), s).

(** [this.db.transaction([storeName], mode).objectStore(storeName)] throws
    when the database has no such store. *)
Definition objectStore (storeName : string) : M ObjectStore :=
  fun s => match idb_stores s !! storeName with
           | Some st => (Ok st, s)
           | None => (Err (DOMException NotFoundError), s)
           end.

Definition commit (storeName : string) (st : ObjectStore) : M unit :=
  fun s => (Ok tt, set_stores s (<[storeName := st]> (idb_stores s))).

(** The outcome of a write request.  A constraint failure reaches
    [request.onerror], which rejects with [TRANSACTION_FAILED]; what the
    call itself throws rejects the promise as it is. *)
Definition on_request (storeName : string) (r : result ObjectStore) : M unit :=
  match r with
  | Ok st => commit storeName st
  | Err (DOMException ConstraintError) => throw (StorageError TRANSACTION_FAILED)
  | Err e => throw e
  end.

(** [{ version: 1, syncedAt: undefined, isDeleted: false }] *)
Definition initial_sync : obj :=
  <["isDeleted" := VBool false]>
    (<["syncedAt" := VUndefined]> (<["version" := VNum 1]> ∅)).

Definition create (storeName : string) (data : obj) : M obj :=
  require_db ;;
  let* now := new_Date in
  let* id := randomUUID in
  let entity : obj :=
    <["sync" := VObj initial_sync]>
      (<["updatedAt" := VDate now]>
         (<["createdAt" := VDate now]>
            (<["id" := VStr id]> data))) in
  let* store := objectStore storeName in
  on_request storeName (store_add store entity) ;;
  ret entity.

Definition get (storeName : string) (id : string) : M (option obj) :=
  require_db ;;
  let* store := objectStore storeName in
  ret (records store !! id).

(** [!options.limit || count < options.limit] *)
Definition within_limit (options : QueryOptions) (count : Z) : bool :=
  match limit options with
  | Some l => (l =? 0) || (count <? l)
  | None => true
  end.

(** [!options.offset || count >= options.offset] *)
Definition past_offset (options : QueryOptions) (count : Z) : bool :=
  match offset options with
  | Some o => (o =? 0) || (o <=? count)
  | None => true
  end.

(** The [onsuccess] handler of the cursor request, run once per record the
    cursor yields and once more when it is exhausted. *)
Fixpoint cursor_loop (options : QueryOptions) (cursor : list obj)
    (count : Z) (results : list obj) : list obj :=
  match cursor with
  | [] => results
  | value :: rest =>
      if within_limit options count then
        cursor_loop options rest (count + 1)
          (if past_offset options count then results ++ [value] else results)
      else results
  end.

Definition getAll (storeName : string) (options : QueryOptions) : M (list obj) :=
  require_db ;;
  let* store := objectStore storeName in
  let* cursor :=
    match index options, range options with
    | Some i, Some r =>
        if String.eqb i EmptyString then ret (store_cursor store (direction options))
        else
          match key_path_of_index store i with
          | Some path => ret (index_cursor store path r (direction options))
          | None => throw (DOMException NotFoundError)
          end
    | _, _ => ret (store_cursor store (direction options))
    end in
  ret (cursor_loop options cursor 0 []).

(** [{ ...current.sync, version: current.sync.version + 1 }] *)
Definition next_sync (sync : value) : result value :=
  match sync with
  | VObj so =>
      match get_prop so "version" with
      | VNum v => Ok (VObj (<["version" := VNum (v + 1)]> so))
      | _ => Err Unmodelled
      end
  | VUndefined | VNull => Err TypeError
  | _ => Err Unmodelled
  end.

Definition update (storeName : string) (id : string) (updates : obj) : M obj :=
  require_db ;;
  let* current := get storeName id in
  match current with
  | None => throw (StorageError KEY_NOT_FOUND)
  | Some current =>
      let* now := new_Date in
      let* sync := lift (next_sync (get_prop current "sync")) in
      let updated : obj :=
        <["sync" := sync]>
          (<["updatedAt" := VDate now]> (spread current updates)) in
      let* store := objectStore storeName in
      on_request storeName (store_put store updated) ;;
      ret updated
  end.

Definition delete (storeName : string) (id : string) : M unit :=
  require_db ;;
  let* store := objectStore storeName in
  commit storeName (store_delete store id).

Definition clear (storeName : string) : M unit :=
  require_db ;;
  let* store := objectStore storeName in
  commit storeName (store_clear store).

(** [getStats]: the number of records of every store of the database. *)
Definition getStats : M obj :=
  require_db ;;
  fun s =>
    (Ok ((fun st => VNum (Z.of_nat (size (records st)))) <$> idb_stores s), s).

End IndexedDBStorage.

(* ===================================================================== *)
(** ** Strings *)
(* ===================================================================== *)

Definition code (c : ascii) : N := N_of_ascii c.

Definition between (lo hi : N) (n : N) : bool := (N.leb lo n && N.leb n hi)%N.

(** One code unit of [String.prototype.toLowerCase]: A-Z, and the Latin-1
    capitals other than the multiplication sign. *)
Definition lower_char (c : ascii) : ascii :=
  let n := code c in
  if between 65 90 n || (between 192 222 n && negb (N.eqb n 215))
  then ascii_of_N (n + 32) else c.

Fixpoint toLowerCase (s : string) : string :=
  match s with
  | EmptyString => EmptyString
  | String c s' => String (lower_char c) (toLowerCase s')
  end.

(** The canonical form under which a regular expression with flag [i]
    compares code units (their upper case). *)
Definition canonical (c : ascii) : ascii :=
  let n := code c in
  if between 97 122 n || (between 224 254 n && negb (N.eqb n 247))
  then ascii_of_N (n - 32) else c.

(** White space and line terminators, as [String.prototype.trim] removes. *)
Definition is_space (c : ascii) : bool :=
  let n := code c in
  between 9 13 n || N.eqb n 32 || N.eqb n 160.

Fixpoint trim_start (s : string) : string :=
  match s with
  | String c s' => if is_space c then trim_start s' else s
  | EmptyString => EmptyString
  end.

(** Drops the white space at the end: a character is kept when it is not a
    space or something is kept after it. *)
Fixpoint trim_end (s : string) : string :=
  match s with
  | EmptyString => EmptyString
  | String c s' =>
      match trim_end s' with
      | EmptyString => if is_space c then EmptyString else String c EmptyString
      | t => String c t
      end
  end.

Definition trim (s : string) : string := trim_end (trim_start s).

(** [hay.includes(needle)] *)
Fixpoint includes (hay needle : string) : bool :=
  String.prefix needle hay
  || match hay with
     | String _ hay' => includes hay' needle
     | EmptyString => false
     end.

(** [s.substring(from, to)] for [from <= to]. *)
Definition js_substring (s : string) (from to : nat) : string :=
  String.substring from (to - from) s.

Fixpoint drop_chars (n : nat) (s : string) : string :=
  match n, s with
  | S n', String _ s' => drop_chars n' s'
  | _, _ => s
  end.

(** Strict equality [a === b] of two values that do not share a
    reference: objects, arrays and dates are then never equal. *)
Definition strict_eq (a b : value) : bool :=
  match a, b with
  | VUndefined, VUndefined | VNull, VNull => true
  | VBool x, VBool y => Bool.eqb x y
  | VNum x, VNum y => x =? y
  | VStr x, VStr y => String.eqb x y
  | _, _ => false
  end.

(** A value used where the store expects a key: a string is one; another
    valid key is outside the model; anything else is a [DataError]. *)
Definition as_key (v : value) : M string :=
  match v with
  | VStr k => ret k
  | _ => if valid_key v then throw Unmodelled else throw (DOMException DataError)
  end.

(** [xs.find(p)], [xs.filter(p)] and [xs.some(p)] for a predicate that may
    throw. *)
Fixpoint find_r {A} (p : A -> result bool) (xs : list A) : result (option A) :=
  match xs with
  | [] => Ok None
  | x :: xs' =>
      match p x with
      | Err e => Err e
      | Ok true => Ok (Some x)
      | Ok false => find_r p xs'
      end
  end.

Fixpoint filter_r {A} (p : A -> result bool) (xs : list A) : result (list A) :=
  match xs with
  | [] => Ok []
  | x :: xs' =>
      match p x with
      | Err e => Err e
      | Ok b =>
          match filter_r p xs' with
          | Err e => Err e
          | Ok ys => Ok (if b then x :: ys else ys)
          end
      end
  end.

Fixpoint some_r {A} (p : A -> result bool) (xs : list A) : result bool :=
  match xs with
  | [] => Ok false
  | x :: xs' =>
      match p x with
      | Err e => Err e
      | Ok true => Ok true
      | Ok false => some_r p xs'
      end
  end.

(** [v.toLowerCase()]: only a string has the method. *)
Definition lower_of (v : value) : result string :=
  match v with
  | VStr s => Ok (toLowerCase s)
  | _ => Err TypeError
  end.

(* ===================================================================== *)
(** ** [BrainStorage]: the domain facade (src/lib/storage/index.ts) *)
(* ===================================================================== *)

Module BrainStorage.

(** The configuration built by the constructor.  An index whose [unique]
    is not given is created with [unique: undefined], that is, not unique. *)
Definition notes_indices : list IndexConfig :=
  [ mkIndex "createdAt" "createdAt" false;
    mkIndex "updatedAt" "updatedAt" false;
    mkIndex "isArchived" "isArchived" false;
    mkIndex "isPinned" "isPinned" false;
    mkIndex "tags" "tags" false ].

Definition tags_indices : list IndexConfig :=
  [ mkIndex "name" "name" true; mkIndex "createdAt" "createdAt" false ].

Definition backlinks_indices : list IndexConfig :=
  [ mkIndex "sourceNoteId" "sourceNoteId" false;
    mkIndex "targetNoteId" "targetNoteId" false;
    mkIndex "linkType" "linkType" false ].

Definition config : DatabaseConfig :=
  mkConfig "BrainDB" 1
    [ mkStoreConfig "notes" "id" notes_indices;
      mkStoreConfig "tags" "id" tags_indices;
      mkStoreConfig "backlinks" "id" backlinks_indices ].

Definition initialize : M unit := IndexedDBStorage.initialize config.

Definition close : M unit := IndexedDBStorage.close.

(** [NoteQueryOptions]: the fields [getAllNotes] reads. *)
Record NoteQueryOptions : Type := mkNoteQuery {
  direction : option IDBCursorDirection;
  limit : option Z;
  offset : option Z;
  tags : option (list string);
  isArchived : option bool;
  isPinned : option bool;
  searchTerm : option string
}.

Definition all_notes : NoteQueryOptions :=
  mkNoteQuery None None None None None None None.

(* --- notes --- *)

Definition createNote (noteData : obj) : M obj :=
  let note : obj :=
    <["isPinned" := js_or (get_prop noteData "isPinned") (VBool false)]>
      (<["isArchived" := js_or (get_prop noteData "isArchived") (VBool false)]>
         (<["backlinks" := js_or (get_prop noteData "backlinks") (VArr [])]>
            (<["tags" := js_or (get_prop noteData "tags") (VArr [])]> noteData))) in
  IndexedDBStorage.create "notes" note.

Definition getNote (id : string) : M (option obj) :=
  IndexedDBStorage.get "notes" id.

(** [note.tags.includes(tagId)] *)
Definition note_has_tag (note : obj) (tagId : string) : result bool :=
  match get_prop note "tags" with
  | VArr xs => Ok (existsb (strict_eq (VStr tagId)) xs)
  | VStr _ => Err Unmodelled
  | _ => Err TypeError
  end.

(** [note.title.toLowerCase().includes(t) || note.content.toLowerCase().includes(t)] *)
Definition note_mentions (searchTerm : string) (note : obj) : result bool :=
  match lower_of (get_prop note "title") with
  | Err e => Err e
  | Ok title =>
      if includes title searchTerm then Ok true
      else
        match lower_of (get_prop note "content") with
        | Err e => Err e
        | Ok content => Ok (includes content searchTerm)
        end
  end.

Definition getAllNotes (options : NoteQueryOptions) : M (list obj) :=
  let* notes :=
    IndexedDBStorage.getAll "notes"
      (IndexedDBStorage.mkQuery None None
         (Some (default next (direction options)))
         (limit options) (offset options)) in
  let* notes :=
    match tags options with
    | Some (t :: ts) =>
        lift (filter_r (fun note => some_r (note_has_tag note) (t :: ts)) notes)
    | _ => ret notes
    end in
  let notes :=
    match isArchived options with
    | Some b =>
        List.filter (fun note => strict_eq (get_prop note "isArchived") (VBool b)) notes
    | None => notes
    end in
  let notes :=
    match isPinned options with
    | Some b =>
        List.filter (fun note => strict_eq (get_prop note "isPinned") (VBool b)) notes
    | None => notes
    end in
  match searchTerm options with
  | Some term =>
      if String.eqb term EmptyString then ret notes
      else lift (filter_r (note_mentions (toLowerCase term)) notes)
  | None => ret notes
  end.

Definition updateNote (id : string) (updates : obj) : M obj :=
  IndexedDBStorage.update "notes" id updates.

Definition deleteNote (id : string) : M unit :=
  IndexedDBStorage.delete "notes" id.

(* --- tags --- *)

(** [this.db.getAll('tags', { index: 'name', range: IDBKeyRange.only(name) })] *)
Definition tags_named (name : value) : M (list obj) :=
  let* r := IDBKeyRange_only name in
  IndexedDBStorage.getAll "tags"
    (IndexedDBStorage.mkQuery (Some "name") (Some r) None None None).

Definition createTag (tagData : obj) : M obj :=
  let* existingTags := tags_named (get_prop tagData "name") in
  match existingTags with
  | existing :: _ => ret existing
  | [] =>
      let tag : obj :=
        <["isSystemTag" := js_or (get_prop tagData "isSystemTag") (VBool false)]>
          (<["parentId" := js_or (get_prop tagData "parentId") VUndefined]>
             (<["description" := js_or (get_prop tagData "description") (VStr EmptyString)]>
                (<["color" := js_or (get_prop tagData "color") (VStr "#3b82f6")]>
                   tagData))) in
      IndexedDBStorage.create "tags" tag
  end.

Definition getTag (id : string) : M (option obj) :=
  IndexedDBStorage.get "tags" id.

Definition getAllTags : M (list obj) :=
  IndexedDBStorage.getAll "tags" IndexedDBStorage.no_options.

Definition updateTag (id : string) (updates : obj) : M obj :=
  IndexedDBStorage.update "tags" id updates.

Definition getTagByName (name : string) : M (option obj) :=
  let* tags := tags_named (VStr name) in
  ret (head tags).

(* --- backlinks --- *)

Definition createBacklink (backlinkData : obj) : M obj :=
  IndexedDBStorage.create "backlinks" backlinkData.

Definition getBacklink (id : string) : M (option obj) :=
  IndexedDBStorage.get "backlinks" id.

Definition getAllBacklinks : M (list obj) :=
  IndexedDBStorage.getAll "backlinks" IndexedDBStorage.no_options.

Definition updateBacklink (id : string) (updates : obj) : M obj :=
  IndexedDBStorage.update "backlinks" id updates.

Definition deleteBacklink (id : string) : M unit :=
  IndexedDBStorage.delete "backlinks" id.

(** [this.db.getAll('backlinks', { index, range: IDBKeyRange.only(noteId) })] *)
Definition backlinks_by (ix : string) (noteId : string) : M (list obj) :=
  let* r := IDBKeyRange_only (VStr noteId) in
  IndexedDBStorage.getAll "backlinks"
    (IndexedDBStorage.mkQuery (Some ix) (Some r) None None None).

Definition getBacklinksForNote (noteId : string) : M (list obj) :=
  let* sourceBacklinks := backlinks_by "sourceNoteId" noteId in
  let* targetBacklinks := backlinks_by "targetNoteId" noteId in
  ret (sourceBacklinks ++ targetBacklinks)%list.

Definition clearAllData : M unit :=
  for_each ["notes"; "tags"; "backlinks"] IndexedDBStorage.clear.

(** [note.tags.filter(tagId => tagId !== id)]: only an array has the
    method. *)
Definition tags_without (id : string) (note : obj) : result value :=
  match get_prop note "tags" with
  | VArr xs => Ok (VArr (List.filter (fun tagId => negb (strict_eq tagId (VStr id))) xs))
  | _ => Err TypeError
  end.

(** [deleteTag]: the notes the index [tags] yields for the id are
    rewritten without it, then the tag is deleted.  The index is created
    from [{ unique }] alone, so it is not multi-entry: the key of a note
    in it is its whole [tags] value. *)
Definition deleteTag (id : string) : M unit :=
  let* r := IDBKeyRange_only (VStr id) in
  let* notesWithTag :=
    IndexedDBStorage.getAll "notes"
      (IndexedDBStorage.mkQuery (Some "tags") (Some r) None None None) in
  for_each notesWithTag (fun note =>
    let* updatedTags := lift (tags_without id note) in
    let* noteId := as_key (get_prop note "id") in
    updateNote noteId (<["tags" := updatedTags]> ∅) ;;
    ret tt) ;;
  IndexedDBStorage.delete "tags" id.

Definition getStats : M obj := IndexedDBStorage.getStats.

End BrainStorage.

(* ===================================================================== *)
(** ** Hashtags (src/unnamed/part_003) *)
(* ===================================================================== *)

Module Tags.

(** The class [[a-zA-Z0-9_-]]. *)
Definition is_tag_char (c : ascii) : bool :=
  let n := code c in
  between 97 122 n || between 65 90 n || between 48 57 n
  || N.eqb n 95 || N.eqb n 45.

(** The longest run of tag characters at the head of [s]: what the greedy
    [[a-zA-Z0-9_-]+] takes. *)
Fixpoint tag_run (s : string) : string :=
  match s with
  | String c s' => if is_tag_char c then String c (tag_run s') else EmptyString
  | EmptyString => EmptyString
  end.

(** [/#([a-zA-Z0-9_-]+)/] tried at the head of [s]: group 1 of the match. *)
Definition hashtag_at (s : string) : option string :=
  match s with
  | String "#" s' =>
      match tag_run s' with
      | EmptyString => None
      | g => Some g
      end
  | _ => None
  end.

(** The successive results of [hashtagRegex.exec(content)]: the leftmost
    match at or after [lastIndex], which a match moves to its end.  [skip]
    counts the characters of the last match still to be passed. *)
Fixpoint hashtag_matches (s : string) (skip : nat) : list string :=
  match s with
  | EmptyString => []
  | String _ s' =>
      match skip with
      | S k => hashtag_matches s' k
      | O =>
          match hashtag_at s with
          | Some g => g :: hashtag_matches s' (String.length g)
          | None => hashtag_matches s' 0
          end
      end
  end.

(** [tags.includes(tag)] on an array of strings. *)
Definition includes_tag (tags : list string) (tag : string) : bool :=
  existsb (String.eqb tag) tags.

Definition extractTagsFromContent (content : string) : list string :=
  foldl (fun tags m =>
           let tag := toLowerCase m in
           if includes_tag tags tag then tags else (tags ++ [tag])%list)
        [] (hashtag_matches content 0).

Definition colors : list string :=
  [ "#3b82f6"; "#ef4444"; "#10b981"; "#f59e0b"; "#8b5cf6";
    "#06b6d4"; "#f97316"; "#84cc16"; "#ec4899"; "#6b7280" ].

(** [colors[Math.floor(Math.random() * colors.length)]] *)
Definition getRandomTagColor : M string :=
  let* i := random_below (List.length colors) in
  ret (nth i colors EmptyString).

(** The body of the loop of [syncTagsForNote]: find the tag or create it,
    and push its id. *)
Definition resolve_tag (tagName : string) : M value :=
  let* found := BrainStorage.getTagByName tagName in
  let* tag :=
    match found with
    | Some tag => ret tag
    | None =>
        let* color := getRandomTagColor in
        BrainStorage.createTag
          (<["color" := VStr color]> (<["name" := VStr tagName]> ∅))
    end in
  ret (get_prop tag "id").

Fixpoint resolve_tags (tagNames : list string) (tagIds : list value)
  : M (list value) :=
  match tagNames with
  | [] => ret tagIds
  | tagName :: rest =>
      let* id := resolve_tag tagName in
      resolve_tags rest (tagIds ++ [id])%list
  end.

Definition syncTagsForNote (noteId : string) (content : string) : M (list value) :=
  let tagNames := extractTagsFromContent content in
  let* tagIds := resolve_tags tagNames [] in
  BrainStorage.updateNote noteId (<["tags" := VArr tagIds]> ∅) ;;
  ret tagIds.

(** [content.replace(/#([a-zA-Z0-9_-]+)/g, template)] for a template in
    which [$1] occurs once: every match, taken from left to right, is
    replaced by what [wrap] makes of its group 1. *)
Fixpoint replace_hashtags (wrap : string -> string) (s : string) (skip : nat)
  : string :=
  match s with
  | EmptyString => EmptyString
  | String c s' =>
      match skip with
      | S k => replace_hashtags wrap s' k
      | O =>
          match hashtag_at s with
          | Some g => wrap g ++ replace_hashtags wrap s' (String.length g)
          | None => String c (replace_hashtags wrap s' 0)
          end
      end
  end.

(** The template ['$1']. *)
Definition removeHashtagsFromContent (content : string) : string :=
  replace_hashtags (fun g => g) content 0.

Definition quote : string := String "034"%char EmptyString.

(** The template ['<span class="text-blue-600 font-medium">#$1</span>']. *)
Definition highlightHashtags (content : string) : string :=
  replace_hashtags
    (fun g => "<span class=" ++ quote ++ "text-blue-600 font-medium" ++ quote
              ++ ">#" ++ g ++ "</span>")
    content 0.

End Tags.

(* ===================================================================== *)
(** ** Wiki links and backlinks (src/lib/backlinks.ts) *)
(* ===================================================================== *)

Module Backlinks.

Definition is_close_bracket (c : ascii) : bool := N.eqb (code c) 93.

(** The longest run of characters other than a closing bracket at the head
    of [s]: what the greedy [[^\]]+] takes. *)
Fixpoint title_run (s : string) : string :=
  match s with
  | String c s' =>
      if is_close_bracket c then EmptyString else String c (title_run s')
  | EmptyString => EmptyString
  end.

(** [/\[\[([^\]]+)\]\]/] tried at the head of [s]: group 1 of the match.
    The run stops at a closing bracket or at the end, so no shorter run
    can be followed by the two closing brackets. *)
Definition wikilink_at (s : string) : option string :=
  match s with
  | String "[" (String "[" s') =>
      match title_run s' with
      | EmptyString => None
      | g =>
          if String.prefix "]]" (drop_chars (String.length g) s')
          then Some g else None
      end
  | _ => None
  end.

(** The successive results of [wikiLinkRegex.exec(content)], each with
    [match.index]; [i] is the offset of [s] in the content. *)
Fixpoint wikilink_matches (s : string) (i : nat) (skip : nat)
  : list (nat * string) :=
  match s with
  | EmptyString => []
  | String _ s' =>
      match skip with
      | S k => wikilink_matches s' (S i) k
      | O =>
          match wikilink_at s with
          | Some g => (i, g) :: wikilink_matches s' (S i) (String.length g + 3)
          | None => wikilink_matches s' (S i) 0
          end
      end
  end.

Record WikiLink : Type := mkLink {
  title : string;
  position : nat * nat;
  context : string
}.

Definition extractWikiLinksFromContent (content : string) : list WikiLink :=
  map (fun m : nat * string =>
         let start := fst m in
         let end_ := (start + (String.length (snd m) + 4))%nat in
         let contextStart := (start - 50)%nat in
         let contextEnd := Nat.min (String.length content) (end_ + 50) in
         mkLink (trim (snd m)) (start, end_)
                (js_substring content contextStart contextEnd))
      (wikilink_matches content 0 0).

Definition findNoteByTitle (title : string) : M (option obj) :=
  let* allNotes := BrainStorage.getAllNotes BrainStorage.all_notes in
  let* note :=
    lift (find_r (fun n =>
            match lower_of (get_prop n "title") with
            | Ok t => Ok (String.eqb t (toLowerCase title))
            | Err e => Err e
            end) allNotes) in
  match note with
  | Some n => ret (Some n)
  | None =>
      lift (find_r (fun n =>
              match lower_of (get_prop n "title") with
              | Ok t => Ok (includes t (toLowerCase title))
              | Err e => Err e
              end) allNotes)
  end.

Definition removeBacklinksFromNote (noteId : string) : M unit :=
  let* existingBacklinks := BrainStorage.getBacklinksForNote noteId in
  for_each existingBacklinks (fun backlink =>
    let* id := as_key (get_prop backlink "id") in
    BrainStorage.deleteBacklink id).

Definition backlink_data (noteId : string) (targetNote : obj) (link : WikiLink) : obj :=
  <["position" :=
      VObj (<["end" := VNum (Z.of_nat (snd (position link)))]>
              (<["start" := VNum (Z.of_nat (fst (position link)))]> ∅))]>
    (<["context" := VStr (context link)]>
       (<["linkType" := VStr "wiki"]>
          (<["targetNoteId" := get_prop targetNote "id"]>
             (<["sourceNoteId" := VStr noteId]> ∅)))).

Definition syncBacklinksForNote (noteId : string) (content : string) : M unit :=
  let wikiLinks := extractWikiLinksFromContent content in
  removeBacklinksFromNote noteId ;;
  for_each wikiLinks (fun link =>
    let* targetNote := findNoteByTitle (title link) in
    match targetNote with
    | Some targetNote =>
        BrainStorage.createBacklink (backlink_data noteId targetNote link) ;;
        ret tt
    | None => ret tt
    end).

(** [content.replace(/\[\[([^\]]+)\]\]/g, template)] for a template in
    which [$1] occurs once. *)
Fixpoint replace_wikilinks (wrap : string -> string) (s : string) (skip : nat)
  : string :=
  match s with
  | EmptyString => EmptyString
  | String c s' =>
      match skip with
      | S k => replace_wikilinks wrap s' k
      | O =>
          match wikilink_at s with
          | Some g => wrap g ++ replace_wikilinks wrap s' (String.length g + 3)
          | None => String c (replace_wikilinks wrap s' 0)
          end
      end
  end.

(** The template ['$1']. *)
Definition removeWikiLinksFromContent (content : string) : string :=
  replace_wikilinks (fun g => g) content 0.

(** The template ['<span class="text-purple-600 font-medium">[[$1]]</span>']. *)
Definition highlightWikiLinks (content : string) : string :=
  replace_wikilinks
    (fun g => "<span class=" ++ Tags.quote ++ "text-purple-600 font-medium"
              ++ Tags.quote ++ ">[[" ++ g ++ "]]</span>")
    content 0.

(** [storage.getNote(v)] for a property read from a record: a string is
    looked up; another valid key is the key of no note; anything else is
    refused by the engine. *)
Definition getNote_of (v : value) : M (option obj) :=
  match v with
  | VStr id => BrainStorage.getNote id
  | _ =>
      IndexedDBStorage.require_db ;;
      let* store := IndexedDBStorage.objectStore "notes" in
      if valid_key v then ret None else throw (DOMException DataError)
  end.

(** The loops of [getIncomingBacklinks] and [getOutgoingLinks]: the note
    at the given end of each backlink is loaded, and the pair is pushed
    when the note exists. *)
Fixpoint with_note_at (f : string) (backlinks : list obj) (result : list (obj * obj))
  : M (list (obj * obj)) :=
  match backlinks with
  | [] => ret result
  | backlink :: rest =>
      let* note := getNote_of (get_prop backlink f) in
      match note with
      | Some note => with_note_at f rest (result ++ [(note, backlink)])%list
      | None => with_note_at f rest result
      end
  end.

Definition getIncomingBacklinks (noteId : string) : M (list (obj * obj)) :=
  let* backlinks := BrainStorage.getBacklinksForNote noteId in
  with_note_at "sourceNoteId" backlinks [].

Definition getOutgoingLinks (noteId : string) : M (list (obj * obj)) :=
  let* backlinks := BrainStorage.getAllBacklinks in
  let outgoingBacklinks :=
    List.filter (fun bl => strict_eq (get_prop bl "sourceNoteId") (VStr noteId))
      backlinks in
  with_note_at "targetNoteId" outgoingBacklinks [].

(** *** The regular expression of the rename

    [new RegExp(`\\[\\[${oldTitle}\\]\\]`, 'gi')] splices the title into the
    pattern source as it is.  The fragment modelled: a title whose
    characters are ordinary ones, which match themselves up to case, or a
    dot, which matches any character but a line terminator.  A title with
    another syntax character of regular expressions is outside it. *)

Inductive atom : Type :=
| Lit (c : ascii)
| AnyChar.

Definition is_syntax_char (c : ascii) : bool :=
  existsb (Ascii.eqb c)
    [ "\"; "^"; "$"; "*"; "+"; "?"; "("; ")"; "["; "]"; "{"; "}"; "|" ]%char.

Fixpoint atoms_of (source : string) : option (list atom) :=
  match source with
  | EmptyString => Some []
  | String c rest =>
      if is_syntax_char c then None
      else
        match atoms_of rest with
        | Some atoms =>
            Some ((if Ascii.eqb c "." then AnyChar else Lit c) :: atoms)
        | None => None
        end
  end.

Definition rename_regex (oldTitle : string) : option (list atom) :=
  match atoms_of oldTitle with
  | Some atoms =>
      Some ([Lit "["; Lit "["] ++ atoms ++ [Lit "]"; Lit "]"])%list
  | None => None
  end.

Definition is_line_terminator (c : ascii) : bool :=
  N.eqb (code c) 10 || N.eqb (code c) 13.

Definition atom_matches (a : atom) (c : ascii) : bool :=
  match a with
  | Lit x => Ascii.eqb (canonical x) (canonical c)
  | AnyChar => negb (is_line_terminator c)
  end.

(** The pattern matched at the head of [s]. *)
Fixpoint match_here (p : list atom) (s : string) : bool :=
  match p, s with
  | [], _ => true
  | a :: p', String c s' => atom_matches a c && match_here p' s'
  | _ :: _, EmptyString => false
  end.

(** [regex.test(content)] on a fresh regular expression. *)
Fixpoint regex_test (p : list atom) (s : string) : bool :=
  match_here p s
  || match s with
     | String _ s' => regex_test p s'
     | EmptyString => false
     end.

(** The replacement text of one match: [$$], [$&], [$`] and [$'] are
    expanded; the pattern has no group, so a dollar before anything else
    stands for itself. *)
Fixpoint expand (template matched before after : string) : string :=
  match template with
  | EmptyString => EmptyString
  | String c rest =>
      if Ascii.eqb c "$" then
        match rest with
        | String d rest' =>
            if Ascii.eqb d "$" then String "$" (expand rest' matched before after)
            else if Ascii.eqb d "&" then matched ++ expand rest' matched before after
            else if Ascii.eqb d "`" then before ++ expand rest' matched before after
            else if Ascii.eqb d "'" then after ++ expand rest' matched before after
            else String c (expand rest matched before after)
        | EmptyString => String c EmptyString
        end
      else String c (expand rest matched before after)
  end.

(** [content.replace(regex, template)] with the flag [g]: the matches are
    taken from left to right without overlap.  [s] is the part of [whole]
    from offset [i] on; [skip] counts the characters of the last match
    still to be passed. *)
Fixpoint replace_from (p : list atom) (template whole s : string)
    (i skip : nat) : string :=
  match s with
  | EmptyString => EmptyString
  | String c s' =>
      match skip with
      | S k => replace_from p template whole s' (S i) k
      | O =>
          if match_here p s then
            expand template
              (js_substring whole i (i + List.length p))
              (js_substring whole 0 i)
              (drop_chars (i + List.length p) whole)
            ++ replace_from p template whole s' (S i) (List.length p - 1)
          else String c (replace_from p template whole s' (S i) 0)
      end
  end.

Definition regex_replace (p : list atom) (template content : string) : string :=
  replace_from p template content content 0 0.

(** The body of the loop of [updateBacklinksOnNoteRename] for a note other
    than the renamed one.  A content that is not a string is converted by
    [test]; of the conversions only those of arrays and objects can show
    a bracket. *)
Definition rename_in (oldTitle newTitle : string) (sourceNote : obj) : M unit :=
  match rename_regex oldTitle with
  | None => throw Unmodelled
  | Some regex =>
      match get_prop sourceNote "content" with
      | VStr content =>
          if regex_test regex content then
            let updatedContent :=
              regex_replace regex ("[[" ++ newTitle ++ "]]") content in
            let* id := as_key (get_prop sourceNote "id") in
            BrainStorage.updateNote id (<["content" := VStr updatedContent]> ∅) ;;
            syncBacklinksForNote id updatedContent
          else ret tt
      | VArr _ | VObj _ => throw Unmodelled
      | _ => ret tt
      end
  end.

Definition updateBacklinksOnNoteRename (oldTitle newTitle : string) : M unit :=
  let* note := findNoteByTitle oldTitle in
  match note with
  | None => ret tt
  | Some note =>
      let* allNotes := BrainStorage.getAllNotes BrainStorage.all_notes in
      for_each allNotes (fun sourceNote =>
        if strict_eq (get_prop sourceNote "id") (get_prop note "id")
        then ret tt
        else rename_in oldTitle newTitle sourceNote)
  end.

End Backlinks.

(* ===================================================================== *)
(** ** The fuzzy match of the global search
       (src/components/dashboard/dashboard-stats.tsx) *)
(* ===================================================================== *)

Module GlobalSearch.

(** The loop of [fuzzySearch]: [queryIndex] once the characters of
    [textLower] have been passed, or the query is used up. *)
Fixpoint scan (textLower queryLower : string) (queryIndex : nat) : nat :=
  match textLower with
  | EmptyString => queryIndex
  | String c rest =>
      if (queryIndex <? String.length queryLower)%nat then
        if bool_decide (String.get queryIndex queryLower = Some c)
        then scan rest queryLower (S queryIndex)
        else scan rest queryLower queryIndex
      else queryIndex
  end.

Definition fuzzySearch (text query : string) : bool :=
  if String.eqb query EmptyString then true
  else
    let textLower := toLowerCase text in
    let queryLower := toLowerCase query in
    if includes textLower queryLower then true
    else Nat.eqb (scan textLower queryLower 0) (String.length queryLower).

End GlobalSearch.

(* ===================================================================== *)
(** ** The title of a note in the editor (src/unnamed/part_004) *)
(* ===================================================================== *)

Module NoteEditor.

Definition is_line_feed (c : ascii) : bool := N.eqb (code c) 10.

(** [content.split('\n')] *)
Fixpoint split_lines (content : string) : list string :=
  match content with
  | EmptyString => [EmptyString]
  | String c rest =>
      if is_line_feed c then EmptyString :: split_lines rest
      else
        match split_lines rest with
        | line :: lines => String c line :: lines
        | [] => [String c EmptyString]
        end
  end.

(** [extractTitle]: the first line that starts with a number sign and a
    space, without them and trimmed; failing that, the first 50
    characters of the first line that is not blank. *)
Definition extractTitle (content : string) : string :=
  let lines := split_lines content in
  let titleLine := List.find (fun line => String.prefix "# " line) lines in
  if truthy_str titleLine
  then trim (drop_chars 2 (default EmptyString titleLine))
  else
    let firstLine :=
      List.find (fun line => truthy (VStr (trim line))) lines in
    if truthy_str firstLine
    then js_substring (default EmptyString firstLine) 0 50
    else "Untitled Note".

End NoteEditor.

(** * Vocabulary of the statements, and a sample world *)

(* ===================================================================== *)
(** ** Running operations *)
(* ===================================================================== *)

(** What a run returned, and the state it left. *)
Definition outcome {A} (m : M A) (s : State) : result A := fst (m s).

Definition state_after {A} (m : M A) (s : State) : State := snd (m s).

(** The value of a run that succeeded ([d] stands in for a failed one). *)
Definition returned {A} (d : A) (r : result A * State) : A :=
  match fst r with
  | Ok a => a
  | Err _ => d
  end.

(** The run did not fail. *)
Definition succeeded {A} (r : result A * State) : bool :=
  match fst r with
  | Ok _ => true
  | Err _ => false
  end.

(** The records of a store of the database, when it has that store. *)
Definition stored (s : State) (storeName : string) : option (gmap string obj) :=
  records <$> idb_stores s !! storeName.

Definition record_at (s : State) (storeName id : string) : option obj :=
  match idb_stores s !! storeName with
  | Some st => records st !! id
  | None => None
  end.

(** A property of a stored record. *)
Definition get_prop_at (s : State) (storeName id f : string) : option value :=
  (fun r => get_prop r f) <$> record_at s storeName id.

(** The ids under which a store holds records, in ascending order. *)
Definition keys_of (s : State) (storeName : string) : option (list string) :=
  (fun m => map fst (in_key_order m)) <$> stored s storeName.

(** [record.sync.version] *)
Definition version_of (r : obj) : value :=
  match get_prop r "sync" with
  | VObj so => get_prop so "version"
  | _ => VUndefined
  end.

(** The version of a stored record. *)
Definition stored_version (s : State) (storeName id : string) : option value :=
  version_of <$> record_at s storeName id.

(** The titles of the records a call returned. *)
Definition titles_of (r : result (list obj)) : result (list value) :=
  match r with
  | Ok rs => Ok (map (fun n => get_prop n "title") rs)
  | Err e => Err e
  end.

(** The ids of the records a call returned. *)
Definition ids_of (r : result (list obj)) : result (list value) :=
  match r with
  | Ok rs => Ok (map (fun b => get_prop b "id") rs)
  | Err e => Err e
  end.

(* ===================================================================== *)
(** ** What the operations build *)
(* ===================================================================== *)

(** The entity [create] builds from the data, the id and the time drawn. *)
Definition entity_of (data : obj) (id : string) (now : Z) : obj :=
  <["sync" := VObj IndexedDBStorage.initial_sync]>
    (<["updatedAt" := VDate now]>
       (<["createdAt" := VDate now]>
          (<["id" := VStr id]> data))).

(** The record [update] builds from the current one, the patch, the time
    drawn and the next sync metadata. *)
Definition merged (current updates : obj) (now : Z) (sync : value) : obj :=
  <["sync" := sync]> (<["updatedAt" := VDate now]> (spread current updates)).

(** The tag [createTag] builds from its input when it creates one. *)
Definition tag_of (tagData : obj) : obj :=
  <["isSystemTag" := js_or (get_prop tagData "isSystemTag") (VBool false)]>
    (<["parentId" := js_or (get_prop tagData "parentId") VUndefined]>
       (<["description" := js_or (get_prop tagData "description") (VStr EmptyString)]>
          (<["color" := js_or (get_prop tagData "color") (VStr "#3b82f6")]>
             tagData))).

(** The state once a date, or a date and an id, have been drawn. *)
Definition date_drawn (s : State) : State :=
  mkState (idb_version s) (idb_stores s) (connected s)
          (uuids s) (advance (dates s)) (randoms s).

Definition date_and_id_drawn (s : State) : State :=
  mkState (idb_version s) (idb_stores s) (connected s)
          (advance (uuids s)) (advance (dates s)) (randoms s).

(** The state once a random number has been drawn. *)
Definition random_drawn (s : State) : State :=
  mkState (idb_version s) (idb_stores s) (connected s)
          (uuids s) (dates s) (advance (randoms s)).

(* ===================================================================== *)
(** ** States the application can be in *)
(* ===================================================================== *)

(** The database has the store of a configuration, with its key path and
    its indexes. *)
Definition has_store (s : State) (sc : ObjectStoreConfig) : Prop :=
  exists st, idb_stores s !! sc_name sc = Some st
             /\ keyPath st = sc_keyPath sc
             /\ indices st = sc_indices sc.

(** The database is the one [BrainStorage] declares. *)
Definition configured (s : State) : Prop :=
  Forall (has_store s) (cfg_stores BrainStorage.config).

(** Keys are in line: a record is stored under the string its key path
    holds. *)
Definition keyed (st : ObjectStore) : Prop :=
  forall k r, records st !! k = Some r -> get_prop r (keyPath st) = VStr k.

Definition all_keyed (s : State) : Prop :=
  forall name st, idb_stores s !! name = Some st -> keyed st.

(** A state in which the facade can be used: the connection is open, the
    stores are the declared ones, the keys are in line. *)
Record ready (s : State) : Prop := mkReady {
  ready_connected : connected s = true;
  ready_configured : configured s;
  ready_keyed : all_keyed s
}.

(** The store of tags of a connected database, as [BrainStorage] declares
    it, with its keys in line. *)
Record tags_ready (s : State) (st : ObjectStore) : Prop := mkTagsReady {
  tr_connected : connected s = true;
  tr_store : idb_stores s !! "tags" = Some st;
  tr_keyPath : keyPath st = "id";
  tr_indices : indices st = BrainStorage.tags_indices;
  tr_keyed : keyed st
}.

(** The same as a check that evaluates. *)
#[local] Instance IndexConfig_eq_dec : EqDecision IndexConfig.
Proof. solve_decision. Defined.

Definition keyed_b (st : ObjectStore) : bool :=
  forallb (fun kr : string * obj =>
             match get_prop (snd kr) (keyPath st) with
             | VStr k => String.eqb k (fst kr)
             | _ => false
             end)
          (map_to_list (records st)).

Definition has_store_b (s : State) (sc : ObjectStoreConfig) : bool :=
  match idb_stores s !! sc_name sc with
  | Some st =>
      String.eqb (keyPath st) (sc_keyPath sc)
      && bool_decide (indices st = sc_indices sc)
  | None => false
  end.

Definition ready_b (s : State) : bool :=
  connected s
  && forallb (has_store_b s) (cfg_stores BrainStorage.config)
  && forallb (fun nst : string * ObjectStore => keyed_b (snd nst))
             (map_to_list (idb_stores s)).

(** The next [k] ids [crypto.randomUUID()] yields. *)
Definition next_ids (s : State) (k : nat) : list string :=
  map (src (uuids s)) (seq (drawn (uuids s)) k).

(** The next [k] ids are distinct and none is a key of the store. *)
Definition fresh (s : State) (st : ObjectStore) (k : nat) : Prop :=
  NoDup (next_ids s k) /\ Forall (fun id => records st !! id = None) (next_ids s k).

(** No two tags of the state have the same name. *)
Definition distinct_names (s : State) : Prop :=
  forall k1 k2 r1 r2 n,
    record_at s "tags" k1 = Some r1 ->
    record_at s "tags" k2 = Some r2 ->
    get_prop r1 "name" = VStr n ->
    get_prop r2 "name" = VStr n ->
    k1 = k2.

(** The store holds a tag of that name. *)
Definition named_in (st : ObjectStore) (name : string) : Prop :=
  exists t r, records st !! t = Some r /\ get_prop r "name" = VStr name.

(** What one round of the loop of [syncTagsForNote] achieves. *)
Record resolved (s : State) (st : ObjectStore) (name : string) (k : nat)
    (id : string) (s' : State) (st' : ObjectStore) : Prop := mkResolved {
  rs_ready : tags_ready s' st';
  rs_grows : records st ⊆ records st';
  rs_named : exists tag, records st' !! id = Some tag
                         /\ get_prop tag "name" = VStr name;
  rs_found : is_Some (records st !! id) <-> named_in st name;
  rs_new : forall t r, records st' !! t = Some r -> records st !! t = None ->
                       get_prop r "name" = VStr name;
  rs_others : forall n, n <> "tags" -> idb_stores s' !! n = idb_stores s !! n;
  rs_fresh : fresh s' st' k
}.

(* ===================================================================== *)
(** ** Vocabulary of the statements *)
(* ===================================================================== *)

(** The four fields [createNote] fills in, each with its default. *)
Definition note_defaults : list (string * value) :=
  [ ("tags", VArr []); ("backlinks", VArr []);
    ("isArchived", VBool false); ("isPinned", VBool false) ].

(** The patch leaves the id alone: it has no [id], or the id of the record
    it is applied to. *)
Definition keeps_id (id : string) (patch : obj) : Prop :=
  patch !! "id" = None \/ patch !! "id" = Some (VStr id).

(** A call of the store on a collection: [create] or [update]. *)
Inductive call : Type :=
| Create (data : obj)
| Update (id : string) (patch : obj).

Definition run_call (storeName : string) (c : call) : M unit :=
  match c with
  | Create data => IndexedDBStorage.create storeName data ;; ret tt
  | Update id patch => IndexedDBStorage.update storeName id patch ;; ret tt
  end.

(** Calls on one collection, each awaited before the next. *)
Definition run_calls (storeName : string) (calls : list call) : M unit :=
  for_each calls (run_call storeName).

(** The patch of an update leaves the id alone. *)
Definition id_kept (c : call) : Prop :=
  match c with
  | Create _ => True
  | Update id patch => keeps_id id patch
  end.

(** The number of updates of a record among the calls. *)
Fixpoint updates_of (id : string) (calls : list call) : nat :=
  match calls with
  | [] => 0
  | Create _ :: rest => updates_of id rest
  | Update id' _ :: rest =>
      if String.eqb id' id then S (updates_of id rest) else updates_of id rest
  end.

(** The hashtags as the specification words them: at every position of
    the content where a [#] is followed by one or more characters of the
    class, the run of those characters; in the order of the positions. *)
Fixpoint hashtags (s : string) : list string :=
  match s with
  | EmptyString => []
  | String c s' =>
      if Ascii.eqb c "#" then
        match Tags.tag_run s' with
        | EmptyString => hashtags s'
        | g => g :: hashtags s'
        end
      else hashtags s'
  end.

(** Order of first appearance, duplicates collapsed. *)
Fixpoint first_occurrences (l : list string) : list string :=
  match l with
  | [] => []
  | x :: l' => x :: filter (fun y => y <> x) (first_occurrences l')
  end.

(** The names the specification asks for. *)
Definition tag_names (content : string) : list string :=
  first_occurrences (map toLowerCase (hashtags content)).

(* ===================================================================== *)
(** ** A sample world *)
(* ===================================================================== *)

Module Sample.

(** A browser that never held the database, with oracles that yield the
    ids u0, u1, ..., the times 0, 1, ... and the random numbers 0, 1, ... *)
Definition uuid (n : nat) : string :=
  String "u" (String (ascii_of_nat (48 + n)) EmptyString).

Definition browser : State :=
  mkState 0 ∅ false (mkOracle uuid 0) (mkOracle Z.of_nat 0) (mkOracle (fun n => n) 0).

Definition opened : State := state_after BrainStorage.initialize browser.

Definition note (title content : string) : obj :=
  <["content" := VStr content]> (<["title" := VStr title]> ∅).

End Sample.

(** Five notes, created one after the other in the sample world, and the
    page of two records after the first two. *)
Definition five_notes : State :=
  state_after
    (for_each ["n0"; "n1"; "n2"; "n3"; "n4"]
       (fun t => BrainStorage.createNote (Sample.note t t) ;; ret tt))
    Sample.opened.

Definition second_page : IndexedDBStorage.QueryOptions :=
  IndexedDBStorage.mkQuery None None None (Some 2) (Some 2).

(** One note, created in the sample world under the id u0. *)
Definition one_note : State :=
  state_after (BrainStorage.createNote (Sample.note "T" "text")) Sample.opened.

(** A patch that carries sync metadata of its own, and a nested field. *)
Definition patch_sync : obj :=
  <["lastModifiedBy" := VStr "me"]> (<["version" := VNum 100]> ∅).

Definition sync_patch : obj :=
  <["layout" := VObj (<["columns" := VNum 2]> ∅)]>
    (<["sync" := VObj patch_sync]> ∅).

(** The update of that note by that patch. *)
Definition sync_patch_run : result obj * State :=
  IndexedDBStorage.update "notes" "u0" sync_patch one_note.

(** Two notes u0 and u1; u0 was updated twice. *)
Definition two_notes : State :=
  state_after
    (BrainStorage.createNote (Sample.note "A" "a") ;;
     BrainStorage.createNote (Sample.note "B" "b") ;;
     BrainStorage.updateNote "u0" (<["isPinned" := VBool true]> ∅) ;;
     BrainStorage.updateNote "u0" (<["isPinned" := VBool false]> ∅))
    Sample.opened.

(** A patch that names another record. *)
Definition id_patch : obj := <["id" := VStr "u0"]> ∅.

(** The update of u1 by that patch. *)
Definition id_patch_run : result obj * State :=
  IndexedDBStorage.update "notes" "u1" id_patch two_notes.

(** A record created by the store in the sample world. *)
Definition sample_create : result obj * State :=
  IndexedDBStorage.create "notes" (Sample.note "A" "a") Sample.opened.

(** Calls on the notes of [two_notes]: u0 is renamed, a note is created
    (u2), u1 gets a patch that carries sync metadata, u0 a patch that
    carries its own id, and the new note is pinned. *)
Definition sample_calls : list call :=
  [ Update "u0" (<["title" := VStr "B"]> ∅);
    Create (Sample.note "C" "c");
    Update "u1" (<["sync" := VObj (<["version" := VNum 41]> ∅)]> ∅);
    Update "u0" (<["id" := VStr "u0"]> (<["content" := VStr "c"]> ∅));
    Update "u2" (<["isPinned" := VBool true]> ∅) ].

Definition sample_calls_run : result unit * State :=
  run_calls "notes" sample_calls two_notes.

(** A third note created in [two_notes], and calls after it. *)
Definition third_note_run : result obj * State :=
  IndexedDBStorage.create "notes" (Sample.note "C" "c") two_notes.

Definition later_calls : list call :=
  [ Update "u2" (<["isPinned" := VBool true]> ∅);
    Update "u0" (<["title" := VStr "B"]> ∅);
    Update "u2" (<["isPinned" := VBool false]> ∅) ].

Definition later_calls_run : result unit * State :=
  run_calls "notes" later_calls (snd third_note_run).

(** The pinning of u0 in [two_notes]. *)
Definition pin_u0_run : result obj * State :=
  IndexedDBStorage.update "notes" "u0" (<["isPinned" := VBool true]> ∅) two_notes.

(** Note A (u0) links to itself: one backlink (u1) from u0 to u0. *)
Definition self_linked : State :=
  state_after
    (BrainStorage.createNote (Sample.note "A" "see [[A]]") ;;
     Backlinks.syncBacklinksForNote "u0" "see [[A]]")
    Sample.opened.

(** Note A (u0) links to note B (u1): one backlink (u2) from u0 to u1. *)
Definition linked : State :=
  state_after
    (BrainStorage.createNote (Sample.note "A" "see [[B]]") ;;
     BrainStorage.createNote (Sample.note "B" "nothing") ;;
     Backlinks.syncBacklinksForNote "u0" "see [[B]]")
    Sample.opened.

(** A note titled "a.b" (u0) and a note (u1) that mentions a note "axb"
    and the note "a.b". *)
Definition dotted : State :=
  state_after
    (BrainStorage.createNote (Sample.note "a.b" "first") ;;
     BrainStorage.createNote (Sample.note "other" "see [[axb]] and [[a.b]]"))
    Sample.opened.

(** "foo", then "Foo". *)
Definition foo : obj := <["name" := VStr "foo"]> ∅.
Definition Foo : obj := <["name" := VStr "Foo"]> ∅.

Definition foo_then_Foo : State :=
  state_after (BrainStorage.createTag foo ;; BrainStorage.createTag Foo)
    Sample.opened.

(** The first [createTag] of "foo". *)
Definition foo_run : result obj * State :=
  BrainStorage.createTag foo Sample.opened.

(** The sync of the note u0 of [one_note] on the content of the example. *)
Definition ideas : string := "Ideas about #work and #Work".

Definition ideas_run : result (list value) * State :=
  Tags.syncTagsForNote "u0" ideas one_note.

(* ===================================================================== *)
(** ** Vocabulary of the further properties *)
(* ===================================================================== *)

(** The run fails because the connection is closed, and changes nothing. *)
Definition refused {A} (m : M A) (s : State) : Prop :=
  m s = (Err (StorageError DATABASE_OPEN_FAILED), s).

(** The fields [create] sets itself. *)
Definition system_fields : list string := ["id"; "createdAt"; "updatedAt"; "sync"].

(** The stores [clearAllData] names. *)
Definition cleared_stores : list string := ["notes"; "tags"; "backlinks"].

(** The state [one_note] in a browser whose source of ids starts over, so
    that the next id drawn is the one of the stored note. *)
Definition one_note_again : State :=
  mkState (idb_version one_note) (idb_stores one_note) true
          (mkOracle Sample.uuid 0) (dates one_note) (randoms one_note).

(** The store of notes of [one_note]. *)
Definition one_note_store : ObjectStore :=
  mkStore "id" BrainStorage.notes_indices
    (<["u0" := returned ∅ (BrainStorage.createNote (Sample.note "T" "text")
                             Sample.opened)]> ∅).

(** A patch that pins a note. *)
Definition pin : obj := <["isPinned" := VBool true]> ∅.

Definition pin_run : result obj * State :=
  IndexedDBStorage.update "notes" "u0" pin one_note.

(** A store configuration the engine accepts and the embedding covers:
    key paths of one identifier, no index name twice. *)
Record declarable (sc : ObjectStoreConfig) : Prop := mkDeclarable {
  dc_keyPath : one_identifier (sc_keyPath sc) = true;
  dc_names : NoDup (ix_name <$> sc_indices sc);
  dc_paths : Forall (fun ix => one_identifier (ix_keyPath ix) = true) (sc_indices sc)
}.

(** The state [one_note] once the application has closed its connection. *)
Definition one_note_closed : State := state_after IndexedDBStorage.close one_note.

(** A configuration at version 2 that declares the store of notes anew,
    without indexes, and a store of drafts with an index. *)
Definition next_config : DatabaseConfig :=
  mkConfig "BrainDB" 2
    [ mkStoreConfig "notes" "id" [];
      mkStoreConfig "drafts" "id" [ mkIndex "noteId" "noteId" false ] ].

(** The first two records, and the records after the first two. *)
Definition first_two : IndexedDBStorage.QueryOptions :=
  IndexedDBStorage.mkQuery None None None (Some 2) None.

(** The flags [getAllNotes] is asked for are those of the note. *)
Definition has_flags (a p : option bool) (note : obj) : bool :=
  match a with
  | Some b => strict_eq (get_prop note "isArchived") (VBool b)
  | None => true
  end
  && match p with
     | Some b => strict_eq (get_prop note "isPinned") (VBool b)
     | None => true
     end.

(** A note as the application stores it: a list of tag ids, a title and a
    content that are strings. *)
Record well_typed_note (note : obj) : Prop := mkTypedNote {
  wt_tags : exists xs, get_prop note "tags" = VArr xs;
  wt_title : exists t, get_prop note "title" = VStr t;
  wt_content : exists c, get_prop note "content" = VStr c
}.

(** The note carries one of the tags asked for (any note, when none is). *)
Definition tagged (ts : option (list string)) (note : obj) : Prop :=
  match ts with
  | Some (t :: ts') =>
      exists tag xs, tag ∈ t :: ts' /\ get_prop note "tags" = VArr xs /\ VStr tag ∈ xs
  | _ => True
  end.

(** The title or the content of the note contains the term, case being
    ignored (any note, when the term is missing or empty). *)
Definition mentions (term : option string) (note : obj) : Prop :=
  match term with
  | Some t =>
      t = EmptyString
      \/ exists f text, (f = "title" \/ f = "content")
                        /\ get_prop note f = VStr text
                        /\ includes (toLowerCase text) (toLowerCase t) = true
  | None => True
  end.

(** The same as checks that evaluate. *)
Definition tagged_b (ts : option (list string)) (note : obj) : bool :=
  match ts with
  | Some (t :: ts') =>
      match get_prop note "tags" with
      | VArr xs => existsb (fun tag => existsb (strict_eq (VStr tag)) xs) (t :: ts')
      | _ => false
      end
  | _ => true
  end.

Definition mentions_b (term : option string) (note : obj) : bool :=
  match term with
  | Some t =>
      String.eqb t EmptyString
      || match get_prop note "title", get_prop note "content" with
         | VStr title, VStr content =>
             includes (toLowerCase title) (toLowerCase t)
             || includes (toLowerCase content) (toLowerCase t)
         | _, _ => false
         end
  | None => true
  end.

(** The tag "foo" (u0) and a note (u1) that lists it. *)
Definition foo_note : obj := <["tags" := VArr [VStr "u0"]]> (Sample.note "T" "text").

Definition with_foo_note : State :=
  state_after (BrainStorage.createNote foo_note) (snd foo_run).

Definition foo_note_store : ObjectStore :=
  mkStore "id" BrainStorage.notes_indices
    (<["u1" := returned ∅ (BrainStorage.createNote foo_note (snd foo_run))]> ∅).

(** The store of tags of [foo_then_Foo]. *)
Definition foo_Foo_store : ObjectStore :=
  mkStore "id" BrainStorage.tags_indices
    (<["u1" := returned ∅ (BrainStorage.createTag Foo (snd foo_run))]>
       (<["u0" := returned ∅ foo_run]> ∅)).

(** In [foo_then_Foo]: a third tag, "bar", created by the store, and the
    tag "Foo" (u1) renamed to "baz". *)
Definition bar_run : result obj * State :=
  IndexedDBStorage.create "tags" (<["name" := VStr "bar"]> ∅) foo_then_Foo.

Definition baz_run : result obj * State :=
  IndexedDBStorage.update "tags" "u1" (<["name" := VStr "baz"]> ∅) foo_then_Foo.

(** Every character of the string passes the test. *)
Fixpoint every_char (p : ascii -> bool) (s : string) : bool :=
  match s with
  | EmptyString => true
  | String c s' => p c && every_char p s'
  end.

(** The characters of a normalised tag name: [[a-z0-9_-]]. *)
Definition is_name_char (c : ascii) : bool :=
  let n := code c in
  between 97 122 n || between 48 57 n || N.eqb n 95 || N.eqb n 45.

(** The title of the note is the given one, or contains it, case being
    ignored. *)
Definition title_is (title : string) (note : obj) : bool :=
  match get_prop note "title" with
  | VStr t => String.eqb (toLowerCase t) (toLowerCase title)
  | _ => false
  end.

Definition title_has (title : string) (note : obj) : bool :=
  match get_prop note "title" with
  | VStr t => includes (toLowerCase t) (toLowerCase title)
  | _ => false
  end.

(** The note [findNoteByTitle] picks among the given ones. *)
Definition note_titled (notes : list obj) (title : string) : option obj :=
  match List.find (title_is title) notes with
  | Some n => Some n
  | None => List.find (title_has title) notes
  end.

(** The titles of the stored notes are strings. *)
Definition titled (st : ObjectStore) : Prop :=
  forall note, note ∈ store_values st -> exists t, get_prop note "title" = VStr t.

(** Notes "Plan" (u0) and "Plan B" (u1). *)
Definition plans : State :=
  state_after
    (BrainStorage.createNote (Sample.note "Plan B" "second") ;;
     BrainStorage.createNote (Sample.note "Plan" "first"))
    Sample.opened.

Definition plans_store : ObjectStore :=
  mkStore "id" BrainStorage.notes_indices
    (<["u1" := returned ∅
                 (BrainStorage.createNote (Sample.note "Plan" "first")
                    (state_after (BrainStorage.createNote (Sample.note "Plan B" "second"))
                       Sample.opened))]>
       (<["u0" := returned ∅ (BrainStorage.createNote (Sample.note "Plan B" "second")
                                Sample.opened)]> ∅)).

(** The backlink has the note at one of its ends. *)
Definition mentions_note (noteId : string) (backlink : obj) : Prop :=
  get_prop backlink "sourceNoteId" = VStr noteId
  \/ get_prop backlink "targetNoteId" = VStr noteId.

(** The store of backlinks as [BrainStorage] declares it, with its keys
    in line. *)
Record backlinks_ready (s : State) (st : ObjectStore) : Prop := mkBacklinksReady {
  br_connected : connected s = true;
  br_store : idb_stores s !! "backlinks" = Some st;
  br_keyPath : keyPath st = "id";
  br_indices : indices st = BrainStorage.backlinks_indices;
  br_keyed : keyed st
}.

(** The id of a record. *)
Definition id_of (r : obj) : string :=
  match get_prop r "id" with
  | VStr k => k
  | _ => EmptyString
  end.

(** The store of backlinks of [linked]. *)
Definition linked_store : ObjectStore :=
  mkStore "id" BrainStorage.backlinks_indices
    (<["u2" := default ∅ (record_at linked "backlinks" "u2")]> ∅).

(** The backlink is the entity [createBacklink] makes, under that id, of
    the data [syncBacklinksForNote] builds for the link and its target. *)
Definition made_from (noteId : string) (target : obj) (link : Backlinks.WikiLink)
    (id : string) (r : obj) : Prop :=
  exists now, r = entity_of (Backlinks.backlink_data noteId target link) id now.

(** The store of notes of [linked]. *)
Definition linked_notes : ObjectStore :=
  mkStore "id" BrainStorage.notes_indices
    (<["u1" := default ∅ (record_at linked "notes" "u1")]>
       (<["u0" := default ∅ (record_at linked "notes" "u0")]> ∅)).

(** The note a backlink has at one of its ends, [sourceNoteId] or
    [targetNoteId], when that note is stored, paired with the backlink. *)
Definition end_of (f : string) (backlink : obj) : string :=
  match get_prop backlink f with
  | VStr t => t
  | _ => EmptyString
  end.

Definition with_end (notes : ObjectStore) (f : string) (backlink : obj)
  : option (obj * obj) :=
  (fun note => (note, backlink)) <$> records notes !! end_of f backlink.

(** The ends of the stored backlinks are strings. *)
Definition ends_are_ids (st : ObjectStore) (f : string) : Prop :=
  forall k b, records st !! k = Some b -> exists t, get_prop b f = VStr t.

(** * Lemmas on the embedding *)

(* ===================================================================== *)
(** ** Runs *)
(* ===================================================================== *)

Lemma run_succeeded_unit (r : result unit * State) :
  succeeded r = true -> r = (Ok tt, snd r).
Proof.
  unfold succeeded. destruct r as [[[]|e] s]; simpl; [done|discriminate].
Qed.

(** A run that succeeded is the pair of what it returned and of the state
    it left. *)
Lemma run_succeeded {A} (d : A) (r : result A * State) :
  succeeded r = true -> r = (Ok (returned d r), snd r).
Proof.
  unfold succeeded, returned. destruct r as [[a|e] s]; simpl; [done|discriminate].
Qed.

(* ===================================================================== *)
(** ** One step of each store operation *)
(* ===================================================================== *)

Section Steps.

Variables (s : State) (storeName : string) (st : ObjectStore).
Hypothesis Hconn : connected s = true.
Hypothesis Hstore : idb_stores s !! storeName = Some st.

Lemma get_step (id : string) :
  IndexedDBStorage.get storeName id s = (Ok (records st !! id), s).
Proof.
  unfold IndexedDBStorage.get, IndexedDBStorage.require_db,
    IndexedDBStorage.objectStore, bind, ret.
  rewrite Hconn. cbn. rewrite Hstore. reflexivity.
Qed.

Lemma getAll_step (options : IndexedDBStorage.QueryOptions) :
  IndexedDBStorage.getAll storeName options s
  = match IndexedDBStorage.index options, IndexedDBStorage.range options with
    | Some i, Some r =>
        if String.eqb i EmptyString
        then (Ok (IndexedDBStorage.cursor_loop options
                    (store_cursor st (IndexedDBStorage.direction options)) 0 []), s)
        else
          match key_path_of_index st i with
          | Some path =>
              (Ok (IndexedDBStorage.cursor_loop options
                     (index_cursor st path r (IndexedDBStorage.direction options)) 0 []), s)
          | None => (Err (DOMException NotFoundError), s)
          end
    | _, _ =>
        (Ok (IndexedDBStorage.cursor_loop options
               (store_cursor st (IndexedDBStorage.direction options)) 0 []), s)
    end.
Proof.
  unfold IndexedDBStorage.getAll, IndexedDBStorage.require_db,
    IndexedDBStorage.objectStore, bind, ret, throw.
  rewrite Hconn. cbn. rewrite Hstore. cbn.
  destruct (IndexedDBStorage.index options) as [i|];
    destruct (IndexedDBStorage.range options) as [r|]; try reflexivity.
  destruct (String.eqb i EmptyString); try reflexivity.
  destruct (key_path_of_index st i); reflexivity.
Qed.

Lemma create_step (data : obj) :
  IndexedDBStorage.create storeName data s
  = let entity := entity_of data (upcoming (uuids s)) (upcoming (dates s)) in
    match store_add st entity with
    | Ok st' =>
        (Ok entity,
         set_stores (date_and_id_drawn s) (<[storeName := st']> (idb_stores s)))
    | Err (DOMException ConstraintError) =>
        (Err (StorageError TRANSACTION_FAILED), date_and_id_drawn s)
    | Err e => (Err e, date_and_id_drawn s)
    end.
Proof.
  unfold IndexedDBStorage.create, IndexedDBStorage.require_db,
    IndexedDBStorage.objectStore, IndexedDBStorage.on_request,
    IndexedDBStorage.commit, new_Date, randomUUID, bind, ret, throw.
  rewrite Hconn. cbn. rewrite Hstore. cbn.
  fold (entity_of data (upcoming (uuids s)) (upcoming (dates s))).
  destruct (store_add st _) as [st'|e]; cbn; [reflexivity|].
  destruct e as [c|n| |]; try reflexivity. destruct n; reflexivity.
Qed.

Lemma update_step (id : string) (updates current : obj) :
  records st !! id = Some current ->
  IndexedDBStorage.update storeName id updates s
  = match IndexedDBStorage.next_sync (get_prop current "sync") with
    | Err e => (Err e, date_drawn s)
    | Ok sync =>
        let updated := merged current updates (upcoming (dates s)) sync in
        match store_put st updated with
        | Ok st' =>
            (Ok updated,
             set_stores (date_drawn s) (<[storeName := st']> (idb_stores s)))
        | Err (DOMException ConstraintError) =>
            (Err (StorageError TRANSACTION_FAILED), date_drawn s)
        | Err e => (Err e, date_drawn s)
        end
    end.
Proof.
  intros Hcur.
  unfold IndexedDBStorage.update, bind.
  unfold IndexedDBStorage.require_db at 1. rewrite Hconn.
  rewrite get_step, Hcur.
  unfold IndexedDBStorage.objectStore, IndexedDBStorage.on_request,
    IndexedDBStorage.commit, new_Date, lift, bind, ret, throw. cbn.
  destruct (IndexedDBStorage.next_sync _) as [sync|e]; [|reflexivity].
  rewrite Hstore. cbn.
  fold (merged current updates (upcoming (dates s)) sync).
  destruct (store_put st _) as [st'|e]; cbn; [reflexivity|].
  destruct e as [c|n| |]; try reflexivity. destruct n; reflexivity.
Qed.

Lemma update_missing_step (id : string) (updates : obj) :
  records st !! id = None ->
  IndexedDBStorage.update storeName id updates s
  = (Err (StorageError KEY_NOT_FOUND), s).
Proof.
  intros Hid. unfold IndexedDBStorage.update, bind.
  unfold IndexedDBStorage.require_db at 1. rewrite Hconn.
  rewrite get_step, Hid. reflexivity.
Qed.

Lemma delete_step (id : string) :
  IndexedDBStorage.delete storeName id s
  = (Ok tt, set_stores s (<[storeName := store_delete st id]> (idb_stores s))).
Proof.
  unfold IndexedDBStorage.delete, IndexedDBStorage.require_db,
    IndexedDBStorage.objectStore, IndexedDBStorage.commit, bind, ret.
  rewrite Hconn. cbn. rewrite Hstore. reflexivity.
Qed.

End Steps.

(* ===================================================================== *)
(** ** Pagination in [getAll] *)
(* ===================================================================== *)

Section CursorLoop.

Import IndexedDBStorage.

(** The results pushed so far stay in front. *)
Lemma cursor_loop_acc options cursor count results :
  cursor_loop options cursor count results
  = (results ++ cursor_loop options cursor count [])%list.
Proof.
  revert count results.
  induction cursor as [|value rest IH]; intros count results; simpl.
  - by rewrite app_nil_r.
  - destruct (within_limit options count); [|by rewrite app_nil_r].
    destruct (past_offset options count).
    + rewrite IH. rewrite (IH _ ([] ++ [value])%list).
      by rewrite <- app_assoc.
    + apply IH.
Qed.

(** With a limit [l > 0] and an offset [o > 0] the counter runs over the
    skipped records as well: the loop stops at position [l], and what it
    returns are the positions [o] to [l - 1]. *)
Lemma cursor_loop_limit_offset d i r (l o : Z) cursor (count : Z) :
  0 < l -> 0 < o -> 0 <= count ->
  cursor_loop (mkQuery i r d (Some l) (Some o)) cursor count []
  = drop (Z.to_nat (o - count)) (take (Z.to_nat (l - count)) cursor).
Proof.
  intros Hl Ho. revert count.
  induction cursor as [|value rest IH]; intros count Hc.
  - simpl. by rewrite take_nil, drop_nil.
  - simpl. unfold within_limit, past_offset. simpl.
    replace (l =? 0) with false by lia. replace (o =? 0) with false by lia.
    simpl. destruct (Z.ltb_spec count l) as [Hlt|Hge].
    + replace (Z.to_nat (l - count)) with (S (Z.to_nat (l - (count + 1)))) by lia.
      simpl. destruct (Z.leb_spec o count) as [Hle|Hgt].
      * rewrite cursor_loop_acc, IH by lia. simpl.
        replace (Z.to_nat (o - count)) with 0%nat by lia.
        replace (Z.to_nat (o - (count + 1))) with 0%nat by lia.
        by rewrite !drop_0.
      * rewrite IH by lia.
        replace (Z.to_nat (o - count)) with (S (Z.to_nat (o - (count + 1)))) by lia.
        reflexivity.
    + replace (Z.to_nat (l - count)) with 0%nat by lia.
      simpl. by rewrite drop_nil.
Qed.

(** With a limit [l > 0] alone: the first [l] records. *)
Lemma cursor_loop_limit d i r (l : Z) cursor (count : Z) :
  0 < l -> 0 <= count ->
  cursor_loop (mkQuery i r d (Some l) None) cursor count []
  = take (Z.to_nat (l - count)) cursor.
Proof.
  intros Hl. revert count.
  induction cursor as [|value rest IH]; intros count Hc.
  - simpl. by rewrite take_nil.
  - simpl. unfold within_limit, past_offset. simpl.
    replace (l =? 0) with false by lia. simpl.
    destruct (Z.ltb_spec count l) as [Hlt|Hge].
    + replace (Z.to_nat (l - count)) with (S (Z.to_nat (l - (count + 1)))) by lia.
      simpl. rewrite cursor_loop_acc, IH by lia. reflexivity.
    + by replace (Z.to_nat (l - count)) with 0%nat by lia.
Qed.

(** With an offset alone: everything from position [o] on. *)
Lemma cursor_loop_offset d i r (o : Z) cursor (count : Z) :
  0 <= count ->
  cursor_loop (mkQuery i r d None (Some o)) cursor count []
  = drop (Z.to_nat (o - count)) cursor.
Proof.
  revert count.
  induction cursor as [|value rest IH]; intros count Hc.
  - simpl. by rewrite drop_nil.
  - simpl. unfold within_limit, past_offset. simpl.
    destruct (Z.eqb_spec o 0) as [->|Hne]; simpl.
    + rewrite cursor_loop_acc, IH by lia. simpl.
      replace (Z.to_nat (0 - count)) with 0%nat by lia.
      replace (Z.to_nat (0 - (count + 1))) with 0%nat by lia.
      by rewrite !drop_0.
    + destruct (Z.leb_spec o count) as [Hle|Hgt].
      * rewrite cursor_loop_acc, IH by lia. simpl.
        replace (Z.to_nat (o - count)) with 0%nat by lia.
        replace (Z.to_nat (o - (count + 1))) with 0%nat by lia.
        by rewrite !drop_0.
      * rewrite IH by lia.
        replace (Z.to_nat (o - count)) with (S (Z.to_nat (o - (count + 1)))) by lia.
        reflexivity.
Qed.

(** Without limit and offset: every record. *)
Lemma cursor_loop_all d i r cursor count :
  cursor_loop (mkQuery i r d None None) cursor count [] = cursor.
Proof.
  revert count. induction cursor as [|value rest IH]; intros count; simpl.
  - reflexivity.
  - unfold within_limit, past_offset. simpl.
    rewrite cursor_loop_acc, IH. reflexivity.
Qed.

End CursorLoop.

(* ===================================================================== *)
(** ** States the application can be in *)
(* ===================================================================== *)

Lemma configured_stores s :
  configured s ->
  (exists st, idb_stores s !! "notes" = Some st
              /\ keyPath st = "id" /\ indices st = BrainStorage.notes_indices)
  /\ (exists st, idb_stores s !! "tags" = Some st
                 /\ keyPath st = "id" /\ indices st = BrainStorage.tags_indices)
  /\ (exists st, idb_stores s !! "backlinks" = Some st
                 /\ keyPath st = "id" /\ indices st = BrainStorage.backlinks_indices).
Proof.
  unfold configured. cbn. intros H.
  apply Forall_cons in H as [Hn H].
  apply Forall_cons in H as [Ht H].
  apply Forall_cons in H as [Hb _].
  auto.
Qed.

(** The stores of the sample world once the database is open. *)
Lemma opened_stores :
  idb_stores Sample.opened
  = <["backlinks" := mkStore "id" BrainStorage.backlinks_indices ∅]>
      (<["tags" := mkStore "id" BrainStorage.tags_indices ∅]>
         (<["notes" := mkStore "id" BrainStorage.notes_indices ∅]> ∅)).
Proof. reflexivity. Qed.

Lemma ready_opened : ready Sample.opened.
Proof.
  split.
  - reflexivity.
  - unfold configured. cbn [cfg_stores BrainStorage.config].
    apply Forall_cons_2;
      [|apply Forall_cons_2; [|apply Forall_cons_2; [|apply Forall_nil_2]]].
    + exists (mkStore "id" BrainStorage.notes_indices ∅).
      split; [reflexivity | split; reflexivity].
    + exists (mkStore "id" BrainStorage.tags_indices ∅).
      split; [reflexivity | split; reflexivity].
    + exists (mkStore "id" BrainStorage.backlinks_indices ∅).
      split; [reflexivity | split; reflexivity].
  - intros name st Hst k r Hr.
    rewrite opened_stores in Hst.
    rewrite !lookup_insert in Hst.
    repeat case_decide;
      try (injection Hst as <-; cbn in Hr; rewrite lookup_empty in Hr;
           discriminate).
    rewrite lookup_empty in Hst. discriminate.
Qed.

(** *** Checking that a given state is ready *)

Lemma keyed_b_sound st : keyed_b st = true -> keyed st.
Proof.
  unfold keyed_b, keyed. rewrite forallb_forall. intros H k r Hr.
  specialize (H (k, r)). simpl in H.
  destruct (get_prop r (keyPath st)); try (discriminate H;
    apply list_elem_of_In; by apply elem_of_map_to_list).
  f_equal. apply String.eqb_eq. apply H.
  apply list_elem_of_In. by apply elem_of_map_to_list.
Qed.

Lemma ready_b_sound s : ready_b s = true -> ready s.
Proof.
  unfold ready_b. rewrite !andb_true_iff. intros [[Hc Hs] Hk].
  split; [exact Hc| |].
  - unfold configured. apply Forall_forall. intros sc Hsc.
    rewrite forallb_forall in Hs. specialize (Hs sc).
    unfold has_store_b, has_store in *.
    destruct (idb_stores s !! sc_name sc) as [st|].
    + exists st. rewrite andb_true_iff in Hs.
      destruct Hs as [Hkp Hix]; [by apply list_elem_of_In|].
      split; [done|]. split; [by apply String.eqb_eq|].
      by apply bool_decide_eq_true in Hix.
    + discriminate Hs. by apply list_elem_of_In.
  - intros name st Hst. apply keyed_b_sound.
    rewrite forallb_forall in Hk. apply (Hk (name, st)).
    apply list_elem_of_In. by apply elem_of_map_to_list.
Qed.

(* ===================================================================== *)
(** ** Defaults and unique indexes *)
(* ===================================================================== *)

Lemma js_or_defined a b : b <> VUndefined -> js_or a b <> VUndefined.
Proof.
  unfold js_or. intros Hb.
  destruct (truthy a) eqn:Ha; [|assumption].
  intros ->. discriminate.
Qed.

Lemma js_or_falsy a b : truthy a = false -> js_or a b = b.
Proof. unfold js_or. by intros ->. Qed.

Lemma unique_ok_no_unique_index st k r :
  Forall (fun ix => ix_unique ix = false) (indices st) -> unique_ok st k r = true.
Proof.
  unfold unique_ok. induction 1 as [|ix ixs Hix _ IH]; simpl; [done|].
  by rewrite Hix, IH.
Qed.

(* ===================================================================== *)
(** ** What a successful [update] did *)
(* ===================================================================== *)

Lemma next_sync_ok v sync :
  IndexedDBStorage.next_sync v = Ok sync ->
  exists so n, v = VObj so /\ get_prop so "version" = VNum n
               /\ sync = VObj (<["version" := VNum (n + 1)]> so).
Proof.
  unfold IndexedDBStorage.next_sync.
  destruct v as [| | | | | | |so]; try discriminate.
  destruct (get_prop so "version") as [| | |n| | | |] eqn:Hv; try discriminate.
  intros [= <-]. eauto.
Qed.

Lemma store_put_ok st r st' :
  store_put st r = Ok st' ->
  exists k, get_prop r (keyPath st) = VStr k
            /\ unique_ok st k r = true
            /\ st' = set_records st (<[k := r]> (records st)).
Proof.
  unfold store_put, primary_key.
  destruct (get_prop r (keyPath st)) as [| | | |k| | |] eqn:Hk;
    try discriminate; try (destruct (valid_key _); discriminate).
  destruct (unique_ok st k r) eqn:Hu; [|discriminate].
  intros [= <-]. eauto.
Qed.

Lemma store_add_ok st r st' :
  store_add st r = Ok st' ->
  exists k, get_prop r (keyPath st) = VStr k
            /\ records st !! k = None
            /\ unique_ok st k r = true
            /\ st' = set_records st (<[k := r]> (records st)).
Proof.
  unfold store_add, primary_key.
  destruct (get_prop r (keyPath st)) as [| | | |k| | |] eqn:Hk;
    try discriminate; try (destruct (valid_key _); discriminate).
  destruct (records st !! k) eqn:Hrk; [discriminate|].
  destruct (unique_ok st k r) eqn:Hu; [|discriminate].
  intros [= <-]. eauto.
Qed.

(** A successful [update] found the record, built [merged] from it, and
    put that record under the key its key path holds. *)
Lemma update_ok s storeName id updates updated s' :
  IndexedDBStorage.update storeName id updates s = (Ok updated, s') ->
  exists st current so v k,
    connected s = true
    /\ idb_stores s !! storeName = Some st
    /\ records st !! id = Some current
    /\ get_prop current "sync" = VObj so
    /\ get_prop so "version" = VNum v
    /\ updated = merged current updates (upcoming (dates s))
                   (VObj (<["version" := VNum (v + 1)]> so))
    /\ get_prop updated (keyPath st) = VStr k
    /\ unique_ok st k updated = true
    /\ s' = set_stores (date_drawn s)
              (<[storeName := set_records st (<[k := updated]> (records st))]>
                 (idb_stores s)).
Proof.
  intros Hrun.
  destruct (connected s) eqn:Hconn.
  2:{ unfold IndexedDBStorage.update, IndexedDBStorage.require_db, bind in Hrun.
      rewrite Hconn in Hrun. discriminate. }
  destruct (idb_stores s !! storeName) as [st|] eqn:Hst.
  2:{ unfold IndexedDBStorage.update, IndexedDBStorage.get,
        IndexedDBStorage.require_db, IndexedDBStorage.objectStore, bind in Hrun.
      rewrite Hconn in Hrun. cbn in Hrun. rewrite Hconn in Hrun. cbn in Hrun.
      rewrite Hst in Hrun. discriminate. }
  destruct (records st !! id) as [current|] eqn:Hcur.
  2:{ rewrite (update_missing_step s storeName st Hconn Hst id) in Hrun
        by assumption. discriminate. }
  rewrite (update_step s storeName st Hconn Hst id updates current Hcur) in Hrun.
  destruct (IndexedDBStorage.next_sync _) as [sync|e] eqn:Hsync; [|discriminate].
  apply next_sync_ok in Hsync as (so & v & Hso & Hv & ->).
  cbn zeta in Hrun.
  destruct (store_put st _) as [st'|e] eqn:Hput.
  2:{ destruct e as [c|n| |]; try discriminate. destruct n; discriminate. }
  apply store_put_ok in Hput as (k & Hk & Hu & ->).
  injection Hrun as <- <-.
  exists st, current, so, v, k. repeat split; assumption.
Qed.

Lemma merged_sync current updates now sync :
  get_prop (merged current updates now sync) "sync" = sync.
Proof. unfold merged, get_prop. by rewrite lookup_insert_eq. Qed.

(** Away from [sync] and [updatedAt] the merge is the spread: the field
    of the patch when the patch has one, that of the current record
    otherwise. *)
Lemma merged_field current updates now sync f :
  f <> "sync" -> f <> "updatedAt" ->
  merged current updates now sync !! f
  = match updates !! f with
    | Some x => Some x
    | None => current !! f
    end.
Proof.
  intros Hs Hu. unfold merged, spread.
  rewrite !lookup_insert_ne by congruence.
  rewrite lookup_union. destruct (updates !! f), (current !! f); reflexivity.
Qed.

(* ===================================================================== *)
(** ** What a successful [create] did; versions *)
(* ===================================================================== *)

(** A successful [create] added the entity it built under a key the store
    did not hold. *)
Lemma create_ok s storeName data entity s' :
  IndexedDBStorage.create storeName data s = (Ok entity, s') ->
  exists st k,
    connected s = true
    /\ idb_stores s !! storeName = Some st
    /\ entity = entity_of data (upcoming (uuids s)) (upcoming (dates s))
    /\ get_prop entity (keyPath st) = VStr k
    /\ records st !! k = None
    /\ unique_ok st k entity = true
    /\ s' = set_stores (date_and_id_drawn s)
              (<[storeName := set_records st (<[k := entity]> (records st))]>
                 (idb_stores s)).
Proof.
  intros Hrun.
  destruct (connected s) eqn:Hconn.
  2:{ unfold IndexedDBStorage.create, IndexedDBStorage.require_db, bind in Hrun.
      rewrite Hconn in Hrun. discriminate. }
  destruct (idb_stores s !! storeName) as [st|] eqn:Hst.
  2:{ unfold IndexedDBStorage.create, IndexedDBStorage.require_db,
        IndexedDBStorage.objectStore, new_Date, randomUUID, bind in Hrun.
      rewrite Hconn in Hrun. cbn in Hrun. rewrite Hst in Hrun. discriminate. }
  rewrite (create_step s storeName st Hconn Hst) in Hrun. cbn zeta in Hrun.
  destruct (store_add st _) as [st'|e] eqn:Hadd.
  2:{ destruct e as [c|n| |]; try discriminate. destruct n; discriminate. }
  apply store_add_ok in Hadd as (k & Hk & Hnone & Hu & ->).
  injection Hrun as <- <-.
  exists st, k. repeat split; assumption.
Qed.

Lemma version_of_entity data id now : version_of (entity_of data id now) = VNum 1.
Proof.
  unfold version_of, entity_of, get_prop. rewrite lookup_insert_eq. reflexivity.
Qed.

Lemma version_of_merged current updates now so v :
  version_of (merged current updates now (VObj (<["version" := VNum v]> so)))
  = VNum v.
Proof.
  unfold version_of. rewrite merged_sync.
  unfold get_prop. by rewrite lookup_insert_eq.
Qed.

Lemma version_of_inv r v :
  version_of r = VNum v ->
  exists so, get_prop r "sync" = VObj so /\ get_prop so "version" = VNum v.
Proof.
  unfold version_of. destruct (get_prop r "sync"); try discriminate. eauto.
Qed.

(** A run of [bind] that succeeded: both parts did. *)
Lemma bind_succeeded {A B} (m : M A) (k : A -> M B) s b s' :
  bind m k s = (Ok b, s') ->
  exists a s1, m s = (Ok a, s1) /\ k a s1 = (Ok b, s').
Proof.
  unfold bind. destruct (m s) as [[a|e] s1]; [|discriminate]. intros H. by exists a, s1.
Qed.

Lemma stored_version_insert s m storeName st k r id :
  stored_version (set_stores s (<[storeName := set_records st (<[k := r]> (records st))]> m))
    storeName id
  = if decide (k = id) then Some (version_of r) else version_of <$> records st !! id.
Proof.
  unfold stored_version, record_at. simpl. rewrite lookup_insert_eq. simpl.
  destruct (decide (k = id)) as [->|Hne].
  - by rewrite lookup_insert_eq.
  - by rewrite lookup_insert_ne.
Qed.

Lemma keyed_insert st k r :
  keyed st -> get_prop r (keyPath st) = VStr k ->
  keyed (set_records st (<[k := r]> (records st))).
Proof.
  intros Hkeyed Hk k' r' H. simpl in *.
  apply lookup_insert_Some in H as [[<- <-]|[_ H]]; [done|by apply Hkeyed].
Qed.

(** What a successful [create] did to the versions: the entity is stored
    with version 1 under the id drawn, which no record had. *)
Lemma create_version_step s storeName st data entity s1 :
  idb_stores s !! storeName = Some st ->
  keyPath st = "id" ->
  IndexedDBStorage.create storeName data s = (Ok entity, s1) ->
  version_of entity = VNum 1
  /\ get_prop entity "id" = VStr (upcoming (uuids s))
  /\ records st !! upcoming (uuids s) = None
  /\ s1 = set_stores (date_and_id_drawn s)
            (<[storeName := set_records st (<[upcoming (uuids s) := entity]> (records st))]>
               (idb_stores s)).
Proof.
  intros Hst Hkp Hrun.
  apply create_ok in Hrun as (st0 & k & _ & Hst0 & Hentity & Hk & Hnone & _ & Hs1).
  rewrite Hst in Hst0. injection Hst0 as <-.
  assert (get_prop entity "id" = VStr (upcoming (uuids s))) as Hid.
  { rewrite Hentity. unfold entity_of, get_prop. by simplify_map_eq. }
  rewrite Hkp, Hid in Hk. injection Hk as <-.
  split; [rewrite Hentity; apply version_of_entity|]. done.
Qed.

(** What a successful [update] by a patch that leaves the id alone did to
    the versions: the record had a version, and is stored again under its
    id with that version plus one. *)
Lemma update_version_step s storeName st id patch updated s1 :
  idb_stores s !! storeName = Some st ->
  keyPath st = "id" ->
  keyed st ->
  keeps_id id patch ->
  IndexedDBStorage.update storeName id patch s = (Ok updated, s1) ->
  exists current v,
    records st !! id = Some current
    /\ version_of current = VNum v
    /\ version_of updated = VNum (v + 1)
    /\ get_prop updated "id" = VStr id
    /\ s1 = set_stores (date_drawn s)
              (<[storeName := set_records st (<[id := updated]> (records st))]>
                 (idb_stores s)).
Proof.
  intros Hst Hkp Hkeyed Hkeep Hrun.
  apply update_ok in Hrun
    as (st0 & current & so & v & k & _ & Hst0 & Hcur & Hso & Hv & Hupd & Hk & _ & Hs1).
  rewrite Hst in Hst0. injection Hst0 as <-.
  assert (get_prop updated "id" = VStr id) as Hid.
  { rewrite Hupd. unfold get_prop at 1. rewrite merged_field by discriminate.
    destruct Hkeep as [-> | ->]; [|reflexivity].
    pose proof (Hkeyed _ _ Hcur) as H. by rewrite Hkp in H. }
  rewrite Hkp, Hid in Hk. injection Hk as <-.
  exists current, v. split; [done|]. split.
  { unfold version_of. by rewrite Hso. }
  split; [rewrite Hupd; apply version_of_merged|]. done.
Qed.

(** The versions over calls that leave the ids alone: each update of a
    record adds one to its version, and no other call changes it. *)
Lemma run_calls_versions storeName calls :
  Forall id_kept calls ->
  forall s st s2,
    idb_stores s !! storeName = Some st ->
    keyPath st = "id" ->
    keyed st ->
    run_calls storeName calls s = (Ok tt, s2) ->
    forall id v,
      stored_version s storeName id = Some (VNum v) ->
      stored_version s2 storeName id
      = Some (VNum (v + Z.of_nat (updates_of id calls))).
Proof.
  induction 1 as [|c rest Hkeep _ IH]; intros s st s2 Hst Hkp Hkeyed Hrun id v Hv.
  { injection Hrun as <-. rewrite Hv. simpl. do 2 f_equal. lia. }
  unfold run_calls in Hrun. simpl for_each in Hrun.
  apply bind_succeeded in Hrun as ([] & s1 & Hcall & Hrest).
  assert (Hold : stored_version s storeName id = version_of <$> records st !! id).
  { unfold stored_version, record_at. by rewrite Hst. }
  destruct c as [data|id' patch]; simpl in Hcall, Hkeep.
  - apply bind_succeeded in Hcall as (entity & s1' & Hcreate & Hret).
    injection Hret as ->.
    destruct (create_version_step s storeName st data entity s1 Hst Hkp Hcreate)
      as (_ & Hid & Hnone & Hs1).
    simpl updates_of.
    apply (IH s1 (set_records st (<[upcoming (uuids s) := entity]> (records st))) s2).
    + rewrite Hs1. simpl. by rewrite lookup_insert_eq.
    + done.
    + apply keyed_insert; [done|]. by rewrite Hkp.
    + exact Hrest.
    + rewrite Hs1, stored_version_insert.
      destruct (decide (upcoming (uuids s) = id)) as [<-|Hne].
      * rewrite Hold, Hnone in Hv. discriminate.
      * by rewrite <- Hold.
  - apply bind_succeeded in Hcall as (updated & s1' & Hupdate & Hret).
    injection Hret as ->.
    destruct (update_version_step s storeName st id' patch updated s1
                Hst Hkp Hkeyed Hkeep Hupdate)
      as (current & v0 & Hcur & Hv0 & Hv1 & Hid & Hs1).
    assert (Hnext : forall w,
              stored_version s1 storeName id = Some (VNum w) ->
              stored_version s2 storeName id
              = Some (VNum (w + Z.of_nat (updates_of id rest)))).
    { intros w Hw.
      apply (IH s1 (set_records st (<[id' := updated]> (records st))) s2); try done.
      - rewrite Hs1. simpl. by rewrite lookup_insert_eq.
      - apply keyed_insert; [done|]. by rewrite Hkp. }
    simpl updates_of.
    destruct (String.eqb id' id) eqn:E.
    + apply String.eqb_eq in E as ->.
      rewrite Hold, Hcur in Hv. simpl in Hv. rewrite Hv0 in Hv. injection Hv as <-.
      rewrite (Hnext (v0 + 1)).
      * do 2 f_equal. lia.
      * rewrite Hs1, stored_version_insert, decide_True by done. by rewrite Hv1.
    + apply String.eqb_neq in E.
      apply Hnext. rewrite Hs1, stored_version_insert, decide_False by done.
      by rewrite <- Hold.
Qed.

(* ===================================================================== *)
(** ** Cursors over a store and over an index *)
(* ===================================================================== *)

Lemma insert_by_key_perm kr l : insert_by_key kr l ≡ₚ kr :: l.
Proof.
  induction l as [|kr' l IH]; simpl; [done|].
  destruct (String.leb (fst kr) (fst kr')); [done|].
  rewrite IH. apply perm_swap.
Qed.

Lemma in_key_order_perm (m : gmap string obj) : in_key_order m ≡ₚ map_to_list m.
Proof.
  unfold in_key_order.
  induction (map_to_list m) as [|kr l IH]; simpl; [done|].
  by rewrite insert_by_key_perm, IH.
Qed.

Lemma elem_of_store_values st r :
  r ∈ store_values st <-> exists k, records st !! k = Some r.
Proof.
  unfold store_values. rewrite list_elem_of_fmap. split.
  - intros ([k r'] & -> & Hin). exists k.
    rewrite in_key_order_perm in Hin. by apply elem_of_map_to_list in Hin.
  - intros (k & Hk). exists (k, r). split; [done|].
    rewrite in_key_order_perm. by apply elem_of_map_to_list.
Qed.

(** In a keyed store no record is met twice. *)
Lemma NoDup_store_values st : keyed st -> NoDup (store_values st).
Proof.
  intros Hkeyed. unfold store_values.
  apply (NoDup_fmap_2_strong snd).
  - intros [k1 r1] [k2 r2] H1 H2 Heq. simpl in Heq. subst r2.
    rewrite in_key_order_perm in H1, H2.
    apply elem_of_map_to_list in H1, H2.
    apply Hkeyed in H1, H2. rewrite H1 in H2. by injection H2 as ->.
  - rewrite in_key_order_perm. apply NoDup_map_to_list.
Qed.

Lemma key_eqb_string v n : key_eqb v (VStr n) = true <-> v = VStr n.
Proof.
  destruct v; simpl; try (split; [discriminate|congruence]).
  split; [intros H; by apply String.eqb_eq in H as -> |].
  intros [= ->]. apply String.eqb_refl.
Qed.

Lemma elem_of_index_only st path n r :
  r ∈ index_only st path (VStr n)
  <-> (exists k, records st !! k = Some r) /\ get_prop r path = VStr n.
Proof.
  unfold index_only. rewrite list_elem_of_filter, elem_of_store_values.
  rewrite Is_true_true, key_eqb_string. tauto.
Qed.

Lemma NoDup_index_only st path k : keyed st -> NoDup (index_only st path k).
Proof. intros H. apply NoDup_filter. by apply NoDup_store_values. Qed.

(** An element of two lists without repetition that lies in one of them
    only has one position in their concatenation. *)
Lemma one_position_in_app {A} (l1 l2 : list A) (x : A) :
  NoDup l1 -> NoDup l2 -> x ∈ (l1 ++ l2)%list -> ~ (x ∈ l1 /\ x ∈ l2) ->
  exists i, (l1 ++ l2)%list !! i = Some x
            /\ forall j, (l1 ++ l2)%list !! j = Some x -> j = i.
Proof.
  intros Hnd1 Hnd2 Hin Hnot.
  apply list_elem_of_lookup in Hin as [i Hi]. exists i. split; [done|].
  intros j Hj.
  apply lookup_app_Some in Hi as [Hi|[Hlen Hi]];
    apply lookup_app_Some in Hj as [Hj|[Hlen' Hj]].
  - by apply (NoDup_lookup l1 j i x).
  - exfalso. apply Hnot. split; eapply list_elem_of_lookup_2; eauto.
  - exfalso. apply Hnot. split; eapply list_elem_of_lookup_2; eauto.
  - pose proof (NoDup_lookup l2 _ _ x Hnd2 Hj Hi). lia.
Qed.

(* ===================================================================== *)
(** ** Lookups of backlinks *)
(* ===================================================================== *)

Lemma backlinks_by_step s st ix noteId :
  connected s = true ->
  idb_stores s !! "backlinks" = Some st ->
  indices st = BrainStorage.backlinks_indices ->
  ix = "sourceNoteId" \/ ix = "targetNoteId" ->
  BrainStorage.backlinks_by ix noteId s
  = (Ok (index_only st ix (VStr noteId)), s).
Proof.
  intros Hconn Hst Hix Hwhich.
  unfold BrainStorage.backlinks_by, IDBKeyRange_only, bind, ret. cbn.
  rewrite (getAll_step s "backlinks" st Hconn Hst). cbn.
  assert (String.eqb ix EmptyString = false) as ->
    by (destruct Hwhich as [-> | ->]; reflexivity).
  assert (key_path_of_index st ix = Some ix) as ->.
  { unfold key_path_of_index. rewrite Hix.
    destruct Hwhich as [-> | ->]; reflexivity. }
  unfold index_cursor. cbn.
  by rewrite cursor_loop_all.
Qed.

Lemma getBacklinksForNote_step s st noteId :
  connected s = true ->
  idb_stores s !! "backlinks" = Some st ->
  indices st = BrainStorage.backlinks_indices ->
  BrainStorage.getBacklinksForNote noteId s
  = (Ok (index_only st "sourceNoteId" (VStr noteId)
         ++ index_only st "targetNoteId" (VStr noteId))%list, s).
Proof.
  intros Hconn Hst Hix.
  unfold BrainStorage.getBacklinksForNote, bind.
  rewrite (backlinks_by_step s st "sourceNoteId") by auto.
  rewrite (backlinks_by_step s st "targetNoteId") by auto.
  reflexivity.
Qed.

(* ===================================================================== *)
(** ** Tags by name *)
(* ===================================================================== *)

Lemma ready_tags s : ready s -> exists st, tags_ready s st.
Proof.
  intros [Hconn Hcfg Hkeyed].
  destruct (configured_stores s Hcfg) as (_ & (st & Hst & Hkp & Hix) & _).
  exists st. split; try assumption. by apply (Hkeyed "tags").
Qed.

Section TagsByName.

Variables (s : State) (st : ObjectStore).
Hypothesis Hready : tags_ready s st.

Lemma tags_named_step (v : value) :
  valid_key v = true ->
  BrainStorage.tags_named v s = (Ok (index_only st "name" v), s).
Proof.
  destruct Hready as [Hconn Hst _ Hix _]. intros Hv.
  unfold BrainStorage.tags_named, IDBKeyRange_only, bind. rewrite Hv. cbn.
  rewrite (getAll_step s "tags" st Hconn Hst). cbn.
  unfold key_path_of_index. rewrite Hix. cbn.
  by rewrite cursor_loop_all.
Qed.

Lemma getTagByName_step (name : string) :
  BrainStorage.getTagByName name s
  = (Ok (head (index_only st "name" (VStr name))), s).
Proof.
  unfold BrainStorage.getTagByName, bind.
  by rewrite tags_named_step.
Qed.

Lemma createTag_step (tagData : obj) :
  valid_key (get_prop tagData "name") = true ->
  BrainStorage.createTag tagData s
  = match index_only st "name" (get_prop tagData "name") with
    | existing :: _ => (Ok existing, s)
    | [] => IndexedDBStorage.create "tags" (tag_of tagData) s
    end.
Proof.
  intros Hv. unfold BrainStorage.createTag, bind.
  rewrite tags_named_step by assumption.
  destruct (index_only st "name" (get_prop tagData "name")); reflexivity.
Qed.

(** No record of the store holds the key: the unique index accepts it. *)
Lemma unique_ok_tags (k : string) (r : obj) :
  index_only st "name" (get_prop r "name") = [] ->
  unique_ok st k r = true.
Proof.
  destruct Hready as [_ _ _ Hix _]. intros Hnone.
  unfold unique_ok. rewrite Hix. cbn. rewrite !andb_true_r.
  apply orb_true_iff. right. apply forallb_forall. intros [k' r'] Hin.
  apply orb_true_iff. right. apply negb_true_iff.
  destruct (key_eqb (get_prop r' "name") (get_prop r "name")) eqn:Heq; [|done].
  exfalso.
  assert (r' ∈ index_only st "name" (get_prop r "name")) as Hr'.
  { unfold index_only. apply list_elem_of_filter. split.
    - by rewrite Heq.
    - apply elem_of_store_values. exists k'.
      apply list_elem_of_In in Hin. by apply elem_of_map_to_list in Hin. }
  rewrite Hnone in Hr'. by apply elem_of_nil in Hr'.
Qed.

End TagsByName.

(** What a cursor meets once a record entered the store under a new key. *)
Lemma store_values_insert st k r :
  records st !! k = None ->
  store_values (set_records st (<[k := r]> (records st))) ≡ₚ r :: store_values st.
Proof.
  intros Hnone. unfold store_values. cbn.
  rewrite !in_key_order_perm, map_to_list_insert by assumption. reflexivity.
Qed.

Lemma index_only_insert_first st path key k r :
  records st !! k = None ->
  index_only st path key = [] ->
  key_eqb (get_prop r path) key = true ->
  index_only (set_records st (<[k := r]> (records st))) path key = [r].
Proof.
  intros Hnone Hempty Hkey.
  apply Permutation_singleton_r.
  unfold index_only in *. rewrite store_values_insert by assumption.
  rewrite filter_cons_True by (by rewrite Hkey).
  by rewrite Hempty.
Qed.

Lemma name_of_entity tagData id now :
  get_prop (entity_of (tag_of tagData) id now) "name" = get_prop tagData "name".
Proof. unfold entity_of, tag_of, get_prop. by simplify_map_eq. Qed.

Lemma id_of_entity data id now : get_prop (entity_of data id now) "id" = VStr id.
Proof. unfold entity_of, get_prop. by simplify_map_eq. Qed.

(** A successful [createTag] either found a tag of that name, and changed
    nothing, or found none and added the new tag under the id drawn. *)
Lemma createTag_ok s st tagData name tag s1 :
  tags_ready s st ->
  get_prop tagData "name" = VStr name ->
  BrainStorage.createTag tagData s = (Ok tag, s1) ->
  (exists rest, index_only st "name" (VStr name) = tag :: rest /\ s1 = s)
  \/ (index_only st "name" (VStr name) = []
      /\ records st !! upcoming (uuids s) = None
      /\ tag = entity_of (tag_of tagData) (upcoming (uuids s)) (upcoming (dates s))
      /\ s1 = set_stores (date_and_id_drawn s)
                (<["tags" := set_records st
                               (<[upcoming (uuids s) := tag]> (records st))]>
                   (idb_stores s))).
Proof.
  intros Hready Hname Hrun.
  rewrite (createTag_step s st Hready) in Hrun by (by rewrite Hname).
  rewrite Hname in Hrun.
  destruct (index_only st "name" (VStr name)) as [|existing rest] eqn:Hfound.
  - right. apply create_ok in Hrun
      as (st0 & k & _ & Hst0 & Hentity & Hk & Hnone & _ & Hs1).
    rewrite (tr_store s st Hready) in Hst0. injection Hst0 as <-.
    rewrite (tr_keyPath s st Hready), Hentity, id_of_entity in Hk.
    injection Hk as <-. repeat split; assumption.
  - left. injection Hrun as <- <-. eauto.
Qed.

Lemma tags_ready_insert s st id tag :
  tags_ready s st ->
  get_prop tag "id" = VStr id ->
  tags_ready
    (set_stores (date_and_id_drawn s)
       (<["tags" := set_records st (<[id := tag]> (records st))]> (idb_stores s)))
    (set_records st (<[id := tag]> (records st))).
Proof.
  intros [Hconn Hst Hkp Hix Hkeyed] Hid. split; cbn; try assumption.
  - by rewrite lookup_insert_eq.
  - intros k r. cbn. rewrite lookup_insert. case_decide as Hk.
    + intros [= <-]. by rewrite Hkp, <- Hk.
    + apply Hkeyed.
Qed.

(* ===================================================================== *)
(** ** The hashtags of a content *)
(* ===================================================================== *)

Lemma hashtag_at_other c s : c <> "#"%char -> Tags.hashtag_at (String c s) = None.
Proof.
  intros Hc. destruct c as [[] [] [] [] [] [] [] []]; try reflexivity.
  by destruct Hc.
Qed.

Lemma hashtag_at_hash s :
  Tags.hashtag_at (String "#" s)
  = match Tags.tag_run s with
    | EmptyString => None
    | g => Some g
    end.
Proof. reflexivity. Qed.

(** While the characters of a match are passed, no other match begins. *)
Lemma hashtag_matches_hashtags s :
  forall skip, (skip <= String.length (Tags.tag_run s))%nat ->
               Tags.hashtag_matches s skip = hashtags s.
Proof.
  induction s as [|c s IH]; intros skip Hskip; [reflexivity|].
  destruct skip as [|skip].
  - cbn [Tags.hashtag_matches hashtags].
    destruct (Ascii.eqb_spec c "#") as [->|Hc].
    + rewrite hashtag_at_hash.
      destruct (Tags.tag_run s) as [|d g] eqn:Hrun.
      * apply IH. simpl. lia.
      * f_equal. apply IH. lia.
    + rewrite hashtag_at_other by assumption. apply IH. lia.
  - cbn [Tags.hashtag_matches hashtags]. cbn [Tags.tag_run] in Hskip.
    destruct (Tags.is_tag_char c) eqn:Hc; [|simpl in Hskip; lia].
    destruct (Ascii.eqb_spec c "#") as [->|_]; [discriminate Hc|].
    apply IH. simpl in Hskip. lia.
Qed.

Lemma includes_tag_spec tags tag :
  Tags.includes_tag tags tag = true <-> tag ∈ tags.
Proof.
  unfold Tags.includes_tag. rewrite existsb_exists. split.
  - intros (x & Hin & Heq). apply String.eqb_eq in Heq as ->.
    by apply list_elem_of_In.
  - intros Hin. exists tag. split; [by apply list_elem_of_In|].
    apply String.eqb_refl.
Qed.

(** The loop that pushes a name unless the array includes it. *)
Lemma push_new_first_occurrences (l acc : list string) :
  foldl (fun tags tag =>
           if Tags.includes_tag tags tag then tags else (tags ++ [tag])%list)
        acc l
  = (acc ++ filter (fun y => y ∉ acc) (first_occurrences l))%list.
Proof.
  revert acc. induction l as [|x l IH]; intros acc; simpl.
  - by rewrite app_nil_r.
  - rewrite IH. destruct (Tags.includes_tag acc x) eqn:Hx.
    + apply includes_tag_spec in Hx.
      rewrite filter_cons_False by (intros H; by apply H).
      rewrite list_filter_filter. f_equal.
      apply list_filter_iff. intros y. split; [|tauto].
      intros Hy. split; [done|]. by intros ->.
    + assert (x ∉ acc) as Hx'
        by (intros H; apply includes_tag_spec in H; congruence).
      rewrite filter_cons_True by assumption.
      rewrite <- app_assoc. simpl. do 2 f_equal.
      rewrite list_filter_filter.
      apply list_filter_iff. intros y.
      rewrite elem_of_app, list_elem_of_singleton. tauto.
Qed.

Lemma foldl_lower (l acc : list string) :
  foldl (fun tags m =>
           let tag := toLowerCase m in
           if Tags.includes_tag tags tag then tags else (tags ++ [tag])%list)
        acc l
  = foldl (fun tags tag =>
             if Tags.includes_tag tags tag then tags else (tags ++ [tag])%list)
          acc (map toLowerCase l).
Proof. revert acc. induction l as [|x l IH]; intros acc; simpl; [done|apply IH]. Qed.

Lemma filter_keeps_all {A} (P : A -> Prop) `{!forall x, Decision (P x)} (l : list A) :
  (forall x, x ∈ l -> P x) -> filter P l = l.
Proof.
  induction l as [|x l IH]; intros Hall; [done|].
  rewrite filter_cons_True by (apply Hall; left).
  f_equal. apply IH. intros y Hy. apply Hall. by right.
Qed.

(** The names [extractTagsFromContent] returns are the ones the
    specification asks for. *)
Lemma extractTagsFromContent_spec content :
  Tags.extractTagsFromContent content = tag_names content.
Proof.
  unfold Tags.extractTagsFromContent, tag_names.
  rewrite hashtag_matches_hashtags by lia.
  rewrite foldl_lower, push_new_first_occurrences. simpl.
  apply filter_keeps_all. intros y _. apply not_elem_of_nil.
Qed.

(* ===================================================================== *)
(** ** The loop of the tag sync *)
(* ===================================================================== *)

Lemma fresh_fewer s st k : fresh s st (S k) -> fresh s st k.
Proof.
  unfold fresh, next_ids. rewrite seq_S, map_app.
  rewrite NoDup_app, Forall_app. tauto.
Qed.

Lemma tags_ready_random s st : tags_ready s st -> tags_ready (random_drawn s) st.
Proof. intros [? ? ? ? ?]. by split. Qed.

Lemma resolve_tag_step s st name k :
  tags_ready s st ->
  fresh s st (S k) ->
  exists id s' st',
    Tags.resolve_tag name s = (Ok (VStr id), s')
    /\ resolved s st name k id s' st'.
Proof.
  intros Hready Hfresh.
  unfold Tags.resolve_tag, bind. rewrite (getTagByName_step s st Hready).
  destruct (index_only st "name" (VStr name)) as [|tag rest] eqn:Hfound; cbn [head].
  - unfold Tags.getRandomTagColor, random_below, bind, ret.
    change (mkState (idb_version s) (idb_stores s) (connected s)
                    (uuids s) (dates s) (advance (randoms s)))
      with (random_drawn s).
    set (data := <["color" := _]> (<["name" := VStr name]> ∅)).
    assert (get_prop data "name" = VStr name) as Hname
      by (unfold data, get_prop; by simplify_map_eq).
    pose proof (tags_ready_random s st Hready) as Hready'.
    rewrite (createTag_step _ st Hready') by (by rewrite Hname).
    rewrite Hname, Hfound.
    rewrite (create_step _ "tags" st (tr_connected _ _ Hready') (tr_store _ _ Hready')).
    cbn zeta. set (entity := entity_of _ _ _).
    assert (get_prop entity "id" = VStr (upcoming (uuids s))) as Hid
      by apply id_of_entity.
    assert (get_prop entity "name" = VStr name) as Hename
      by (unfold entity; by rewrite name_of_entity).
    destruct Hfresh as [Hnd Hnone].
    unfold next_ids in Hnd, Hnone. cbn [seq map] in Hnd, Hnone.
    apply NoDup_cons in Hnd as [Hnotin Hnd].
    apply Forall_cons in Hnone as [Hnew Hnone].
    unfold store_add, primary_key.
    rewrite (tr_keyPath s st Hready), Hid. cbn [uuids random_drawn].
    change (src (uuids s) (drawn (uuids s))) with (upcoming (uuids s)) in *.
    rewrite Hnew.
    rewrite (unique_ok_tags s st Hready) by (by rewrite Hename).
    eexists _, _, _. split; [by rewrite Hid|]. split.
    + by apply (tags_ready_insert (random_drawn s) st).
    + cbn. by apply insert_subseteq.
    + exists entity. cbn. by rewrite lookup_insert_eq.
    + split.
      * intros Hsome. rewrite Hnew in Hsome. by destruct Hsome.
      * intros (t & r & Ht & Hr). exfalso.
        assert (r ∈ index_only st "name" (VStr name)) as Hin
          by (apply elem_of_index_only; eauto).
        rewrite Hfound in Hin. by apply elem_of_nil in Hin.
    + intros t r. cbn. rewrite lookup_insert. case_decide as Ht.
      * by intros [= <-] _.
      * intros Hr Hnone'. rewrite Hr in Hnone'. discriminate.
    + intros n Hn. cbn. by rewrite lookup_insert_ne.
    + split; [exact Hnd|]. cbn.
      apply Forall_forall. intros id Hin. rewrite lookup_insert_ne.
      * by apply (proj1 (Forall_forall _ _) Hnone).
      * intros <-. by apply Hnotin.
  - assert (tag ∈ index_only st "name" (VStr name)) as Hin
      by (rewrite Hfound; left).
    apply elem_of_index_only in Hin as [[key Hkey] Hname].
    pose proof (tr_keyed s st Hready key tag Hkey) as Hid.
    rewrite (tr_keyPath s st Hready) in Hid.
    unfold ret. exists key, s, st. split; [by rewrite Hid|]. split.
    + assumption.
    + done.
    + eauto.
    + split; [intros _; by exists key, tag | by eauto].
    + intros t r Hr Hnone. rewrite Hr in Hnone. discriminate.
    + done.
    + by apply fresh_fewer.
Qed.

Lemma NoDup_first_occurrences l : NoDup (first_occurrences l).
Proof.
  induction l as [|x l IH]; simpl; [constructor|].
  apply NoDup_cons. split.
  - rewrite list_elem_of_filter. tauto.
  - by apply NoDup_filter.
Qed.

(** The loop as a whole.  [st0] is the store before the loop and [seen]
    are the names of the rounds already run: whatever the store holds
    beyond [st0] is a tag of one of these names. *)
Lemma resolve_tags_step (names : list string) :
  forall acc s st st0 (seen : list string),
    tags_ready s st ->
    fresh s st (List.length names) ->
    records st0 ⊆ records st ->
    (forall t r, records st !! t = Some r -> records st0 !! t = None ->
                 exists n, n ∈ seen /\ get_prop r "name" = VStr n) ->
    NoDup names ->
    (forall n, n ∈ names -> n ∉ seen) ->
    exists ids s' st',
      Tags.resolve_tags names acc s = (Ok (acc ++ (VStr <$> ids))%list, s')
      /\ tags_ready s' st'
      /\ records st ⊆ records st'
      /\ Forall2 (fun name id =>
                    (exists tag, records st' !! id = Some tag
                                 /\ get_prop tag "name" = VStr name)
                    /\ (is_Some (records st0 !! id) <-> named_in st0 name))
                 names ids
      /\ (forall n, n <> "tags" -> idb_stores s' !! n = idb_stores s !! n).
Proof.
  induction names as [|name rest IH];
    intros acc s st st0 seen Hready Hfresh Hsub Hbeyond Hnodup Hunseen.
  - exists [], s, st. cbn. rewrite app_nil_r.
    split; [done|]. split; [done|]. split; [done|]. split; [constructor|done].
  - apply NoDup_cons in Hnodup as [Hnotin Hnodup].
    assert (name ∉ seen) as Hname by (apply Hunseen; left).
    destruct (resolve_tag_step s st name (List.length rest) Hready Hfresh)
      as (id & s1 & st1 & Hrun
          & [Hready1 Hgrows1 Hnamed1 Hfound1 Hnew1 Hothers1 Hfresh1]).
    destruct (IH (acc ++ [VStr id])%list s1 st1 st0 (name :: seen) Hready1 Hfresh1)
      as (ids & s' & st' & Hrest & Hready' & Hgrows' & Hall & Hothers').
    { by etrans. }
    { intros t r Hr Hnone. destruct (records st !! t) as [r'|] eqn:Hold.
      - rewrite (lookup_weaken _ _ _ _ Hold Hgrows1) in Hr. injection Hr as ->.
        destruct (Hbeyond t r Hold Hnone) as (n & Hn & Hrn).
        exists n. split; [by right|done].
      - exists name. split; [left|]. by apply (Hnew1 t r). }
    { assumption. }
    { intros n Hn [->|Hseen]%elem_of_cons; [done|].
      by apply (Hunseen n); [right|]. }
    exists (id :: ids), s', st'. split.
    { cbn [Tags.resolve_tags]. unfold bind. rewrite Hrun, Hrest.
      by rewrite <- app_assoc. }
    split; [assumption|]. split; [by etrans|]. split.
    + constructor; [|assumption].
      destruct Hnamed1 as (tag & Htag & Htn). split.
      * exists tag. split; [|done]. by apply (lookup_weaken (records st1)).
      * split.
        -- intros [r0 Hr0]. exists id, r0. split; [done|].
           pose proof (lookup_weaken _ _ _ _ Hr0 Hsub) as Hr.
           pose proof (lookup_weaken _ _ _ _ Hr Hgrows1) as Hr1.
           rewrite Htag in Hr1. by injection Hr1 as <-.
        -- intros (t & r & Ht & Hr).
           assert (named_in st name) as Hin
             by (exists t, r; split; [by apply (lookup_weaken _ _ _ _ Ht Hsub)|done]).
           apply Hfound1 in Hin as [r1 Hr1].
           destruct (records st0 !! id) as [r0|] eqn:Hr0; [by eexists|].
           exfalso. destruct (Hbeyond id r1 Hr1 Hr0) as (n & Hn & Hrn).
           rewrite (lookup_weaken _ _ _ _ Hr1 Hgrows1) in Htag.
           injection Htag as ->. rewrite Htn in Hrn. by injection Hrn as ->.
    + intros n Hn. by rewrite Hothers', Hothers1.
Qed.

(** * The claims

    Each claim of the specification, in their order: where it holds, the
    theorem and an instance of it on the sample world; where it does not,
    the run that shows it, and what holds instead. *)

(* ===================================================================== *)
(** ** The teardown of the backlink sync *)
(* ===================================================================== *)

(** C1, at the failing input.  Note A (u0) links to note B (u1), so the
    store holds one backlink, u2, whose source is u0 and whose target is
    u1.  The teardown for note B, which is the source of no backlink,
    deletes u2; so does the whole sync of B on a content without links. *)
Theorem teardown_deletes_incoming_backlink :
  keys_of linked "backlinks" = Some ["u2"]
  /\ get_prop_at linked "backlinks" "u2" "sourceNoteId" = Some (VStr "u0")
  /\ get_prop_at linked "backlinks" "u2" "targetNoteId" = Some (VStr "u1")
  /\ outcome (Backlinks.removeBacklinksFromNote "u1") linked = Ok tt
  /\ keys_of (state_after (Backlinks.removeBacklinksFromNote "u1") linked)
       "backlinks" = Some []
  /\ keys_of (state_after (Backlinks.syncBacklinksForNote "u1" "nothing") linked)
       "backlinks" = Some [].
Proof.
  split; [reflexivity|]. split; [reflexivity|]. split; [reflexivity|].
  split; [reflexivity|]. split; reflexivity.
Qed.

(* ===================================================================== *)
(** ** The window of [getAll] *)
(* ===================================================================== *)

(** C2, at the failing input.  The store holds five notes, which a cursor
    meets in the order r0 .. r4 (here: in the order of their ids);
    [getAll] with offset 2 and limit 2 returns no record at all, where the
    window r2, r3 is expected. *)
Theorem getAll_offset_limit_returns_no_window :
  titles_of
    (outcome (IndexedDBStorage.getAll "notes" IndexedDBStorage.no_options) five_notes)
  = Ok [VStr "n0"; VStr "n1"; VStr "n2"; VStr "n3"; VStr "n4"]
  /\ outcome (IndexedDBStorage.getAll "notes" second_page) five_notes = Ok [].
Proof.
  split; reflexivity.
Qed.

(* ===================================================================== *)
(** ** Uniqueness of tag names *)
(* ===================================================================== *)

(** C3, as stated, fails: after [createTag] of "foo", [createTag] of "Foo"
    creates a second tag; the store then holds two tags whose names differ
    in case only. *)
Lemma createTag_is_case_sensitive :
  keys_of foo_then_Foo "tags" = Some ["u0"; "u1"]
  /\ get_prop_at foo_then_Foo "tags" "u0" "name" = Some (VStr "foo")
  /\ get_prop_at foo_then_Foo "tags" "u1" "name" = Some (VStr "Foo")
  /\ toLowerCase "Foo" = toLowerCase "foo".
Proof.
  split; [reflexivity|]. split; [reflexivity|]. split; reflexivity.
Qed.

(** C3, amended.  Tag names are unique by exact match at creation: once
    [createTag] has returned a tag for a name, whether found or created,
    every later [createTag] of the very same name returns that tag and
    leaves the state as it is; and when no two tags had the same name
    before a [createTag], no two have after it. *)
Theorem createTag_same_name_returns_existing
    (s s1 : State) (tagData tag : obj) (name : string) :
  ready s ->
  get_prop tagData "name" = VStr name ->
  BrainStorage.createTag tagData s = (Ok tag, s1) ->
  (forall tagData',
     get_prop tagData' "name" = VStr name ->
     BrainStorage.createTag tagData' s1 = (Ok tag, s1))
  /\ (distinct_names s -> distinct_names s1).
Proof.
  intros Hready Hname Hrun.
  destruct (ready_tags s Hready) as [st Htags].
  destruct (createTag_ok s st tagData name tag s1 Htags Hname Hrun)
    as [(rest & Hfound & ->) | (Hnone & Hfresh & Htag & ->)].
  - split; [|done]. intros tagData' Hname'.
    rewrite (createTag_step s st Htags) by (by rewrite Hname').
    by rewrite Hname', Hfound.
  - assert (get_prop tag "name" = VStr name) as Htname
      by (by rewrite Htag, name_of_entity).
    assert (get_prop tag "id" = VStr (upcoming (uuids s))) as Htid
      by (rewrite Htag; apply id_of_entity).
    split.
    + intros tagData' Hname'.
      rewrite (createTag_step _ _ (tags_ready_insert s st _ tag Htags Htid))
        by (by rewrite Hname').
      rewrite Hname', (index_only_insert_first st "name" _ _ tag Hfresh Hnone)
        by (by apply key_eqb_string).
      reflexivity.
    + intros Hdistinct k1 k2 r1 r2 n.
      unfold record_at, set_stores. cbn.
      rewrite lookup_insert_eq. cbn. rewrite !lookup_insert.
      assert (forall k r, records st !! k = Some r -> get_prop r "name" = VStr n ->
                          n <> name) as Hother.
      { intros k r Hk Hn ->.
        assert (r ∈ index_only st "name" (VStr name)) as Hin
          by (apply elem_of_index_only; eauto).
        rewrite Hnone in Hin. by apply elem_of_nil in Hin. }
      repeat case_decide; subst; try done.
      * intros [= <-] Hr2 Hn1 Hn2. rewrite Htname in Hn1. injection Hn1 as <-.
        by destruct (Hother _ _ Hr2 Hn2).
      * intros Hr1 [= <-] Hn1 Hn2. rewrite Htname in Hn2. injection Hn2 as <-.
        by destruct (Hother _ _ Hr1 Hn1).
      * intros Hr1 Hr2. apply (Hdistinct k1 k2 r1 r2 n);
          unfold record_at; by rewrite (tr_store s st Htags).
Qed.

Lemma createTag_same_name_witness :
  (forall tagData',
     get_prop tagData' "name" = VStr "foo" ->
     BrainStorage.createTag tagData' (snd foo_run)
     = (Ok (returned ∅ foo_run), snd foo_run))
  /\ (distinct_names Sample.opened -> distinct_names (snd foo_run)).
Proof.
  apply (createTag_same_name_returns_existing Sample.opened (snd foo_run) foo).
  - exact ready_opened.
  - reflexivity.
  - apply (run_succeeded ∅ foo_run). reflexivity.
Defined.

(* ===================================================================== *)
(** ** The merge of [update] and the sync metadata *)
(* ===================================================================== *)

(** C4, as stated, fails: the patch includes a [sync] object, the update
    succeeds and persists the record it returns, and the [sync] of that
    record is not the object of the patch. *)
Lemma update_sync_patch_not_persisted :
  get_prop sync_patch "sync" = VObj patch_sync
  /\ succeeded sync_patch_run = true
  /\ record_at (snd sync_patch_run) "notes" "u0" = Some (returned ∅ sync_patch_run)
  /\ get_prop (returned ∅ sync_patch_run) "sync" <> VObj patch_sync.
Proof.
  split; [reflexivity|]. split; [reflexivity|]. split; [reflexivity|].
  intros H.
  apply (f_equal (fun v => match v with
                           | VObj so => get_prop so "version"
                           | _ => VUndefined
                           end)) in H.
  vm_compute in H. discriminate.
Qed.

(** C4, amended.  For every successful update: the sync metadata of the
    record persisted is that of the current record with [version] raised by
    one, whatever [sync] the patch carries; every other field, [updatedAt]
    apart, is the field of the patch when the patch has it (a nested object
    replaces the stored one whole) and the field of the current record
    otherwise; the record returned is the one persisted, under its key. *)
Theorem update_merge_keeps_stored_sync
    (s s' : State) (storeName id : string) (updates updated : obj) :
  IndexedDBStorage.update storeName id updates s = (Ok updated, s') ->
  exists current so v k,
    record_at s storeName id = Some current
    /\ get_prop current "sync" = VObj so
    /\ get_prop so "version" = VNum v
    /\ get_prop updated "sync" = VObj (<["version" := VNum (v + 1)]> so)
    /\ (forall f, f <> "sync" -> f <> "updatedAt" ->
          updated !! f = match updates !! f with
                         | Some x => Some x
                         | None => current !! f
                         end)
    /\ record_at s' storeName k = Some updated.
Proof.
  intros Hrun.
  apply update_ok in Hrun
    as (st & current & so & v & k & _ & Hst & Hcur & Hso & Hv & -> & Hk & _ & ->).
  exists current, so, v, k. repeat split.
  - unfold record_at. by rewrite Hst.
  - assumption.
  - assumption.
  - apply merged_sync.
  - intros f Hs Hu. by apply merged_field.
  - unfold record_at, set_stores. cbn.
    rewrite lookup_insert_eq. cbn. by rewrite lookup_insert_eq.
Qed.

Lemma update_merge_keeps_stored_sync_witness :
  exists current so v k,
    record_at one_note "notes" "u0" = Some current
    /\ get_prop current "sync" = VObj so
    /\ get_prop so "version" = VNum v
    /\ get_prop (returned ∅ sync_patch_run) "sync"
       = VObj (<["version" := VNum (v + 1)]> so)
    /\ (forall f, f <> "sync" -> f <> "updatedAt" ->
          returned ∅ sync_patch_run !! f
          = match sync_patch !! f with
            | Some x => Some x
            | None => current !! f
            end)
    /\ record_at (snd sync_patch_run) "notes" k = Some (returned ∅ sync_patch_run).
Proof.
  apply (update_merge_keeps_stored_sync one_note (snd sync_patch_run)
           "notes" "u0" sync_patch (returned ∅ sync_patch_run)).
  apply (run_succeeded ∅ sync_patch_run). reflexivity.
Defined.

(* ===================================================================== *)
(** ** The backlinks of a note *)
(* ===================================================================== *)

(** C5, as stated, fails on a note that links to itself: the one backlink
    of the store, from u0 to u0, is returned twice. *)
Lemma getBacklinksForNote_repeats_self_link :
  keys_of self_linked "backlinks" = Some ["u1"]
  /\ get_prop_at self_linked "backlinks" "u1" "sourceNoteId" = Some (VStr "u0")
  /\ get_prop_at self_linked "backlinks" "u1" "targetNoteId" = Some (VStr "u0")
  /\ ids_of (outcome (BrainStorage.getBacklinksForNote "u0") self_linked)
     = Ok [VStr "u1"; VStr "u1"].
Proof.
  split; [reflexivity|]. split; [reflexivity|]. split; reflexivity.
Qed.

(** C5, amended.  In a ready state [getBacklinksForNote] succeeds and
    leaves the state as it is; a record is in the list it returns exactly
    when it is a stored backlink whose source or whose target is the note;
    and such a record, unless it links the note to itself, is in the list
    at one position only. *)
Theorem getBacklinksForNote_source_or_target (s : State) (noteId : string) :
  ready s ->
  exists backlinks,
    BrainStorage.getBacklinksForNote noteId s = (Ok backlinks, s)
    /\ (forall b,
          b ∈ backlinks
          <-> (exists k, record_at s "backlinks" k = Some b)
              /\ (get_prop b "sourceNoteId" = VStr noteId
                  \/ get_prop b "targetNoteId" = VStr noteId))
    /\ (forall b,
          b ∈ backlinks ->
          ~ (get_prop b "sourceNoteId" = VStr noteId
             /\ get_prop b "targetNoteId" = VStr noteId) ->
          exists i, backlinks !! i = Some b
                    /\ forall j, backlinks !! j = Some b -> j = i).
Proof.
  intros [Hconn Hcfg Hkeyed].
  destruct (configured_stores s Hcfg) as (_ & _ & st & Hst & _ & Hix).
  specialize (Hkeyed _ _ Hst).
  eexists. split; [by apply (getBacklinksForNote_step s st)|].
  assert (forall b, (exists k, record_at s "backlinks" k = Some b)
                    <-> exists k, records st !! k = Some b) as Hrec.
  { intros b. unfold record_at. by rewrite Hst. }
  split.
  - intros b. rewrite elem_of_app, !elem_of_index_only, Hrec. tauto.
  - intros b Hin Hnot.
    apply one_position_in_app; try by apply NoDup_index_only.
    + exact Hin.
    + rewrite !elem_of_index_only. tauto.
Qed.

Lemma getBacklinksForNote_source_or_target_witness :
  exists backlinks,
    BrainStorage.getBacklinksForNote "u1" linked = (Ok backlinks, linked)
    /\ (forall b,
          b ∈ backlinks
          <-> (exists k, record_at linked "backlinks" k = Some b)
              /\ (get_prop b "sourceNoteId" = VStr "u1"
                  \/ get_prop b "targetNoteId" = VStr "u1"))
    /\ (forall b,
          b ∈ backlinks ->
          ~ (get_prop b "sourceNoteId" = VStr "u1"
             /\ get_prop b "targetNoteId" = VStr "u1") ->
          exists i, backlinks !! i = Some b
                    /\ forall j, backlinks !! j = Some b -> j = i).
Proof.
  apply (getBacklinksForNote_source_or_target linked "u1").
  apply ready_b_sound. reflexivity.
Defined.

(* ===================================================================== *)
(** ** The version of a record *)
(* ===================================================================== *)

(** C6, as stated, fails on a patch that carries an id: the update of u1
    succeeds, yet u1 keeps version 1, and the version of u0 falls from 3
    to 2. *)
Lemma update_with_id_patch_lowers_version :
  stored_version two_notes "notes" "u0" = Some (VNum 3)
  /\ stored_version two_notes "notes" "u1" = Some (VNum 1)
  /\ succeeded id_patch_run = true
  /\ stored_version (snd id_patch_run) "notes" "u1" = Some (VNum 1)
  /\ stored_version (snd id_patch_run) "notes" "u0" = Some (VNum 2).
Proof.
  split; [reflexivity|]. split; [reflexivity|]. split; [reflexivity|].
  split; reflexivity.
Qed.

(** C6, amended.  In a store whose key path is [id] and whose keys are in
    line:
    - a record that [create] returns has version 1 and is persisted so,
      under the id drawn;
    - every successful [update] whose patch leaves the id alone raises
      the version of the record, whatever it was, by exactly one,
      whatever else the patch holds, and changes the version of no other
      record;
    - so over any calls of [create] and of such updates, in any order and
      on any records, which all succeed, the version of every record is
      its version before plus the number of its updates: it never
      decreases and is never reset;
    - and the version of a record is 1 plus the number of its updates
      since its creation. *)
Theorem version_is_one_plus_updates
    (s : State) (storeName : string) (st : ObjectStore) :
  idb_stores s !! storeName = Some st ->
  keyPath st = "id" ->
  keyed st ->
  (forall data entity s1,
     IndexedDBStorage.create storeName data s = (Ok entity, s1) ->
     version_of entity = VNum 1
     /\ get_prop entity "id" = VStr (upcoming (uuids s))
     /\ stored_version s1 storeName (upcoming (uuids s)) = Some (VNum 1))
  /\ (forall id patch updated s1,
        keeps_id id patch ->
        IndexedDBStorage.update storeName id patch s = (Ok updated, s1) ->
        exists v,
          stored_version s storeName id = Some (VNum v)
          /\ version_of updated = VNum (v + 1)
          /\ stored_version s1 storeName id = Some (VNum (v + 1))
          /\ forall other,
               other <> id ->
               stored_version s1 storeName other = stored_version s storeName other)
  /\ (forall calls s2,
        Forall id_kept calls ->
        run_calls storeName calls s = (Ok tt, s2) ->
        forall id v,
          stored_version s storeName id = Some (VNum v) ->
          exists v',
            stored_version s2 storeName id = Some (VNum v')
            /\ v' = v + Z.of_nat (updates_of id calls)
            /\ v <= v')
  /\ (forall data entity s1 calls s2,
        IndexedDBStorage.create storeName data s = (Ok entity, s1) ->
        Forall id_kept calls ->
        run_calls storeName calls s1 = (Ok tt, s2) ->
        stored_version s2 storeName (upcoming (uuids s))
        = Some (VNum (1 + Z.of_nat (updates_of (upcoming (uuids s)) calls)))).
Proof.
  intros Hst Hkp Hkeyed.
  assert (Hcreated : forall data entity s1,
            IndexedDBStorage.create storeName data s = (Ok entity, s1) ->
            version_of entity = VNum 1
            /\ get_prop entity "id" = VStr (upcoming (uuids s))
            /\ stored_version s1 storeName (upcoming (uuids s)) = Some (VNum 1)
            /\ idb_stores s1 !! storeName
               = Some (set_records st (<[upcoming (uuids s) := entity]> (records st)))
            /\ keyed (set_records st (<[upcoming (uuids s) := entity]> (records st)))).
  { intros data entity s1 Hrun.
    destruct (create_version_step s storeName st data entity s1 Hst Hkp Hrun)
      as (Hv & Hid & Hnone & Hs1).
    split; [done|]. split; [done|]. split.
    { rewrite Hs1, stored_version_insert, decide_True by done. by rewrite Hv. }
    split.
    { rewrite Hs1. simpl. by rewrite lookup_insert_eq. }
    apply keyed_insert; [done|]. by rewrite Hkp. }
  split.
  { intros data entity s1 Hrun.
    destruct (Hcreated data entity s1 Hrun) as (? & ? & ? & _). done. }
  split.
  { intros id patch updated s1 Hkeep Hrun.
    destruct (update_version_step s storeName st id patch updated s1
                Hst Hkp Hkeyed Hkeep Hrun)
      as (current & v & Hcur & Hv & Hv1 & Hid & Hs1).
    exists v. split.
    { unfold stored_version, record_at. rewrite Hst, Hcur. simpl. by rewrite Hv. }
    split; [done|]. split.
    { rewrite Hs1, stored_version_insert, decide_True by done. by rewrite Hv1. }
    intros other Hother.
    rewrite Hs1, stored_version_insert, decide_False by done.
    unfold stored_version, record_at. by rewrite Hst. }
  split.
  { intros calls s2 Hkeep Hrun id v Hv.
    eexists. split; [by apply (run_calls_versions storeName calls Hkeep s st s2)|].
    split; [done|lia]. }
  intros data entity s1 calls s2 Hcreate Hkeep Hrun.
  destruct (Hcreated data entity s1 Hcreate) as (_ & _ & Hv1 & Hst1 & Hkeyed1).
  by apply (run_calls_versions storeName calls Hkeep s1 _ s2 Hst1).
Qed.

Lemma two_notes_ready : ready two_notes.
Proof. apply ready_b_sound. reflexivity. Qed.

(** The theorem on the notes of [two_notes], where u0 has version 3 and
    u1 version 1: a note created there has version 1; the pinning of u0
    gives it version 4 and leaves u1 at version 1; five calls, all
    successful, that update u0 twice leave it at version 5; and after
    its creation and three calls that update it twice, the third note
    has version 3. *)
Lemma version_is_one_plus_updates_witness :
  (succeeded third_note_run = true
   /\ version_of (returned ∅ third_note_run) = VNum 1
   /\ stored_version (snd third_note_run) "notes" (upcoming (uuids two_notes))
      = Some (VNum 1))
  /\ (succeeded pin_u0_run = true
      /\ exists v,
           stored_version two_notes "notes" "u0" = Some (VNum v)
           /\ version_of (returned ∅ pin_u0_run) = VNum (v + 1)
           /\ stored_version (snd pin_u0_run) "notes" "u0" = Some (VNum (v + 1))
           /\ forall other,
                other <> "u0" ->
                stored_version (snd pin_u0_run) "notes" other
                = stored_version two_notes "notes" other)
  /\ (succeeded sample_calls_run = true
      /\ exists v',
           stored_version (snd sample_calls_run) "notes" "u0" = Some (VNum v')
           /\ v' = 3 + Z.of_nat (updates_of "u0" sample_calls)
           /\ 3 <= v')
  /\ (succeeded later_calls_run = true
      /\ stored_version (snd later_calls_run) "notes" (upcoming (uuids two_notes))
         = Some (VNum (1 + Z.of_nat (updates_of (upcoming (uuids two_notes))
                                       later_calls)))).
Proof.
  destruct (configured_stores two_notes (ready_configured _ two_notes_ready))
    as ((st & Hst & Hkp & _) & _).
  destruct (version_is_one_plus_updates two_notes "notes" st)
    as (Hcreate & Hupdate & Hcalls & Hsince).
  - exact Hst.
  - exact Hkp.
  - exact (ready_keyed _ two_notes_ready _ _ Hst).
  - split.
    { split; [reflexivity|].
      destruct (Hcreate (Sample.note "C" "c") (returned ∅ third_note_run)
                  (snd third_note_run)) as (Hv & _ & Hstored).
      - apply (run_succeeded ∅ third_note_run). reflexivity.
      - split; [exact Hv|exact Hstored]. }
    split.
    { split; [reflexivity|].
      apply (Hupdate "u0" (<["isPinned" := VBool true]> ∅)
               (returned ∅ pin_u0_run) (snd pin_u0_run)).
      - left. reflexivity.
      - apply (run_succeeded ∅ pin_u0_run). reflexivity. }
    split.
    { split; [reflexivity|].
      apply (Hcalls sample_calls (snd sample_calls_run)).
      - unfold sample_calls.
        apply Forall_cons_2; [left; reflexivity|].
        apply Forall_cons_2; [exact I|].
        apply Forall_cons_2; [left; reflexivity|].
        apply Forall_cons_2; [right; reflexivity|].
        apply Forall_cons_2; [left; reflexivity|].
        apply Forall_nil_2.
      - apply (run_succeeded_unit sample_calls_run). reflexivity.
      - reflexivity. }
    split; [reflexivity|].
    apply (Hsince (Sample.note "C" "c") (returned ∅ third_note_run)
             (snd third_note_run) later_calls (snd later_calls_run)).
    + apply (run_succeeded ∅ third_note_run). reflexivity.
    + unfold later_calls.
      apply Forall_cons_2; [left; reflexivity|].
      apply Forall_cons_2; [left; reflexivity|].
      apply Forall_cons_2; [left; reflexivity|].
      apply Forall_nil_2.
    + apply (run_succeeded_unit later_calls_run). reflexivity.
Defined.

(* ===================================================================== *)
(** ** Update of a missing id *)
(* ===================================================================== *)

(** C7. For every collection of the open database and every id that the
    collection does not hold, [update] fails with [KEY_NOT_FOUND] and the
    whole state (every collection, and the oracles) is as it was. *)
Theorem update_missing_id_fails_unchanged
    (s : State) (storeName id : string) (st : ObjectStore) (updates : obj) :
  connected s = true ->
  idb_stores s !! storeName = Some st ->
  records st !! id = None ->
  IndexedDBStorage.update storeName id updates s
  = (Err (StorageError KEY_NOT_FOUND), s).
Proof.
  intros Hconn Hstore Hid.
  unfold IndexedDBStorage.update, IndexedDBStorage.get,
    IndexedDBStorage.require_db, IndexedDBStorage.objectStore, bind, ret, throw.
  rewrite Hconn. cbn. rewrite Hconn. cbn. rewrite Hstore. cbn.
  rewrite Hid. reflexivity.
Qed.

Lemma update_missing_id_witness :
  IndexedDBStorage.update "notes" "missing" (<["title" := VStr "x"]> ∅) Sample.opened
  = (Err (StorageError KEY_NOT_FOUND), Sample.opened).
Proof.
  apply (update_missing_id_fails_unchanged Sample.opened "notes" "missing"
           (mkStore "id" BrainStorage.notes_indices ∅)).
  - reflexivity.
  - reflexivity.
  - reflexivity.
Defined.

(* ===================================================================== *)
(** ** Tag sync *)
(* ===================================================================== *)

(** C8.  The names [extractTagsFromContent] computes are the hashtags of
    the content ([#] followed by one or more ASCII letters, digits,
    underscores or hyphens), in lower case, in the order of their first
    appearance, without duplicates; "Ideas about #work and #Work" has the
    one name "work".  In a ready state, for a note that exists and as many
    fresh ids to draw as there are names, [syncTagsForNote] succeeds; the
    ids it returns are, name by name, those of stored tags of these names,
    found (the id of a tag stored before, when a tag of the name was
    stored before) or else created; the [tags] field of the note is
    replaced by exactly these ids; and the id of a tag stored before whose
    name is not among the names is not among them. *)
Theorem syncTagsForNote_replaces_tags
    (s : State) (noteId content : string) (note : obj) (v : Z) (tst : ObjectStore) :
  ready s ->
  record_at s "notes" noteId = Some note ->
  version_of note = VNum v ->
  idb_stores s !! "tags" = Some tst ->
  fresh s tst (List.length (Tags.extractTagsFromContent content)) ->
  Tags.extractTagsFromContent content = tag_names content
  /\ Tags.extractTagsFromContent "Ideas about #work and #Work" = ["work"]
  /\ exists ids s',
       Tags.syncTagsForNote noteId content s = (Ok (VStr <$> ids), s')
       /\ Forall2 (fun name id =>
                     get_prop_at s' "tags" id "name" = Some (VStr name)
                     /\ (is_Some (record_at s "tags" id)
                         <-> exists t, get_prop_at s "tags" t "name"
                                       = Some (VStr name)))
                  (tag_names content) ids
       /\ get_prop_at s' "notes" noteId "tags" = Some (VArr (VStr <$> ids))
       /\ forall t n,
            get_prop_at s "tags" t "name" = Some (VStr n) ->
            n ∉ tag_names content ->
            t ∉ ids.
Proof.
  intros Hready Hnote Hversion Htst Hfresh.
  split; [apply extractTagsFromContent_spec|]. split; [reflexivity|].
  destruct (ready_tags s Hready) as [st Htags].
  rewrite (tr_store s st Htags) in Htst. injection Htst as <-.
  destruct Hready as [_ Hcfg Hkeyed].
  destruct (configured_stores s Hcfg) as ((nst & Hnst & Hnkp & Hnix) & _ & _).
  specialize (Hkeyed _ _ Hnst).
  unfold record_at in Hnote. rewrite Hnst in Hnote.
  destruct (resolve_tags_step (Tags.extractTagsFromContent content) [] s st st []
              Htags Hfresh)
    as (ids & s1 & st1 & Hrun & Hready1 & Hgrows & Hall & Hothers).
  { done. }
  { intros t r Hr Hnone. rewrite Hr in Hnone. discriminate. }
  { rewrite extractTagsFromContent_spec. apply NoDup_first_occurrences. }
  { intros n _. apply not_elem_of_nil. }
  rewrite extractTagsFromContent_spec in Hall.
  assert (idb_stores s1 !! "notes" = Some nst) as Hnst1
    by (by rewrite Hothers).
  apply version_of_inv in Hversion as (so & Hso & Hv).
  set (patch := <["tags" := VArr (VStr <$> ids)]> (∅ : obj)).
  set (updated := merged note patch (upcoming (dates s1))
                    (VObj (<["version" := VNum (v + 1)]> so))).
  assert (get_prop updated "id" = VStr noteId) as Hid.
  { unfold updated, get_prop at 1. rewrite merged_field by discriminate.
    unfold patch. rewrite lookup_insert_ne, lookup_empty by discriminate.
    pose proof (Hkeyed _ _ Hnote) as Hk. by rewrite Hnkp in Hk. }
  assert (Tags.syncTagsForNote noteId content s
          = (Ok (VStr <$> ids),
             set_stores (date_drawn s1)
               (<["notes" := set_records nst (<[noteId := updated]> (records nst))]>
                  (idb_stores s1)))) as Hsync.
  { unfold Tags.syncTagsForNote, bind. rewrite Hrun. cbn [app].
    unfold BrainStorage.updateNote. fold patch.
    rewrite (update_step s1 "notes" nst (tr_connected _ _ Hready1) Hnst1
               noteId patch note Hnote).
    rewrite Hso. cbn [IndexedDBStorage.next_sync]. rewrite Hv. cbn zeta.
    fold updated. unfold store_put, primary_key. rewrite Hnkp, Hid.
    rewrite unique_ok_no_unique_index by (rewrite Hnix; repeat constructor).
    reflexivity. }
  eexists ids, _. split; [exact Hsync|].
  assert (forall id, record_at
                       (set_stores (date_drawn s1)
                          (<["notes" := set_records nst
                                          (<[noteId := updated]> (records nst))]>
                             (idb_stores s1))) "tags" id
                     = records st1 !! id) as Htags'.
  { intros id. unfold record_at, set_stores. cbn.
    rewrite lookup_insert_ne by discriminate.
    by rewrite (tr_store _ _ Hready1). }
  split; [|split].
  - eapply Forall2_impl; [exact Hall|].
    intros name id [(tag & Htag & Hname) Hfound]. split.
    + unfold get_prop_at. rewrite Htags', Htag. cbn. by rewrite Hname.
    + unfold get_prop_at, record_at. rewrite (tr_store s st Htags).
      rewrite Hfound. unfold named_in. split.
      * intros (t & r & Ht & Hr). exists t. rewrite Ht. cbn. by rewrite Hr.
      * intros (t & Ht). destruct (records st !! t) as [r|] eqn:Hr; [|discriminate].
        exists t, r. split; [done|]. cbn in Ht. by injection Ht.
  - unfold get_prop_at, record_at, set_stores. cbn.
    rewrite lookup_insert_eq. cbn. rewrite lookup_insert_eq. cbn.
    f_equal. unfold updated, get_prop. rewrite merged_field by discriminate.
    unfold patch. by rewrite lookup_insert_eq.
  - intros t n Hold Hn Hin.
    apply list_elem_of_lookup in Hin as [i Hi].
    destruct (Forall2_lookup_r _ _ _ _ _ Hall Hi)
      as (name & Hname & (tag & Htag & Htn) & _).
    unfold get_prop_at, record_at in Hold.
    rewrite (tr_store s st Htags) in Hold.
    destruct (records st !! t) as [old|] eqn:Hrec; [|discriminate].
    pose proof (lookup_weaken _ _ _ _ Hrec Hgrows) as Hrec1.
    rewrite Htag in Hrec1. injection Hrec1 as ->.
    cbn in Hold. rewrite Htn in Hold. injection Hold as <-.
    apply Hn. by eapply list_elem_of_lookup_2.
Qed.

(** The example at work: one tag, "work", is created under the id u1, and
    the [tags] array of the note has that one entry. *)
Example syncTagsForNote_ideas :
  fst ideas_run = Ok [VStr "u1"]
  /\ keys_of (snd ideas_run) "tags" = Some ["u1"]
  /\ get_prop_at (snd ideas_run) "tags" "u1" "name" = Some (VStr "work")
  /\ get_prop_at (snd ideas_run) "notes" "u0" "tags" = Some (VArr [VStr "u1"]).
Proof.
  split; [reflexivity|]. split; [reflexivity|]. split; reflexivity.
Qed.

Lemma syncTagsForNote_replaces_tags_witness :
  Tags.extractTagsFromContent ideas = tag_names ideas
  /\ Tags.extractTagsFromContent "Ideas about #work and #Work" = ["work"]
  /\ exists ids s',
       Tags.syncTagsForNote "u0" ideas one_note = (Ok (VStr <$> ids), s')
       /\ Forall2 (fun name id =>
                     get_prop_at s' "tags" id "name" = Some (VStr name)
                     /\ (is_Some (record_at one_note "tags" id)
                         <-> exists t, get_prop_at one_note "tags" t "name"
                                       = Some (VStr name)))
                  (tag_names ideas) ids
       /\ get_prop_at s' "notes" "u0" "tags" = Some (VArr (VStr <$> ids))
       /\ forall t n,
            get_prop_at one_note "tags" t "name" = Some (VStr n) ->
            n ∉ tag_names ideas ->
            t ∉ ids.
Proof.
  apply (syncTagsForNote_replaces_tags one_note "u0" ideas
           (default ∅ (record_at one_note "notes" "u0")) 1
           (mkStore "id" BrainStorage.tags_indices ∅)).
  - apply ready_b_sound. reflexivity.
  - reflexivity.
  - reflexivity.
  - reflexivity.
  - replace (List.length (Tags.extractTagsFromContent ideas)) with 1%nat
      by reflexivity.
    split.
    + apply NoDup_singleton.
    + apply Forall_cons_2; [reflexivity | apply Forall_nil_2].
Defined.

(* ===================================================================== *)
(** ** Renaming a note *)
(* ===================================================================== *)

(** C9, at the failing input.  The title goes into the regular expression
    unescaped, so its dot matches any character: renaming "a.b" to "New"
    rewrites [[axb]], which is no occurrence of [[a.b]], as well. *)
Theorem rename_rewrites_other_titles :
  get_prop_at dotted "notes" "u0" "title" = Some (VStr "a.b")
  /\ get_prop_at dotted "notes" "u1" "content"
     = Some (VStr "see [[axb]] and [[a.b]]")
  /\ outcome (Backlinks.updateBacklinksOnNoteRename "a.b" "New") dotted = Ok tt
  /\ get_prop_at
       (state_after (Backlinks.updateBacklinksOnNoteRename "a.b" "New") dotted)
       "notes" "u1" "content"
     = Some (VStr "see [[New]] and [[New]]").
Proof.
  split; [reflexivity|]. split; [reflexivity|]. split; reflexivity.
Qed.

(* ===================================================================== *)
(** ** Defaults of a created note *)
(* ===================================================================== *)

(** C10. In a ready state, with a fresh id to draw, [createNote] succeeds
    on any input; the note returned is the record persisted under the new
    id; each of [tags], [backlinks], [isArchived], [isPinned] holds its
    default ([[]], [[]], [false], [false]) when the input omits it or gives
    a falsy value for it, and none of the four is ever [undefined]. *)
Theorem createNote_fills_defaults (s : State) (noteData : obj) :
  ready s ->
  record_at s "notes" (upcoming (uuids s)) = None ->
  exists note s',
    BrainStorage.createNote noteData s = (Ok note, s')
    /\ record_at s' "notes" (upcoming (uuids s)) = Some note
    /\ forall f d, (f, d) ∈ note_defaults ->
         get_prop note f <> VUndefined
         /\ (truthy (get_prop noteData f) = false -> get_prop note f = d).
Proof.
  intros [Hconn Hcfg _] Hfresh.
  destruct (configured_stores s Hcfg) as [(st & Hst & Hkp & Hix) _].
  unfold record_at in Hfresh. rewrite Hst in Hfresh.
  unfold BrainStorage.createNote.
  rewrite (create_step s "notes" st Hconn Hst). cbn zeta.
  set (note0 := <["isPinned" := _]> _).
  set (entity := entity_of note0 _ _).
  assert (get_prop entity "id" = VStr (upcoming (uuids s))) as Hid.
  { unfold entity, entity_of, get_prop. by simplify_map_eq. }
  unfold store_add, primary_key. rewrite Hkp, Hid, Hfresh.
  rewrite unique_ok_no_unique_index
    by (rewrite Hix; repeat constructor).
  eexists _, _. split; [reflexivity|]. split.
  - unfold record_at, set_stores. cbn.
    rewrite lookup_insert_eq. cbn. by rewrite lookup_insert_eq.
  - intros f d Hf.
    unfold note_defaults in Hf.
    repeat (apply elem_of_cons in Hf as [[= -> ->]|Hf]);
      [..|by apply elem_of_nil in Hf];
      (split;
       [ unfold entity, entity_of, note0, get_prop; simplify_map_eq;
         by apply js_or_defined
       | intros Hfalsy; unfold entity, entity_of, note0, get_prop;
         simplify_map_eq; by apply js_or_falsy ]).
Qed.

Lemma createNote_fills_defaults_witness :
  exists note s',
    BrainStorage.createNote (Sample.note "T" "text") Sample.opened = (Ok note, s')
    /\ record_at s' "notes" "u0" = Some note
    /\ forall f d, (f, d) ∈ note_defaults ->
         get_prop note f <> VUndefined
         /\ (truthy (get_prop (Sample.note "T" "text") f) = false
             -> get_prop note f = d).
Proof.
  apply (createNote_fills_defaults Sample.opened (Sample.note "T" "text")).
  - exact ready_opened.
  - reflexivity.
Defined.

(** * Further properties of the code

    What the code shows beyond the claims: failures and edge cases of the
    operations, what they leave alone, round trips, and the invariants of
    the stores. *)

(* ===================================================================== *)
(** ** The entity store *)
(* ===================================================================== *)

Lemma set_stores_set_stores s m m' : set_stores (set_stores s m) m' = set_stores s m'.
Proof. reflexivity. Qed.

Lemma record_at_insert_store s m storeName st k :
  record_at (set_stores s (<[storeName := st]> m)) storeName k = records st !! k.
Proof. unfold record_at. simpl. by rewrite lookup_insert_eq. Qed.

(** X1.  With the connection closed, every operation of the entity store
    fails with [DATABASE_OPEN_FAILED] before it does anything: no store
    is touched, no date and no id is drawn. *)
Theorem closed_connection_refuses s storeName id data updates options :
  connected s = false ->
  refused (IndexedDBStorage.get storeName id) s
  /\ refused (IndexedDBStorage.getAll storeName options) s
  /\ refused (IndexedDBStorage.create storeName data) s
  /\ refused (IndexedDBStorage.update storeName id updates) s
  /\ refused (IndexedDBStorage.delete storeName id) s
  /\ refused (IndexedDBStorage.clear storeName) s
  /\ refused IndexedDBStorage.getStats s.
Proof.
  intros H.
  unfold refused, IndexedDBStorage.get, IndexedDBStorage.getAll,
    IndexedDBStorage.create, IndexedDBStorage.update, IndexedDBStorage.delete,
    IndexedDBStorage.clear, IndexedDBStorage.getStats, bind,
    IndexedDBStorage.require_db.
  rewrite H. repeat split.
Qed.

Lemma closed_connection_refuses_witness :
  refused (IndexedDBStorage.get "notes" "u0") Sample.browser
  /\ refused (IndexedDBStorage.getAll "notes" IndexedDBStorage.no_options) Sample.browser
  /\ refused (IndexedDBStorage.create "notes" ∅) Sample.browser
  /\ refused (IndexedDBStorage.update "notes" "u0" ∅) Sample.browser
  /\ refused (IndexedDBStorage.delete "notes" "u0") Sample.browser
  /\ refused (IndexedDBStorage.clear "notes") Sample.browser
  /\ refused IndexedDBStorage.getStats Sample.browser.
Proof.
  apply (closed_connection_refuses Sample.browser "notes" "u0" ∅ ∅
           IndexedDBStorage.no_options).
  reflexivity.
Defined.

(** X2.  What [create] returned is what [get] then finds under the id of
    the entity; the id was not in use; the entity has the fields of the
    data, but for the four the store sets itself, and its two dates are
    the same; no other record and no other store has changed. *)
Theorem create_then_get s storeName data entity s' :
  IndexedDBStorage.create storeName data s = (Ok entity, s') ->
  exists st id,
    idb_stores s !! storeName = Some st
    /\ get_prop entity (keyPath st) = VStr id
    /\ IndexedDBStorage.get storeName id s' = (Ok (Some entity), s')
    /\ record_at s storeName id = None
    /\ (forall k, k <> id -> record_at s' storeName k = record_at s storeName k)
    /\ (forall n, n <> storeName -> idb_stores s' !! n = idb_stores s !! n)
    /\ (forall f, f ∉ system_fields -> entity !! f = data !! f)
    /\ get_prop entity "createdAt" = get_prop entity "updatedAt".
Proof.
  intros H.
  destruct (create_ok _ _ _ _ _ H) as (st & k & Hc & Hst & He & Hk & Hnone & Hu & Hs').
  exists st, k.
  split; [done|]. split; [done|].
  split.
  { rewrite (get_step s' storeName (set_records st (<[k := entity]> (records st)))).
    - simpl. by rewrite lookup_insert_eq.
    - by rewrite Hs'.
    - rewrite Hs'. simpl. by rewrite lookup_insert_eq. }
  split.
  { unfold record_at. by rewrite Hst. }
  split.
  { intros k' Hk'. rewrite Hs'. rewrite record_at_insert_store. simpl.
    unfold record_at. simpl. rewrite Hst. by rewrite lookup_insert_ne. }
  split.
  { intros n Hn. rewrite Hs'. simpl. by rewrite lookup_insert_ne. }
  split.
  { intros f Hf. rewrite He. unfold entity_of.
    unfold system_fields in Hf.
    rewrite !lookup_insert_ne; [done|..];
      intros Heq; apply Hf; rewrite <- Heq; set_solver. }
  rewrite He. unfold entity_of, get_prop. by simplify_map_eq.
Qed.

Lemma create_then_get_witness :
  exists st id,
    idb_stores Sample.opened !! "notes" = Some st
    /\ get_prop (returned ∅ sample_create) (keyPath st) = VStr id
    /\ IndexedDBStorage.get "notes" id (snd sample_create)
       = (Ok (Some (returned ∅ sample_create)), snd sample_create)
    /\ record_at Sample.opened "notes" id = None
    /\ (forall k, k <> id ->
          record_at (snd sample_create) "notes" k = record_at Sample.opened "notes" k)
    /\ (forall n, n <> "notes" ->
          idb_stores (snd sample_create) !! n = idb_stores Sample.opened !! n)
    /\ (forall f, f ∉ system_fields ->
          returned ∅ sample_create !! f = Sample.note "A" "a" !! f)
    /\ get_prop (returned ∅ sample_create) "createdAt"
       = get_prop (returned ∅ sample_create) "updatedAt".
Proof.
  apply (create_then_get Sample.opened "notes" (Sample.note "A" "a")
           (returned ∅ sample_create) (snd sample_create)).
  apply (run_succeeded ∅ sample_create). reflexivity.
Defined.

(** X3.  When the id drawn is already the key of a record, [create] fails
    with [TRANSACTION_FAILED]; the date and the id are used up, the stores
    are as they were. *)
Theorem create_on_taken_id_fails s storeName st data :
  connected s = true ->
  idb_stores s !! storeName = Some st ->
  keyPath st = "id" ->
  is_Some (records st !! upcoming (uuids s)) ->
  IndexedDBStorage.create storeName data s
  = (Err (StorageError TRANSACTION_FAILED), date_and_id_drawn s).
Proof.
  intros Hc Hst Hk [r Hr].
  rewrite (create_step s storeName st Hc Hst). cbv zeta.
  unfold store_add, primary_key. rewrite Hk, id_of_entity, Hr. done.
Qed.

Lemma create_on_taken_id_fails_witness :
  IndexedDBStorage.create "notes" ∅ one_note_again
  = (Err (StorageError TRANSACTION_FAILED), date_and_id_drawn one_note_again).
Proof.
  apply (create_on_taken_id_fails one_note_again "notes" one_note_store ∅).
  - reflexivity.
  - reflexivity.
  - reflexivity.
  - exists (returned ∅ (BrainStorage.createNote (Sample.note "T" "text")
                          Sample.opened)).
    reflexivity.
Defined.

Lemma delete_frame s storeName st id :
  connected s = true ->
  idb_stores s !! storeName = Some st ->
  exists s',
    IndexedDBStorage.delete storeName id s = (Ok tt, s')
    /\ record_at s' storeName id = None
    /\ (forall k, k <> id -> record_at s' storeName k = record_at s storeName k)
    /\ (forall n, n <> storeName -> idb_stores s' !! n = idb_stores s !! n)
    /\ IndexedDBStorage.delete storeName id s' = (Ok tt, s').
Proof.
  intros Hc Hst. eexists. split; [apply (delete_step s storeName st Hc Hst)|].
  split.
  { rewrite record_at_insert_store. simpl. apply lookup_delete_eq. }
  split.
  { intros k Hk. rewrite record_at_insert_store. simpl.
    unfold record_at. rewrite Hst. by rewrite lookup_delete_ne. }
  split.
  { intros n Hn. simpl. by rewrite lookup_insert_ne. }
  rewrite (delete_step _ storeName (store_delete st id)).
  - rewrite set_stores_set_stores. simpl. rewrite insert_insert_eq.
    unfold store_delete at 1. simpl. by rewrite delete_delete_eq.
  - done.
  - simpl. by rewrite lookup_insert_eq.
Qed.

(** X4.  [delete] succeeds whether or not the record exists; afterwards
    the id is free, no other record and no other store has changed, and a
    second [delete] changes nothing at all. *)
Theorem delete_removes_one_record s storeName st id :
  connected s = true ->
  idb_stores s !! storeName = Some st ->
  exists s',
    IndexedDBStorage.delete storeName id s = (Ok tt, s')
    /\ record_at s' storeName id = None
    /\ (forall k, k <> id -> record_at s' storeName k = record_at s storeName k)
    /\ (forall n, n <> storeName -> idb_stores s' !! n = idb_stores s !! n)
    /\ IndexedDBStorage.delete storeName id s' = (Ok tt, s').
Proof. apply delete_frame. Qed.

Lemma delete_removes_one_record_witness :
  exists s',
    IndexedDBStorage.delete "notes" "u0" one_note = (Ok tt, s')
    /\ record_at s' "notes" "u0" = None
    /\ (forall k, k <> "u0" -> record_at s' "notes" k = record_at one_note "notes" k)
    /\ (forall n, n <> "notes" -> idb_stores s' !! n = idb_stores one_note !! n)
    /\ IndexedDBStorage.delete "notes" "u0" s' = (Ok tt, s').
Proof.
  apply (delete_removes_one_record one_note "notes" one_note_store "u0").
  - reflexivity.
  - reflexivity.
Defined.

(** X5.  An update by a patch that leaves the id alone rewrites the one
    record: [get] then finds what [update] returned, under the same id;
    a field of the patch has the value of the patch, any other field but
    [updatedAt] and [sync] the stored value; no other record and no other
    store has changed. *)
Theorem update_rewrites_one_record s storeName st id updates updated s' :
  idb_stores s !! storeName = Some st ->
  keyPath st = "id" ->
  keyed st ->
  keeps_id id updates ->
  IndexedDBStorage.update storeName id updates s = (Ok updated, s') ->
  IndexedDBStorage.get storeName id s' = (Ok (Some updated), s')
  /\ get_prop updated "id" = VStr id
  /\ (forall f v, f <> "sync" -> f <> "updatedAt" ->
        updates !! f = Some v -> updated !! f = Some v)
  /\ (forall f, f <> "sync" -> f <> "updatedAt" ->
        updates !! f = None ->
        Some (updated !! f) = (fun current : obj => current !! f) <$> records st !! id)
  /\ (forall k, k <> id -> record_at s' storeName k = record_at s storeName k)
  /\ (forall n, n <> storeName -> idb_stores s' !! n = idb_stores s !! n).
Proof.
  intros Hst Hkp Hkeyed Hid H.
  destruct (update_ok _ _ _ _ _ _ H)
    as (st0 & current & so & v & k & Hc & Hst0 & Hcur & Hsync & Hv & Hupd & Hk & Hu & Hs').
  rewrite Hst in Hst0. injection Hst0 as <-.
  assert (Hidu : get_prop updated "id" = VStr id).
  { rewrite Hupd. unfold get_prop. rewrite merged_field by done.
    destruct Hid as [-> | ->]; [|done].
    specialize (Hkeyed _ _ Hcur). rewrite Hkp in Hkeyed. exact Hkeyed. }
  assert (k = id) as ->.
  { rewrite Hkp, Hidu in Hk. by injection Hk. }
  split.
  { rewrite (get_step s' storeName (set_records st (<[id := updated]> (records st)))).
    - simpl. by rewrite lookup_insert_eq.
    - by rewrite Hs'.
    - rewrite Hs'. simpl. by rewrite lookup_insert_eq. }
  split; [done|].
  split.
  { intros f x Hf1 Hf2 Hf. rewrite Hupd, merged_field by done. by rewrite Hf. }
  split.
  { intros f Hf1 Hf2 Hf. rewrite Hcur. simpl.
    rewrite Hupd, merged_field by done. by rewrite Hf. }
  split.
  { intros k Hk'. rewrite Hs', record_at_insert_store. simpl.
    unfold record_at. rewrite Hst. by rewrite lookup_insert_ne. }
  intros n Hn. rewrite Hs'. simpl. by rewrite lookup_insert_ne.
Qed.

Lemma update_rewrites_one_record_witness :
  IndexedDBStorage.get "notes" "u0" (snd pin_run)
  = (Ok (Some (returned ∅ pin_run)), snd pin_run)
  /\ get_prop (returned ∅ pin_run) "id" = VStr "u0"
  /\ (forall f v, f <> "sync" -> f <> "updatedAt" ->
        pin !! f = Some v -> returned ∅ pin_run !! f = Some v)
  /\ (forall f, f <> "sync" -> f <> "updatedAt" ->
        pin !! f = None ->
        Some (returned ∅ pin_run !! f)
        = (fun current : obj => current !! f) <$> records one_note_store !! "u0")
  /\ (forall k, k <> "u0" ->
        record_at (snd pin_run) "notes" k = record_at one_note "notes" k)
  /\ (forall n, n <> "notes" ->
        idb_stores (snd pin_run) !! n = idb_stores one_note !! n).
Proof.
  apply (update_rewrites_one_record one_note "notes" one_note_store "u0" pin
           (returned ∅ pin_run) (snd pin_run)).
  - reflexivity.
  - reflexivity.
  - apply keyed_b_sound. reflexivity.
  - left. reflexivity.
  - apply (run_succeeded ∅ pin_run). reflexivity.
Defined.

(** *** Pages of [getAll] *)

Lemma cursor_loop_sublist options cursor :
  forall count, sublist (IndexedDBStorage.cursor_loop options cursor count []) cursor.
Proof.
  induction cursor as [|v rest IH]; intros count; simpl; [constructor|].
  destruct (IndexedDBStorage.within_limit options count); [|apply sublist_nil_l].
  destruct (IndexedDBStorage.past_offset options count).
  - rewrite cursor_loop_acc. simpl. apply sublist_skip, IH.
  - apply sublist_cons, IH.
Qed.

Lemma cursor_loop_bounded options cursor n :
  IndexedDBStorage.limit options = Some n -> n <> 0 ->
  forall count, 0 <= count ->
    Z.of_nat (List.length (IndexedDBStorage.cursor_loop options cursor count []))
    <= Z.max (n - count) 0.
Proof.
  intros Hl Hn. induction cursor as [|v rest IH]; intros count Hc; simpl; [lia|].
  unfold IndexedDBStorage.within_limit. rewrite Hl.
  destruct (n =? 0) eqn:E0; [lia|]. simpl.
  destruct (count <? n) eqn:E; [|simpl; lia].
  specialize (IH (count + 1) ltac:(lia)).
  destruct (IndexedDBStorage.past_offset options count).
  - rewrite cursor_loop_acc. simpl. lia.
  - lia.
Qed.

Lemma cursor_loop_first options cursor n :
  IndexedDBStorage.limit options = Some n -> n <> 0 ->
  truthy_num (IndexedDBStorage.offset options) = false ->
  forall count, 0 <= count ->
    IndexedDBStorage.cursor_loop options cursor count []
    = take (Z.to_nat (n - count)) cursor.
Proof.
  intros Hl Hn Ho.
  assert (Hp : forall c, IndexedDBStorage.past_offset options c = true).
  { intros c. unfold IndexedDBStorage.past_offset.
    destruct (IndexedDBStorage.offset options) as [o|]; [|done].
    simpl in Ho. apply negb_false_iff in Ho. by rewrite Ho. }
  induction cursor as [|v rest IH]; intros count Hc; simpl.
  { by rewrite take_nil. }
  unfold IndexedDBStorage.within_limit. rewrite Hl, Hp.
  destruct (n =? 0) eqn:E0; [lia|]. simpl.
  destruct (count <? n) eqn:E.
  - rewrite cursor_loop_acc, IH by lia. simpl.
    replace (Z.to_nat (n - count)) with (S (Z.to_nat (n - (count + 1)))) by lia.
    done.
  - replace (Z.to_nat (n - count)) with 0%nat by lia. done.
Qed.

Lemma cursor_loop_rest options cursor n :
  IndexedDBStorage.offset options = Some n ->
  truthy_num (IndexedDBStorage.limit options) = false ->
  forall count, 0 <= count ->
    IndexedDBStorage.cursor_loop options cursor count []
    = drop (Z.to_nat (n - count)) cursor.
Proof.
  intros Ho Hl.
  assert (Hw : forall c, IndexedDBStorage.within_limit options c = true).
  { intros c. unfold IndexedDBStorage.within_limit.
    destruct (IndexedDBStorage.limit options) as [l|]; [|done].
    simpl in Hl. apply negb_false_iff in Hl. by rewrite Hl. }
  induction cursor as [|v rest IH]; intros count Hc; simpl.
  { by rewrite drop_nil. }
  rewrite Hw. unfold IndexedDBStorage.past_offset. rewrite Ho.
  destruct (n =? 0) eqn:E0; simpl.
  - rewrite cursor_loop_acc, IH by lia.
    replace (Z.to_nat (n - count)) with 0%nat by lia.
    replace (Z.to_nat (n - (count + 1))) with 0%nat by lia. done.
  - destruct (n <=? count) eqn:E.
    + rewrite cursor_loop_acc, IH by lia.
      replace (Z.to_nat (n - count)) with 0%nat by lia.
      replace (Z.to_nat (n - (count + 1))) with 0%nat by lia. done.
    + rewrite IH by lia.
      replace (Z.to_nat (n - count)) with (S (Z.to_nat (n - (count + 1)))) by lia.
      done.
Qed.

Lemma cursor_loop_everything options cursor :
  truthy_num (IndexedDBStorage.limit options) = false ->
  truthy_num (IndexedDBStorage.offset options) = false ->
  forall count, IndexedDBStorage.cursor_loop options cursor count [] = cursor.
Proof.
  intros Hl Ho.
  assert (Hw : forall c, IndexedDBStorage.within_limit options c = true).
  { intros c. unfold IndexedDBStorage.within_limit.
    destruct (IndexedDBStorage.limit options) as [l|]; [|done].
    simpl in Hl. apply negb_false_iff in Hl. by rewrite Hl. }
  assert (Hp : forall c, IndexedDBStorage.past_offset options c = true).
  { intros c. unfold IndexedDBStorage.past_offset.
    destruct (IndexedDBStorage.offset options) as [o|]; [|done].
    simpl in Ho. apply negb_false_iff in Ho. by rewrite Ho. }
  induction cursor as [|v rest IH]; intros count; simpl; [done|].
  rewrite Hw, Hp, cursor_loop_acc, IH. done.
Qed.

(** X6.  Without an index, [getAll] returns a subsequence of what the
    cursor over the store yields, in the cursor's order.  A limit other than 0
    bounds their number, and a negative one leaves none; a limit alone
    gives the first records, an offset alone the records after the first
    ones; a limit or an offset of 0 counts as not given. *)
Theorem getAll_returns_a_page s storeName st options :
  connected s = true ->
  idb_stores s !! storeName = Some st ->
  IndexedDBStorage.index options = None ->
  exists rs,
    IndexedDBStorage.getAll storeName options s = (Ok rs, s)
    /\ sublist rs (store_cursor st (IndexedDBStorage.direction options))
    /\ (forall n, IndexedDBStorage.limit options = Some n -> n <> 0 ->
          Z.of_nat (List.length rs) <= Z.max n 0)
    /\ (forall n, IndexedDBStorage.limit options = Some n -> n <> 0 ->
          truthy_num (IndexedDBStorage.offset options) = false ->
          rs = take (Z.to_nat n) (store_cursor st (IndexedDBStorage.direction options)))
    /\ (forall n, IndexedDBStorage.offset options = Some n ->
          truthy_num (IndexedDBStorage.limit options) = false ->
          rs = drop (Z.to_nat n) (store_cursor st (IndexedDBStorage.direction options)))
    /\ (truthy_num (IndexedDBStorage.limit options) = false ->
        truthy_num (IndexedDBStorage.offset options) = false ->
        rs = store_cursor st (IndexedDBStorage.direction options)).
Proof.
  intros Hc Hst Hix. eexists. split.
  { rewrite (getAll_step s storeName st Hc Hst), Hix. reflexivity. }
  split; [apply cursor_loop_sublist|].
  split.
  { intros n Hl Hn.
    pose proof (cursor_loop_bounded options
                  (store_cursor st (IndexedDBStorage.direction options)) n Hl Hn 0
                  ltac:(lia)) as H.
    by rewrite Z.sub_0_r in H. }
  split.
  { intros n Hl Hn Ho. rewrite (cursor_loop_first options _ n Hl Hn Ho 0) by lia.
    by rewrite Z.sub_0_r. }
  split.
  { intros n Ho Hl. rewrite (cursor_loop_rest options _ n Ho Hl 0) by lia.
    by rewrite Z.sub_0_r. }
  intros Hl Ho. by apply cursor_loop_everything.
Qed.

Lemma getAll_returns_a_page_witness :
  exists rs,
    IndexedDBStorage.getAll "notes" first_two one_note = (Ok rs, one_note)
    /\ sublist rs (store_cursor one_note_store (IndexedDBStorage.direction first_two))
    /\ (forall n, IndexedDBStorage.limit first_two = Some n -> n <> 0 ->
          Z.of_nat (List.length rs) <= Z.max n 0)
    /\ (forall n, IndexedDBStorage.limit first_two = Some n -> n <> 0 ->
          truthy_num (IndexedDBStorage.offset first_two) = false ->
          rs = take (Z.to_nat n)
                 (store_cursor one_note_store (IndexedDBStorage.direction first_two)))
    /\ (forall n, IndexedDBStorage.offset first_two = Some n ->
          truthy_num (IndexedDBStorage.limit first_two) = false ->
          rs = drop (Z.to_nat n)
                 (store_cursor one_note_store (IndexedDBStorage.direction first_two)))
    /\ (truthy_num (IndexedDBStorage.limit first_two) = false ->
        truthy_num (IndexedDBStorage.offset first_two) = false ->
        rs = store_cursor one_note_store (IndexedDBStorage.direction first_two)).
Proof.
  apply (getAll_returns_a_page one_note "notes" one_note_store first_two).
  - reflexivity.
  - reflexivity.
  - reflexivity.
Defined.

(** *** Clearing and counting *)

Lemma clear_step s storeName st :
  connected s = true ->
  idb_stores s !! storeName = Some st ->
  IndexedDBStorage.clear storeName s
  = (Ok tt, set_stores s (<[storeName := store_clear st]> (idb_stores s))).
Proof.
  intros Hc Hst.
  unfold IndexedDBStorage.clear, bind, IndexedDBStorage.require_db,
    IndexedDBStorage.objectStore, IndexedDBStorage.commit.
  by rewrite Hc, Hst.
Qed.

Lemma getStats_step s :
  connected s = true ->
  IndexedDBStorage.getStats s
  = (Ok ((fun st => VNum (Z.of_nat (size (records st)))) <$> idb_stores s), s).
Proof.
  intros Hc. unfold IndexedDBStorage.getStats, bind, IndexedDBStorage.require_db.
  by rewrite Hc.
Qed.

Lemma keyed_clear st : keyed (store_clear st).
Proof. intros k r H. simpl in H. by rewrite lookup_empty in H. Qed.

(** X7.  In a state in which the facade can be used, [clearAllData]
    succeeds and leaves the three stores empty, each with its key path and
    its indexes, so that the state can still be used; a store of another
    name is not touched; [getStats] then counts 0 in each of the three. *)
Theorem clearAllData_empties_the_stores s :
  ready s ->
  exists s' stats,
    BrainStorage.clearAllData s = (Ok tt, s')
    /\ ready s'
    /\ Forall (fun n => stored s' n = Some ∅) cleared_stores
    /\ (forall n, n ∉ cleared_stores -> idb_stores s' !! n = idb_stores s !! n)
    /\ BrainStorage.getStats s' = (Ok stats, s')
    /\ Forall (fun n => get_prop stats n = VNum 0) cleared_stores.
Proof.
  intros [Hc Hcfg Hkeyed].
  destruct (configured_stores s Hcfg)
    as ((sn & Hn & Hnk & Hni) & (stg & Ht & Htk & Hti) & (sb & Hb & Hbk & Hbi)).
  set (s1 := set_stores s (<["notes" := store_clear sn]> (idb_stores s))).
  set (s2 := set_stores s1 (<["tags" := store_clear stg]> (idb_stores s1))).
  set (s3 := set_stores s2 (<["backlinks" := store_clear sb]> (idb_stores s2))).
  exists s3, ((fun st => VNum (Z.of_nat (size (records st)))) <$> idb_stores s3).
  assert (Hrun : BrainStorage.clearAllData s = (Ok tt, s3)).
  { unfold BrainStorage.clearAllData. simpl. unfold bind at 1.
    rewrite (clear_step s "notes" sn Hc Hn). fold s1.
    unfold bind at 1.
    rewrite (clear_step s1 "tags" stg); [|done|].
    2:{ subst s1. simpl. by rewrite lookup_insert_ne. }
    fold s2. unfold bind at 1.
    rewrite (clear_step s2 "backlinks" sb); [|done|].
    2:{ subst s2 s1. simpl. by rewrite !lookup_insert_ne. }
    reflexivity. }
  split; [exact Hrun|].
  split.
  { split.
    - done.
    - unfold configured, BrainStorage.config, has_store. subst s3 s2 s1. simpl.
      apply Forall_cons_2; [|apply Forall_cons_2; [|apply Forall_cons_2; [|apply Forall_nil_2]]].
      + exists (store_clear sn). simpl. rewrite !lookup_insert_ne by done; by rewrite lookup_insert_eq.
      + exists (store_clear stg). simpl. rewrite lookup_insert_ne by done; by rewrite lookup_insert_eq.
      + exists (store_clear sb). simpl. by rewrite lookup_insert_eq.
    - intros name st Hst. subst s3 s2 s1. simpl in Hst.
      destruct (decide (name = "backlinks")) as [->|Hn1].
      { rewrite lookup_insert_eq in Hst. injection Hst as <-. apply keyed_clear. }
      rewrite lookup_insert_ne in Hst by done.
      destruct (decide (name = "tags")) as [->|Hn2].
      { rewrite lookup_insert_eq in Hst. injection Hst as <-. apply keyed_clear. }
      rewrite lookup_insert_ne in Hst by done.
      destruct (decide (name = "notes")) as [->|Hn3].
      { rewrite lookup_insert_eq in Hst. injection Hst as <-. apply keyed_clear. }
      rewrite lookup_insert_ne in Hst by done.
      by apply (Hkeyed name). }
  split.
  { unfold cleared_stores, stored. subst s3 s2 s1. simpl.
    apply Forall_cons_2; [|apply Forall_cons_2; [|apply Forall_cons_2; [|apply Forall_nil_2]]].
    - rewrite !lookup_insert_ne by done; by rewrite lookup_insert_eq.
    - rewrite lookup_insert_ne by done; by rewrite lookup_insert_eq.
    - by rewrite lookup_insert_eq. }
  split.
  { intros n Hn'. unfold cleared_stores in Hn'. subst s3 s2 s1. simpl.
    rewrite !lookup_insert_ne; [done|..]; intros Heq; apply Hn'; rewrite <- Heq;
      set_solver. }
  split.
  { unfold BrainStorage.getStats. by apply getStats_step. }
  unfold cleared_stores, get_prop. subst s3 s2 s1. simpl.
  apply Forall_cons_2; [|apply Forall_cons_2; [|apply Forall_cons_2; [|apply Forall_nil_2]]].
  - rewrite lookup_fmap, !lookup_insert_ne by done; by rewrite lookup_insert_eq.
  - rewrite lookup_fmap, lookup_insert_ne by done; by rewrite lookup_insert_eq.
  - by rewrite lookup_fmap, lookup_insert_eq.
Qed.

Lemma clearAllData_empties_the_stores_witness :
  exists s' stats,
    BrainStorage.clearAllData one_note = (Ok tt, s')
    /\ ready s'
    /\ Forall (fun n => stored s' n = Some ∅) cleared_stores
    /\ (forall n, n ∉ cleared_stores -> idb_stores s' !! n = idb_stores one_note !! n)
    /\ BrainStorage.getStats s' = (Ok stats, s')
    /\ Forall (fun n => get_prop stats n = VNum 0) cleared_stores.
Proof.
  apply (clearAllData_empties_the_stores one_note).
  apply ready_b_sound. reflexivity.
Defined.

(** X8.  A successful [create] raises the count [getStats] gives for the
    store by one and leaves the counts of the other stores as they were. *)
Theorem create_counts_one_more s storeName data entity s' :
  IndexedDBStorage.create storeName data s = (Ok entity, s') ->
  exists stats stats' n,
    IndexedDBStorage.getStats s = (Ok stats, s)
    /\ IndexedDBStorage.getStats s' = (Ok stats', s')
    /\ get_prop stats storeName = VNum n
    /\ get_prop stats' storeName = VNum (n + 1)
    /\ (forall other, other <> storeName -> stats' !! other = stats !! other).
Proof.
  intros H.
  destruct (create_ok _ _ _ _ _ H) as (st & k & Hc & Hst & He & Hk & Hnone & Hu & Hs').
  exists ((fun st => VNum (Z.of_nat (size (records st)))) <$> idb_stores s),
         ((fun st => VNum (Z.of_nat (size (records st)))) <$> idb_stores s'),
         (Z.of_nat (size (records st))).
  split; [by apply getStats_step|].
  split; [apply getStats_step; by rewrite Hs'|].
  split.
  { unfold get_prop. by rewrite lookup_fmap, Hst. }
  split.
  { unfold get_prop. rewrite lookup_fmap, Hs'. simpl. rewrite lookup_insert_eq. simpl.
    rewrite map_size_insert_None by done. f_equal. lia. }
  intros other Ho. rewrite !lookup_fmap, Hs'. simpl. by rewrite lookup_insert_ne.
Qed.

Lemma create_counts_one_more_witness :
  exists stats stats' n,
    IndexedDBStorage.getStats Sample.opened = (Ok stats, Sample.opened)
    /\ IndexedDBStorage.getStats (snd sample_create) = (Ok stats', snd sample_create)
    /\ get_prop stats "notes" = VNum n
    /\ get_prop stats' "notes" = VNum (n + 1)
    /\ (forall other, other <> "notes" -> stats' !! other = stats !! other).
Proof.
  apply (create_counts_one_more Sample.opened "notes" (Sample.note "A" "a")
           (returned ∅ sample_create) (snd sample_create)).
  apply (run_succeeded ∅ sample_create). reflexivity.
Defined.

(** *** Opening the database *)

Lemma create_indexes_ok keyPath (rest : list IndexConfig) :
  forall created,
    NoDup (ix_name <$> (created ++ rest)%list) ->
    Forall (fun ix => one_identifier (ix_keyPath ix) = true) rest ->
    foldl (fun store index =>
             match store with
             | Ok st => create_index st index
             | Err e => Err e
             end)
          (Ok (mkStore keyPath created ∅)) rest
    = Ok (mkStore keyPath (created ++ rest)%list ∅).
Proof.
  induction rest as [|ix rest IH]; intros created Hnd Hp; simpl.
  { by rewrite app_nil_r. }
  apply Forall_cons in Hp as [Hix Hp].
  unfold create_index at 2. simpl.
  destruct (existsb (fun ix0 => String.eqb (ix_name ix0) (ix_name ix)) created) eqn:E.
  { exfalso. apply existsb_exists in E as (x & Hin & Heq).
    apply String.eqb_eq in Heq. apply list_elem_of_In in Hin.
    rewrite fmap_app in Hnd. apply NoDup_app in Hnd as (_ & Hno & _).
    apply (Hno (ix_name x)).
    - apply list_elem_of_fmap. by exists x.
    - rewrite Heq. simpl. left. }
  rewrite Hix.
  rewrite (IH (created ++ [ix])%list); [by rewrite <- app_assoc| |done].
  by rewrite <- app_assoc.
Qed.

Lemma create_store_ok sc :
  declarable sc ->
  create_store sc = Ok (mkStore (sc_keyPath sc) (sc_indices sc) ∅).
Proof.
  intros [Hk Hnd Hp]. unfold create_store. rewrite Hk.
  by apply (create_indexes_ok (sc_keyPath sc) (sc_indices sc) []).
Qed.

Lemma createObjectStores_spec config :
  Forall declarable (cfg_stores config) ->
  forall db,
    exists db',
      IndexedDBStorage.createObjectStores config db = Ok db'
      /\ db ⊆ db'
      /\ (forall n st,
            db' !! n = Some st ->
            db !! n = None ->
            records st = ∅
            /\ exists sc, sc ∈ cfg_stores config /\ sc_name sc = n
                          /\ keyPath st = sc_keyPath sc /\ indices st = sc_indices sc)
      /\ (forall sc, sc ∈ cfg_stores config -> is_Some (db' !! sc_name sc)).
Proof.
  unfold IndexedDBStorage.createObjectStores.
  induction (cfg_stores config) as [|sc l IH]; intros Hd db; simpl.
  { exists db. split; [done|]. split; [done|]. split.
    - intros n st H1 H2. congruence.
    - intros sc H. by apply elem_of_nil in H. }
  apply Forall_cons in Hd as [Hsc Hd].
  set (db1 := match db !! sc_name sc with
              | Some _ => db
              | None => <[sc_name sc := mkStore (sc_keyPath sc) (sc_indices sc) ∅]> db
              end).
  assert (Hstep : match db !! sc_name sc with
                  | Some _ => Ok db
                  | None =>
                      match create_store sc with
                      | Ok store => Ok (<[sc_name sc := store]> db)
                      | Err e => Err e
                      end
                  end = Ok db1).
  { subst db1. rewrite (create_store_ok sc Hsc). by destruct (db !! sc_name sc). }
  rewrite Hstep.
  destruct (IH Hd db1) as (db' & Hrun & Hsub & Hnew & Hall).
  exists db'. split; [exact Hrun|].
  assert (Hdb1 : db ⊆ db1).
  { subst db1. destruct (db !! sc_name sc) eqn:E; [done|]. by apply insert_subseteq. }
  split; [by etrans|].
  split.
  - intros n st H1 H2.
    destruct (db1 !! n) as [st1|] eqn:E1.
    + assert (st1 = st) as ->.
      { pose proof (lookup_weaken _ _ _ _ E1 Hsub). congruence. }
      subst db1. destruct (db !! sc_name sc) eqn:E; [congruence|].
      destruct (decide (sc_name sc = n)) as [Heq|Hne].
      * rewrite <- Heq, lookup_insert_eq in E1. injection E1 as <-.
        split; [done|]. exists sc. split; [left|done].
      * rewrite lookup_insert_ne in E1 by done. congruence.
    + destruct (Hnew n st H1 E1) as (Hr & sc' & Hin & Hrest).
      split; [done|]. exists sc'. split; [by right|done].
  - intros sc' Hin. apply elem_of_cons in Hin as [->|Hin]; [|by apply Hall].
    assert (is_Some (db1 !! sc_name sc)) as [x Hx].
    { subst db1. destruct (db !! sc_name sc) eqn:E; [by eexists|].
      rewrite lookup_insert_eq. by eexists. }
    exists x. by apply (lookup_weaken _ _ _ _ Hx Hsub).
Qed.

(** X9.  [initialize] on a configuration whose key paths are one
    identifier each and whose stores repeat no index name, at a version
    from 1 up that is not below the stored one, and with the connection
    closed when the version is raised: it succeeds, connects and sets the
    version.  Every store the database had is kept as it was, with its
    records, its key path and its indexes, whatever the configuration
    declares for it; a store that is new is empty and as the configuration
    declares it, and appears in an upgrade only; after an upgrade every
    declared store exists. *)
Theorem initialize_keeps_the_stores config s :
  0 < cfg_version config < 2 ^ 53 ->
  idb_version s <= cfg_version config ->
  (idb_version s < cfg_version config -> connected s = false) ->
  Forall declarable (cfg_stores config) ->
  exists s',
    IndexedDBStorage.initialize config s = (Ok tt, s')
    /\ connected s' = true
    /\ idb_version s' = cfg_version config
    /\ idb_stores s ⊆ idb_stores s'
    /\ (forall n st,
          idb_stores s' !! n = Some st -> idb_stores s !! n = None ->
          idb_version s < cfg_version config
          /\ records st = ∅
          /\ exists sc, sc ∈ cfg_stores config /\ sc_name sc = n
                        /\ keyPath st = sc_keyPath sc /\ indices st = sc_indices sc)
    /\ (idb_version s < cfg_version config ->
        forall sc, sc ∈ cfg_stores config -> is_Some (idb_stores s' !! sc_name sc)).
Proof.
  intros Hpos Hv Hclosed Hd. unfold IndexedDBStorage.initialize.
  destruct (cfg_version config <? 1) eqn:E1; [lia|].
  destruct (2 ^ 53 <=? cfg_version config) eqn:E2; [lia|]. simpl orb. cbv iota.
  destruct (cfg_version config <? idb_version s) eqn:E; [lia|].
  destruct (idb_version s <? cfg_version config) eqn:E'.
  - rewrite Hclosed by lia.
    destruct (createObjectStores_spec config Hd (idb_stores s))
      as (db' & Hrun & Hsub & Hnew & Hall).
    rewrite Hrun. eexists. split; [reflexivity|]. simpl.
    split; [done|]. split; [done|]. split; [done|]. split.
    + intros n st H1 H2. split; [lia|]. by apply Hnew.
    + intros _. exact Hall.
  - eexists. split; [reflexivity|]. simpl.
    split; [done|]. split; [done|]. split; [done|]. split.
    + intros n st H1 H2. congruence.
    + lia.
Qed.

Lemma initialize_keeps_the_stores_witness :
  exists s',
    IndexedDBStorage.initialize next_config one_note_closed = (Ok tt, s')
    /\ connected s' = true
    /\ idb_version s' = cfg_version next_config
    /\ idb_stores one_note_closed ⊆ idb_stores s'
    /\ (forall n st,
          idb_stores s' !! n = Some st -> idb_stores one_note_closed !! n = None ->
          idb_version one_note_closed < cfg_version next_config
          /\ records st = ∅
          /\ exists sc, sc ∈ cfg_stores next_config /\ sc_name sc = n
                        /\ keyPath st = sc_keyPath sc /\ indices st = sc_indices sc)
    /\ (idb_version one_note_closed < cfg_version next_config ->
        forall sc, sc ∈ cfg_stores next_config -> is_Some (idb_stores s' !! sc_name sc)).
Proof.
  apply (initialize_keeps_the_stores next_config one_note_closed).
  - split; reflexivity.
  - vm_compute. discriminate.
  - intros _. reflexivity.
  - apply Forall_cons_2; [|apply Forall_cons_2; [|apply Forall_nil_2]].
    + split; [reflexivity|apply NoDup_nil_2|apply Forall_nil_2].
    + split; [reflexivity|apply NoDup_singleton|].
      apply Forall_cons_2; [reflexivity|apply Forall_nil_2].
Defined.

(** *** The unique index on the names of tags *)

Lemma unique_name_ok st k r n :
  indices st = BrainStorage.tags_indices ->
  unique_ok st k r = true ->
  get_prop r "name" = VStr n ->
  forall k' r', records st !! k' = Some r' -> get_prop r' "name" = VStr n -> k' = k.
Proof.
  intros Hix Hu Hn k' r' Hk' Hn'.
  unfold unique_ok in Hu. rewrite Hix in Hu. simpl in Hu.
  rewrite Hn in Hu. simpl in Hu.
  apply andb_true_iff in Hu as [Hu _].
  rewrite forallb_forall in Hu.
  specialize (Hu (k', r')). simpl in Hu.
  assert (Hin : In (k', r') (map_to_list (records st))).
  { apply list_elem_of_In. by apply elem_of_map_to_list. }
  specialize (Hu Hin). rewrite Hn' in Hu. simpl in Hu.
  rewrite String.eqb_refl in Hu. simpl in Hu.
  rewrite orb_false_r in Hu. by apply String.eqb_eq in Hu.
Qed.

Lemma distinct_names_insert s s' st k r :
  tags_ready s st ->
  distinct_names s ->
  unique_ok st k r = true ->
  idb_stores s' !! "tags" = Some (set_records st (<[k := r]> (records st))) ->
  distinct_names s'.
Proof.
  intros Hr Hd Hu Hs' k1 k2 r1 r2 n H1 H2 Hn1 Hn2.
  unfold record_at in H1, H2. rewrite Hs' in H1, H2. simpl in H1, H2.
  assert (Hold : forall k' r', records st !! k' = Some r' -> record_at s "tags" k' = Some r').
  { intros k' r' H. unfold record_at. by rewrite (tr_store _ _ Hr). }
  destruct (decide (k1 = k)) as [->|Hk1], (decide (k2 = k)) as [->|Hk2]; [done|..].
  - rewrite lookup_insert_eq in H1. injection H1 as <-.
    rewrite lookup_insert_ne in H2 by done.
    symmetry. by apply (unique_name_ok st k r n (tr_indices _ _ Hr) Hu Hn1 k2 r2).
  - rewrite lookup_insert_eq in H2. injection H2 as <-.
    rewrite lookup_insert_ne in H1 by done.
    by apply (unique_name_ok st k r n (tr_indices _ _ Hr) Hu Hn2 k1 r1).
  - rewrite lookup_insert_ne in H1, H2 by done.
    by apply (Hd k1 k2 r1 r2 n); [apply Hold|apply Hold|..].
Qed.

(** X10.  The unique index on [name] keeps the names of the stored tags
    distinct: when no two tags have the same name, no successful [create]
    and no successful [update] on the store of tags, whatever the data or
    the patch, leaves two tags of one name. *)
Theorem tag_names_stay_distinct s st :
  tags_ready s st ->
  distinct_names s ->
  (forall data entity s',
     IndexedDBStorage.create "tags" data s = (Ok entity, s') -> distinct_names s')
  /\ (forall id updates updated s',
        IndexedDBStorage.update "tags" id updates s = (Ok updated, s') ->
        distinct_names s').
Proof.
  intros Hr Hd. split.
  - intros data entity s' H.
    destruct (create_ok _ _ _ _ _ H) as (st0 & k & Hc & Hst & He & Hk & Hnone & Hu & Hs').
    rewrite (tr_store _ _ Hr) in Hst. injection Hst as <-.
    apply (distinct_names_insert s s' st k entity Hr Hd Hu).
    rewrite Hs'. simpl. by rewrite lookup_insert_eq.
  - intros id updates updated s' H.
    destruct (update_ok _ _ _ _ _ _ H)
      as (st0 & current & so & v & k & Hc & Hst & Hcur & Hsync & Hv & Hupd & Hk & Hu & Hs').
    rewrite (tr_store _ _ Hr) in Hst. injection Hst as <-.
    apply (distinct_names_insert s s' st k updated Hr Hd Hu).
    rewrite Hs'. simpl. by rewrite lookup_insert_eq.
Qed.

Lemma foo_Foo_ready : tags_ready foo_then_Foo foo_Foo_store.
Proof.
  split.
  - reflexivity.
  - reflexivity.
  - reflexivity.
  - reflexivity.
  - apply keyed_b_sound. reflexivity.
Qed.

Lemma distinct_names_of_two s st k1 k2 r1 r2 (n1 n2 : string) :
  idb_stores s !! "tags" = Some st ->
  records st = <[k1 := r1]> (<[k2 := r2]> ∅) ->
  get_prop r1 "name" = VStr n1 ->
  get_prop r2 "name" = VStr n2 ->
  n1 <> n2 ->
  distinct_names s.
Proof.
  intros Hst Hrec Hn1 Hn2 Hne k k' r r' n H H' Hn Hn'.
  unfold record_at in H, H'. rewrite Hst, Hrec in H, H'.
  assert (Hcase : forall k r, <[k1 := r1]> (<[k2 := r2]> (∅ : gmap string obj)) !! k = Some r ->
                              (k = k1 /\ r = r1) \/ (k = k2 /\ r = r2)).
  { intros x y Hx. apply lookup_insert_Some in Hx as [[? ?]|[_ Hx]]; [by left|].
    apply lookup_insert_Some in Hx as [[? ?]|[_ Hx]]; [by right|].
    by rewrite lookup_empty in Hx. }
  destruct (Hcase _ _ H) as [[-> ->]|[-> ->]], (Hcase _ _ H') as [[-> ->]|[-> ->]];
    try done; congruence.
Qed.

Lemma foo_Foo_distinct : distinct_names foo_then_Foo.
Proof.
  apply (distinct_names_of_two foo_then_Foo foo_Foo_store "u1" "u0"
           (returned ∅ (BrainStorage.createTag Foo (snd foo_run)))
           (returned ∅ foo_run) "Foo" "foo").
  - reflexivity.
  - reflexivity.
  - reflexivity.
  - reflexivity.
  - discriminate.
Qed.

(** The theorem on the store that holds the tags "foo" (u0) and "Foo"
    (u1): the creation of a tag "bar" and the renaming of u1 to "baz"
    both succeed, and each leaves three, respectively two, tags of
    distinct names. *)
Lemma tag_names_stay_distinct_witness :
  distinct_names foo_then_Foo
  /\ succeeded bar_run = true
  /\ distinct_names (snd bar_run)
  /\ succeeded baz_run = true
  /\ distinct_names (snd baz_run).
Proof.
  destruct (tag_names_stay_distinct foo_then_Foo foo_Foo_store foo_Foo_ready
              foo_Foo_distinct) as [Hcreate Hupdate].
  split; [exact foo_Foo_distinct|].
  split; [reflexivity|].
  split.
  { apply (Hcreate (<["name" := VStr "bar"]> ∅) (returned ∅ bar_run) (snd bar_run)).
    apply (run_succeeded ∅ bar_run). reflexivity. }
  split; [reflexivity|].
  apply (Hupdate "u1" (<["name" := VStr "baz"]> ∅) (returned ∅ baz_run) (snd baz_run)).
  apply (run_succeeded ∅ baz_run). reflexivity.
Defined.

(* ===================================================================== *)
(** ** The facade *)
(* ===================================================================== *)

Lemma strict_eq_string v t : strict_eq v (VStr t) = true <-> v = VStr t.
Proof.
  destruct v; simpl; try (split; [discriminate|intros; discriminate]).
  rewrite String.eqb_eq. split; [by intros ->|by intros [= ->]].
Qed.

Lemma filter_filter_bool {A} (f g : A -> bool) (l : list A) :
  List.filter g (List.filter f l) = List.filter (fun x => f x && g x) l.
Proof.
  induction l as [|x l IH]; simpl; [done|].
  destruct (f x); simpl; [|done]. destruct (g x); simpl; by rewrite IH.
Qed.

Lemma filter_all_true {A} (l : list A) : List.filter (fun _ => true) l = l.
Proof. induction l as [|x l IH]; simpl; by rewrite ?IH. Qed.

Lemma getAllNotes_flags s st d l o a p :
  connected s = true ->
  idb_stores s !! "notes" = Some st ->
  BrainStorage.getAllNotes (BrainStorage.mkNoteQuery d l o None a p None) s
  = (Ok (List.filter (has_flags a p)
           (IndexedDBStorage.cursor_loop
              (IndexedDBStorage.mkQuery None None (Some (default next d)) l o)
              (store_cursor st (Some (default next d))) 0 [])), s).
Proof.
  intros Hc Hst. unfold BrainStorage.getAllNotes. simpl.
  unfold bind at 1. rewrite (getAll_step s "notes" st Hc Hst). simpl.
  unfold bind, ret. simpl. f_equal. f_equal.
  unfold has_flags. destruct a, p; simpl.
  - apply filter_filter_bool.
  - apply List.filter_ext. intros x. by rewrite andb_true_r.
  - done.
  - by rewrite filter_all_true.
Qed.



Lemma filter_r_ok {A} (p : A -> result bool) (q : A -> bool) (l : list A) :
  (forall x, x ∈ l -> p x = Ok (q x)) -> filter_r p l = Ok (List.filter q l).
Proof.
  induction l as [|x l IH]; intros H; simpl; [done|].
  rewrite (H x) by left. rewrite IH by (intros y Hy; apply H; by right).
  by destruct (q x).
Qed.

Lemma some_r_ok {A} (p : A -> result bool) (q : A -> bool) (l : list A) :
  (forall x, x ∈ l -> p x = Ok (q x)) -> some_r p l = Ok (existsb q l).
Proof.
  induction l as [|x l IH]; intros H; simpl; [done|].
  rewrite (H x) by left. destruct (q x); simpl; [done|].
  apply IH. intros y Hy. apply H. by right.
Qed.

Lemma sublist_List_filter {A} (f : A -> bool) (l : list A) :
  sublist (List.filter f l) l.
Proof.
  induction l as [|x l IH]; simpl; [constructor|].
  destruct (f x); [by apply sublist_skip|by apply sublist_cons].
Qed.

Lemma elem_of_List_filter {A} (f : A -> bool) (l : list A) (x : A) :
  x ∈ List.filter f l <-> x ∈ l /\ f x = true.
Proof. rewrite !list_elem_of_In. apply filter_In. Qed.

Lemma elem_of_store_cursor st d r : r ∈ store_cursor st d <-> r ∈ store_values st.
Proof.
  unfold store_cursor.
  destruct d as [[]|]; try done; rewrite !list_elem_of_In; symmetry; apply in_rev.
Qed.

Lemma existsb_elem_of {A} (f : A -> bool) (l : list A) :
  existsb f l = true <-> exists x, x ∈ l /\ f x = true.
Proof.
  rewrite existsb_exists. split; intros (x & H1 & H2); exists x;
    by rewrite ?list_elem_of_In in *.
Qed.

Lemma bind_ok {A B} (m : M A) (k : A -> M B) s a s' :
  m s = (Ok a, s') -> bind m k s = k a s'.
Proof. intros H. unfold bind. by rewrite H. Qed.

Lemma flags_filters a p (notes : list obj) :
  match p with
  | Some b =>
      List.filter (fun note => strict_eq (get_prop note "isPinned") (VBool b))
        match a with
        | Some b0 =>
            List.filter (fun note => strict_eq (get_prop note "isArchived") (VBool b0))
              notes
        | None => notes
        end
  | None =>
      match a with
      | Some b0 =>
          List.filter (fun note => strict_eq (get_prop note "isArchived") (VBool b0))
            notes
      | None => notes
      end
  end = List.filter (has_flags a p) notes.
Proof.
  unfold has_flags. destruct a, p; simpl.
  - apply filter_filter_bool.
  - apply List.filter_ext. intros x. by rewrite andb_true_r.
  - done.
  - by rewrite filter_all_true.
Qed.

Lemma getAllNotes_typed s st d ts a p term :
  connected s = true ->
  idb_stores s !! "notes" = Some st ->
  (forall note, note ∈ store_values st -> well_typed_note note) ->
  BrainStorage.getAllNotes (BrainStorage.mkNoteQuery d None None ts a p term) s
  = (Ok (List.filter (mentions_b term)
           (List.filter (has_flags a p)
              (List.filter (tagged_b ts) (store_cursor st (Some (default next d)))))), s).
Proof.
  intros Hc Hst Htyped.
  set (cursor := store_cursor st (Some (default next d))).
  assert (Hcur : forall note, note ∈ cursor -> well_typed_note note).
  { intros note H. apply Htyped. by apply elem_of_store_cursor in H. }
  unfold BrainStorage.getAllNotes.
  cbn [BrainStorage.direction BrainStorage.limit BrainStorage.offset BrainStorage.tags
       BrainStorage.isArchived BrainStorage.isPinned BrainStorage.searchTerm].
  rewrite (bind_ok _ _ s cursor s).
  2:{ rewrite (getAll_step s "notes" st Hc Hst).
      cbn [IndexedDBStorage.index IndexedDBStorage.range IndexedDBStorage.direction].
      by rewrite cursor_loop_all. }
  rewrite (bind_ok _ _ s (List.filter (tagged_b ts) cursor) s).
  2:{ unfold tagged_b. destruct ts as [[|t ts']|].
      - unfold ret. by rewrite filter_all_true.
      - unfold lift.
        rewrite (filter_r_ok _
                   (fun note => match get_prop note "tags" with
                                | VArr xs =>
                                    existsb (fun tag => existsb (strict_eq (VStr tag)) xs)
                                      (t :: ts')
                                | _ => false
                                end)); [done|].
        intros note Hn. destruct (wt_tags _ (Hcur note Hn)) as [xs Hxs].
        rewrite Hxs.
        apply some_r_ok. intros tag _. unfold BrainStorage.note_has_tag. by rewrite Hxs.
      - unfold ret. by rewrite filter_all_true. }
  cbv zeta. rewrite flags_filters.
  unfold mentions_b. destruct term as [t|]; [|unfold ret; by rewrite filter_all_true].
  destruct (String.eqb t EmptyString) eqn:Et.
  { unfold ret. simpl. by rewrite filter_all_true. }
  unfold lift. simpl.
  rewrite (filter_r_ok _
             (fun note => match get_prop note "title", get_prop note "content" with
                          | VStr title, VStr content =>
                              includes (toLowerCase title) (toLowerCase t)
                              || includes (toLowerCase content) (toLowerCase t)
                          | _, _ => false
                          end)); [done|].
  intros note Hn.
  apply elem_of_List_filter in Hn as [Hn _].
  apply elem_of_List_filter in Hn as [Hn _].
  destruct (wt_title _ (Hcur note Hn)) as [title Ht].
  destruct (wt_content _ (Hcur note Hn)) as [content Hcn].
  unfold BrainStorage.note_mentions. rewrite Ht, Hcn. simpl.
  by destruct (includes (toLowerCase title) (toLowerCase t)).
Qed.

Lemma tagged_b_spec ts note :
  (exists xs, get_prop note "tags" = VArr xs) ->
  tagged_b ts note = true <-> tagged ts note.
Proof.
  intros [xs Hxs]. unfold tagged_b, tagged.
  destruct ts as [[|t ts']|]; [done| |done].
  rewrite Hxs. rewrite existsb_elem_of. split.
  - intros (tag & Htag & Hex).
    apply existsb_elem_of in Hex as (x & Hx & Heq).
    exists tag, xs. split; [done|]. split; [done|].
    destruct x; simpl in Heq; try discriminate.
    apply String.eqb_eq in Heq. by subst.
  - intros (tag & xs' & Htag & Hxs' & Hx). injection Hxs' as <-.
    exists tag. split; [done|].
    apply existsb_elem_of. exists (VStr tag). split; [done|].
    simpl. apply String.eqb_refl.
Qed.

Lemma mentions_b_spec term note :
  (exists t, get_prop note "title" = VStr t) ->
  (exists c, get_prop note "content" = VStr c) ->
  mentions_b term note = true <-> mentions term note.
Proof.
  intros [title Htitle] [content Hcontent]. unfold mentions_b, mentions.
  destruct term as [t|]; [|done].
  rewrite Htitle, Hcontent, !orb_true_iff, String.eqb_eq.
  split.
  - intros [->|[H|H]]; [by left|right..].
    + exists "title", title. split; [by left|done].
    + exists "content", content. split; [by right|done].
  - intros [->|(f & text & Hf & Hget & Hinc)]; [by left|right].
    destruct Hf as [-> | ->].
    + left. rewrite Htitle in Hget. by injection Hget as ->.
    + right. rewrite Hcontent in Hget. by injection Hget as ->.
Qed.

(** X12.  Without limit and offset, [getAllNotes] over notes whose tags
    are a list and whose title and content are strings returns, in the
    order of the store, exactly the stored notes that pass every filter
    given: the flags asked for, one at least of the tags asked for, and
    the search term in the title or in the content, whatever the case of
    either. *)
Theorem getAllNotes_selects s st d ts a p term :
  connected s = true ->
  idb_stores s !! "notes" = Some st ->
  (forall note, note ∈ store_values st -> well_typed_note note) ->
  exists notes,
    BrainStorage.getAllNotes (BrainStorage.mkNoteQuery d None None ts a p term) s
    = (Ok notes, s)
    /\ sublist notes (store_cursor st (Some (default next d)))
    /\ forall note,
         note ∈ notes
         <-> note ∈ store_values st
             /\ has_flags a p note = true
             /\ tagged ts note
             /\ mentions term note.
Proof.
  intros Hc Hst Htyped.
  eexists. split; [by apply getAllNotes_typed|].
  split.
  { etrans; [apply sublist_List_filter|].
    etrans; [apply sublist_List_filter|]. apply sublist_List_filter. }
  intros note. rewrite !elem_of_List_filter, elem_of_store_cursor.
  split.
  - intros [[[Hin Ht] Hf] Hs]. destruct (Htyped note Hin) as [H1 H2 H3].
    split; [done|]. split; [done|].
    split; [by apply tagged_b_spec|by apply mentions_b_spec].
  - intros (Hin & Hf & Ht & Hs). destruct (Htyped note Hin) as [H1 H2 H3].
    split; [split; [split; [done|]|done]|].
    + by apply tagged_b_spec.
    + by apply mentions_b_spec.
Qed.

Lemma well_typed_one_note :
  forall note, note ∈ store_values one_note_store -> well_typed_note note.
Proof.
  intros note H. apply elem_of_store_values in H as [k H].
  simpl in H. apply lookup_insert_Some in H as [[_ <-]|[_ H]].
  - split; eexists; reflexivity.
  - by rewrite lookup_empty in H.
Qed.

Lemma getAllNotes_selects_witness :
  exists notes,
    BrainStorage.getAllNotes
      (BrainStorage.mkNoteQuery None None None None None None (Some "TEXT")) one_note
    = (Ok notes, one_note)
    /\ sublist notes (store_cursor one_note_store (Some (default next None)))
    /\ forall note,
         note ∈ notes
         <-> note ∈ store_values one_note_store
             /\ has_flags None None note = true
             /\ tagged None note
             /\ mentions (Some "TEXT") note.
Proof.
  apply (getAllNotes_selects one_note one_note_store None None None None (Some "TEXT")).
  - reflexivity.
  - reflexivity.
  - exact well_typed_one_note.
Defined.

Lemma key_path_of_notes_tags st :
  indices st = BrainStorage.notes_indices -> key_path_of_index st "tags" = Some "tags".
Proof. intros H. unfold key_path_of_index. by rewrite H. Qed.

(** X13.  [deleteTag] looks the notes of the tag up in the index [tags],
    whose key for a note is its whole list of tag ids, since the index is
    not multi-entry.  So, when the tags of every note are a list, the
    lookup finds no note: the tag is deleted, whether it existed or not,
    and nothing else changes; a note that lists the id goes on listing
    it. *)
Theorem deleteTag_leaves_the_notes s id :
  ready s ->
  (forall k note, record_at s "notes" k = Some note ->
                  exists xs, get_prop note "tags" = VArr xs) ->
  exists s',
    BrainStorage.deleteTag id s = (Ok tt, s')
    /\ record_at s' "tags" id = None
    /\ (forall k, k <> id -> record_at s' "tags" k = record_at s "tags" k)
    /\ (forall n, n <> "tags" -> idb_stores s' !! n = idb_stores s !! n)
    /\ (forall k note xs,
          record_at s "notes" k = Some note ->
          get_prop note "tags" = VArr xs ->
          VStr id ∈ xs ->
          record_at s' "notes" k = Some note).
Proof.
  intros [Hc Hcfg Hkeyed] Harr.
  destruct (configured_stores s Hcfg)
    as ((sn & Hn & Hnk & Hni) & (stg & Ht & Htk & Hti) & _).
  assert (Hnone : index_only sn "tags" (VStr id) = []).
  { apply elem_of_nil_inv. intros r Hr.
    apply elem_of_index_only in Hr as [[k Hk] Hv].
    destruct (Harr k r) as [xs Hxs].
    - unfold record_at. by rewrite Hn.
    - congruence. }
  destruct (delete_frame s "tags" stg id Hc Ht)
    as (s' & Hdel & Hgone & Hkeep & Hothers & _).
  exists s'. split.
  { unfold BrainStorage.deleteTag, IDBKeyRange_only. simpl valid_key. cbv iota.
    rewrite (bind_ok _ _ s (only (VStr id)) s) by done.
    rewrite (bind_ok _ _ s [] s).
    2:{ rewrite (getAll_step s "notes" sn Hc Hn).
        cbn [IndexedDBStorage.index IndexedDBStorage.range IndexedDBStorage.direction].
        simpl String.eqb. cbv iota.
        rewrite (key_path_of_notes_tags sn Hni).
        rewrite cursor_loop_all. simpl index_cursor. by rewrite Hnone. }
    simpl for_each. rewrite (bind_ok _ _ s tt s) by done. exact Hdel. }
  split; [done|]. split; [done|]. split; [done|].
  intros k note xs Hk _ _. unfold record_at. rewrite Hothers by done.
  exact Hk.
Qed.

Lemma deleteTag_leaves_the_notes_witness :
  exists s',
    BrainStorage.deleteTag "u0" with_foo_note = (Ok tt, s')
    /\ record_at s' "tags" "u0" = None
    /\ (forall k, k <> "u0" -> record_at s' "tags" k = record_at with_foo_note "tags" k)
    /\ (forall n, n <> "tags" -> idb_stores s' !! n = idb_stores with_foo_note !! n)
    /\ (forall k note xs,
          record_at with_foo_note "notes" k = Some note ->
          get_prop note "tags" = VArr xs ->
          VStr "u0" ∈ xs ->
          record_at s' "notes" k = Some note).
Proof.
  apply (deleteTag_leaves_the_notes with_foo_note "u0").
  - apply ready_b_sound. reflexivity.
  - intros k note H. unfold record_at in H.
    change (idb_stores with_foo_note !! "notes") with (Some foo_note_store) in H.
    simpl in H. apply lookup_insert_Some in H as [[_ <-]|[_ H]].
    + eexists. reflexivity.
    + by rewrite lookup_empty in H.
Defined.

(** X14.  A patch that gives a tag the name another tag bears is refused
    by the unique index: [updateTag] fails with [TRANSACTION_FAILED], and
    the stores are as they were. *)
Theorem updateTag_to_taken_name_fails s st id other current taken name sync :
  tags_ready s st ->
  id <> other ->
  records st !! id = Some current ->
  IndexedDBStorage.next_sync (get_prop current "sync") = Ok sync ->
  records st !! other = Some taken ->
  get_prop taken "name" = VStr name ->
  BrainStorage.updateTag id (<["name" := VStr name]> ∅) s
  = (Err (StorageError TRANSACTION_FAILED), date_drawn s).
Proof.
  intros Hr Hne Hcur Hsync Hother Hname.
  unfold BrainStorage.updateTag.
  rewrite (update_step s "tags" st (tr_connected _ _ Hr) (tr_store _ _ Hr) id _ current Hcur).
  rewrite Hsync. cbv zeta.
  set (updated := merged current (<["name" := VStr name]> ∅) (upcoming (dates s)) sync).
  assert (Hid : get_prop updated "id" = VStr id).
  { unfold updated, get_prop. rewrite merged_field by done.
    rewrite lookup_insert_ne by done. rewrite lookup_empty.
    pose proof (tr_keyed _ _ Hr _ _ Hcur) as Hk. by rewrite (tr_keyPath _ _ Hr) in Hk. }
  assert (Hn : get_prop updated "name" = VStr name).
  { unfold updated, get_prop. rewrite merged_field by done.
    by rewrite lookup_insert_eq. }
  unfold store_put, primary_key. rewrite (tr_keyPath _ _ Hr), Hid.
  destruct (unique_ok st id updated) eqn:Hu; [|done].
  destruct Hne. symmetry.
  by apply (unique_name_ok st id updated name (tr_indices _ _ Hr) Hu Hn other taken).
Qed.

Lemma updateTag_to_taken_name_fails_witness :
  BrainStorage.updateTag "u1" (<["name" := VStr "foo"]> ∅) foo_then_Foo
  = (Err (StorageError TRANSACTION_FAILED), date_drawn foo_then_Foo).
Proof.
  apply (updateTag_to_taken_name_fails foo_then_Foo foo_Foo_store "u1" "u0"
           (returned ∅ (BrainStorage.createTag Foo (snd foo_run)))
           (returned ∅ foo_run) "foo"
           (VObj (<["version" := VNum 2]> IndexedDBStorage.initial_sync))).
  - exact foo_Foo_ready.
  - discriminate.
  - reflexivity.
  - reflexivity.
  - reflexivity.
  - reflexivity.
Defined.

(* ===================================================================== *)
(** ** Hashtags and the tag sync *)
(* ===================================================================== *)

Lemma lower_tag_char c : Tags.is_tag_char c = true -> is_name_char (lower_char c) = true.
Proof.
  destruct c as [[] [] [] [] [] [] [] []]; intros H; vm_compute in H |- *; congruence.
Qed.

Lemma every_char_tag_run s : every_char Tags.is_tag_char (Tags.tag_run s) = true.
Proof.
  induction s as [|c s IH]; simpl; [done|].
  destruct (Tags.is_tag_char c) eqn:E; simpl; [by rewrite E|done].
Qed.

Lemma every_char_lower s :
  every_char Tags.is_tag_char s = true -> every_char is_name_char (toLowerCase s) = true.
Proof.
  induction s as [|c s IH]; simpl; [done|].
  intros H. apply andb_true_iff in H as [H1 H2].
  by rewrite (lower_tag_char c H1), IH.
Qed.

Lemma toLowerCase_empty s : toLowerCase s = EmptyString -> s = EmptyString.
Proof. by destruct s. Qed.

Lemma elem_of_hashtags g s :
  g ∈ hashtags s -> g <> EmptyString /\ every_char Tags.is_tag_char g = true.
Proof.
  induction s as [|c s IH]; simpl; intros H.
  { by apply elem_of_nil in H. }
  destruct (Ascii.eqb c "#"); [|by apply IH].
  destruct (Tags.tag_run s) as [|c' g'] eqn:E; [by apply IH|].
  apply elem_of_cons in H as [->|H]; [|by apply IH].
  split; [done|]. rewrite <- E. apply every_char_tag_run.
Qed.

Lemma elem_of_first_occurrences (l : list string) x :
  x ∈ first_occurrences l -> x ∈ l.
Proof.
  induction l as [|y l IH]; simpl; [done|].
  intros H. apply elem_of_cons in H as [->|H]; [left|].
  apply list_elem_of_filter in H as [_ H]. right. by apply IH.
Qed.

Lemma NoDup_extractTagsFromContent content :
  NoDup (Tags.extractTagsFromContent content).
Proof. rewrite extractTagsFromContent_spec. apply NoDup_first_occurrences. Qed.

(** X15.  The names [extractTagsFromContent] returns are distinct, not
    empty, and made of the characters a-z, 0-9, underscore and hyphen
    alone. *)
Theorem extractTagsFromContent_normalised content :
  NoDup (Tags.extractTagsFromContent content)
  /\ Forall (fun name => name <> EmptyString /\ every_char is_name_char name = true)
            (Tags.extractTagsFromContent content).
Proof.
  split; [apply NoDup_extractTagsFromContent|].
  rewrite extractTagsFromContent_spec. apply Forall_forall. intros name H.
  apply elem_of_first_occurrences in H.
  apply list_elem_of_fmap in H as (g & -> & Hg).
  apply elem_of_hashtags in Hg as [Hne Hall].
  split.
  - intros H. by apply toLowerCase_empty in H.
  - by apply every_char_lower.
Qed.

(** *** Removing the number signs *)

Lemma hashtag_at_Some s g :
  Tags.hashtag_at s = Some g ->
  exists s', s = String "#" s' /\ g = Tags.tag_run s' /\ g <> EmptyString.
Proof.
  destruct s as [|c s']; [done|].
  destruct (Ascii.eqb c "#") eqn:E.
  - apply Ascii.eqb_eq in E as ->. rewrite hashtag_at_hash.
    destruct (Tags.tag_run s') eqn:Eg; [done|]. intros [= <-]. by exists s'.
  - intros H. rewrite hashtag_at_other in H; [done|].
    intros ->. by rewrite Ascii.eqb_refl in E.
Qed.

Lemma length_tag_run s : (String.length (Tags.tag_run s) <= String.length s)%nat.
Proof.
  induction s as [|c s IH]; simpl; [done|].
  destruct (Tags.is_tag_char c); simpl; lia.
Qed.

Lemma string_length_app (a b : string) :
  String.length (a ++ b) = (String.length a + String.length b)%nat.
Proof. induction a as [|c a IH]; simpl; [done|by rewrite IH]. Qed.

Lemma replace_hashtags_here wrap c s :
  Tags.replace_hashtags wrap (String c s) 0
  = match Tags.hashtag_at (String c s) with
    | Some g => wrap g ++ Tags.replace_hashtags wrap s (String.length g)
    | None => String c (Tags.replace_hashtags wrap s 0)
    end.
Proof. reflexivity. Qed.

Lemma hashtag_matches_here c s :
  Tags.hashtag_matches (String c s) 0
  = match Tags.hashtag_at (String c s) with
    | Some g => g :: Tags.hashtag_matches s (String.length g)
    | None => Tags.hashtag_matches s 0
    end.
Proof. reflexivity. Qed.

Lemma replace_hashtags_grows wrap d s :
  (forall g, String.length (wrap g) = (String.length g + d)%nat) ->
  forall skip, (skip <= String.length s)%nat ->
    (String.length (Tags.replace_hashtags wrap s skip)
     + List.length (Tags.hashtag_matches s skip) + skip)%nat
    = (String.length s + d * List.length (Tags.hashtag_matches s skip))%nat.
Proof.
  intros Hw. induction s as [|c s IH]; intros skip Hs.
  { simpl in *. lia. }
  change (String.length (String c s)) with (S (String.length s)) in *.
  destruct skip as [|k].
  - rewrite replace_hashtags_here, hashtag_matches_here.
    destruct (Tags.hashtag_at (String c s)) as [g|] eqn:E.
    + apply hashtag_at_Some in E as (s' & [= -> ->] & -> & Hne).
      pose proof (length_tag_run s') as Hl.
      specialize (IH _ Hl). rewrite string_length_app, Hw. cbn [List.length]. lia.
    + specialize (IH 0%nat ltac:(lia)).
      change (String.length (String c ?x)) with (S (String.length x)). lia.
  - specialize (IH k ltac:(lia)).
    change (Tags.replace_hashtags wrap (String c s) (S k))
      with (Tags.replace_hashtags wrap s k).
    change (Tags.hashtag_matches (String c s) (S k))
      with (Tags.hashtag_matches s k).
    lia.
Qed.

Lemma replace_hashtags_none s :
  Tags.hashtag_matches s 0 = [] -> Tags.replace_hashtags (fun g => g) s 0 = s.
Proof.
  induction s as [|c s IH]; [done|].
  rewrite replace_hashtags_here, hashtag_matches_here.
  destruct (Tags.hashtag_at (String c s)) as [g|] eqn:E; [done|].
  intros H. by rewrite IH.
Qed.

(** X16.  [removeHashtagsFromContent] shortens the content by one
    character for each hashtag [extractTagsFromContent] meets, and leaves
    the content as it is exactly when there is none. *)
Theorem removeHashtagsFromContent_drops_the_signs content :
  (String.length (Tags.removeHashtagsFromContent content)
   + List.length (Tags.hashtag_matches content 0))%nat
  = String.length content
  /\ (Tags.removeHashtagsFromContent content = content
      <-> Tags.hashtag_matches content 0 = []).
Proof.
  pose proof (replace_hashtags_grows (fun g => g) 0 content
                (fun g => eq_sym (Nat.add_0_r _)) 0%nat ltac:(lia)) as H.
  unfold Tags.removeHashtagsFromContent.
  split; [lia|]. split.
  - intros Heq. rewrite Heq in H.
    destruct (Tags.hashtag_matches content 0); [done|simpl in H; lia].
  - apply replace_hashtags_none.
Qed.

(** *** The colour of a new tag *)

(** X17.  [getRandomTagColor] always returns one of the ten colours of
    its palette, and uses up one random number and nothing else. *)
Theorem getRandomTagColor_in_palette s :
  exists color,
    Tags.getRandomTagColor s = (Ok color, random_drawn s)
    /\ color ∈ Tags.colors.
Proof.
  eexists. split; [reflexivity|].
  apply list_elem_of_In, nth_In.
  apply Nat.mod_upper_bound. discriminate.
Qed.

(** *** What the tag sync leaves alone *)

Lemma update_frame s storeName id updates n :
  n <> storeName ->
  idb_stores (snd (IndexedDBStorage.update storeName id updates s)) !! n
  = idb_stores s !! n.
Proof.
  intros Hn.
  destruct (connected s) eqn:Hc.
  2:{ unfold IndexedDBStorage.update, bind, IndexedDBStorage.require_db.
      by rewrite Hc. }
  destruct (idb_stores s !! storeName) as [st|] eqn:Hst.
  2:{ unfold IndexedDBStorage.update, IndexedDBStorage.get, bind,
        IndexedDBStorage.require_db, IndexedDBStorage.objectStore.
      rewrite Hc. simpl. rewrite ?Hc. simpl. by rewrite Hst. }
  destruct (records st !! id) as [current|] eqn:Hcur.
  2:{ by rewrite (update_missing_step s storeName st Hc Hst id updates Hcur). }
  rewrite (update_step s storeName st Hc Hst id updates current Hcur).
  destruct (IndexedDBStorage.next_sync (get_prop current "sync")) as [sync|e]; [|done].
  cbv zeta.
  destruct (store_put st _) as [st'|[| [] | |]]; simpl; try done.
  by rewrite lookup_insert_ne.
Qed.

Lemma resolve_tags_grow (names : list string) :
  forall acc s st,
    tags_ready s st ->
    fresh s st (List.length names) ->
    exists ids s' st',
      Tags.resolve_tags names acc s = (Ok ids, s')
      /\ tags_ready s' st'
      /\ records st ⊆ records st'
      /\ (forall name, name ∈ names -> named_in st' name)
      /\ (forall t r, records st' !! t = Some r -> records st !! t = None ->
                      exists name, name ∈ names /\ get_prop r "name" = VStr name)
      /\ (forall n, n <> "tags" -> idb_stores s' !! n = idb_stores s !! n).
Proof.
  induction names as [|name rest IH]; intros acc s st Hr Hf.
  { exists acc, s, st. split; [done|]. split; [done|]. split; [done|].
    split; [intros n H; by apply elem_of_nil in H|].
    split; [intros t r H1 H2; congruence|done]. }
  destruct (resolve_tag_step s st name (List.length rest) Hr Hf)
    as (id & s1 & st1 & Hrun & [Hr1 Hgrow Hnamed _ Hnew Hothers Hf1]).
  destruct (IH (acc ++ [VStr id])%list s1 st1 Hr1 Hf1)
    as (ids & s' & st' & Hrun' & Hr' & Hgrow' & Hnamed' & Hnew' & Hothers').
  exists ids, s', st'.
  split.
  { simpl. by rewrite (bind_ok _ _ s (VStr id) s1). }
  split; [done|].
  split; [by etrans|].
  split.
  { intros n Hn. apply elem_of_cons in Hn as [->|Hn]; [|by apply Hnamed'].
    destruct Hnamed as (tag & Htag & Hname).
    exists id, tag. split; [|done]. by apply (lookup_weaken _ _ _ _ Htag Hgrow'). }
  split.
  { intros t r H1 H2.
    destruct (records st1 !! t) as [r1|] eqn:E1.
    - assert (r1 = r) as ->.
      { pose proof (lookup_weaken _ _ _ _ E1 Hgrow'). congruence. }
      exists name. split; [left|]. by apply (Hnew t r).
    - destruct (Hnew' t r H1 E1) as (n & Hn & Hname). exists n. split; [by right|done]. }
  intros n Hn. rewrite Hothers' by done. by apply Hothers.
Qed.

(** X18.  Whatever its outcome, [syncTagsForNote] deletes and changes no
    stored tag and does not touch the backlinks: in a ready state with
    fresh ids to draw, the store of tags afterwards holds every tag it
    held, a tag for every name of the content, and no new tag but for
    such a name.  When the note does not exist the call fails with
    [KEY_NOT_FOUND], and the tags it has created by then stay. *)
Theorem syncTagsForNote_only_adds_tags s st noteId content :
  ready s ->
  idb_stores s !! "tags" = Some st ->
  fresh s st (List.length (Tags.extractTagsFromContent content)) ->
  exists st',
    idb_stores (state_after (Tags.syncTagsForNote noteId content) s) !! "tags" = Some st'
    /\ records st ⊆ records st'
    /\ (forall name, name ∈ Tags.extractTagsFromContent content -> named_in st' name)
    /\ (forall t r, records st' !! t = Some r -> records st !! t = None ->
          exists name, name ∈ Tags.extractTagsFromContent content
                       /\ get_prop r "name" = VStr name)
    /\ idb_stores (state_after (Tags.syncTagsForNote noteId content) s) !! "backlinks"
       = idb_stores s !! "backlinks"
    /\ (record_at s "notes" noteId = None ->
        outcome (Tags.syncTagsForNote noteId content) s
        = Err (StorageError KEY_NOT_FOUND)).
Proof.
  intros Hready Hst Hfresh.
  destruct (ready_tags s Hready) as [st0 Htags].
  rewrite (tr_store s st0 Htags) in Hst. injection Hst as ->.
  destruct (resolve_tags_grow _ [] s st Htags Hfresh)
    as (ids & s' & st' & Hrun & Hr' & Hgrow & Hnamed & Hnew & Hothers).
  exists st'.
  unfold state_after, outcome, Tags.syncTagsForNote. cbv zeta.
  rewrite (bind_ok _ _ s ids s' Hrun).
  unfold BrainStorage.updateNote.
  set (patch := <["tags" := VArr ids]> ∅).
  assert (Hsnd : snd ((IndexedDBStorage.update "notes" noteId patch ;; ret ids) s')
                 = snd (IndexedDBStorage.update "notes" noteId patch s')).
  { unfold bind. by destruct (IndexedDBStorage.update "notes" noteId patch s') as [[?|?] ?]. }
  rewrite Hsnd.
  split.
  { rewrite update_frame by done. apply (tr_store _ _ Hr'). }
  split; [done|]. split; [done|]. split; [done|].
  split.
  { rewrite update_frame by done. by apply Hothers. }
  intros Hnone.
  destruct Hready as [Hc Hcfg _].
  destruct (configured_stores s Hcfg) as ((sn & Hn & _) & _).
  unfold record_at in Hnone. rewrite Hn in Hnone.
  unfold bind.
  rewrite (update_missing_step s' "notes" sn (tr_connected _ _ Hr')); [done| |done].
  rewrite Hothers by done. exact Hn.
Qed.

Lemma syncTagsForNote_only_adds_tags_witness :
  exists st',
    idb_stores (state_after (Tags.syncTagsForNote "u0" ideas) one_note) !! "tags" = Some st'
    /\ records (mkStore "id" BrainStorage.tags_indices ∅) ⊆ records st'
    /\ (forall name, name ∈ Tags.extractTagsFromContent ideas -> named_in st' name)
    /\ (forall t r, records st' !! t = Some r ->
          records (mkStore "id" BrainStorage.tags_indices ∅) !! t = None ->
          exists name, name ∈ Tags.extractTagsFromContent ideas
                       /\ get_prop r "name" = VStr name)
    /\ idb_stores (state_after (Tags.syncTagsForNote "u0" ideas) one_note) !! "backlinks"
       = idb_stores one_note !! "backlinks"
    /\ (record_at one_note "notes" "u0" = None ->
        outcome (Tags.syncTagsForNote "u0" ideas) one_note
        = Err (StorageError KEY_NOT_FOUND)).
Proof.
  apply (syncTagsForNote_only_adds_tags one_note
           (mkStore "id" BrainStorage.tags_indices ∅) "u0" ideas).
  - apply ready_b_sound. reflexivity.
  - reflexivity.
  - replace (List.length (Tags.extractTagsFromContent ideas)) with 1%nat
      by reflexivity.
    split.
    + apply NoDup_singleton.
    + apply Forall_cons_2; [reflexivity | apply Forall_nil_2].
Defined.

(* ===================================================================== *)
(** ** Wiki links *)
(* ===================================================================== *)

Lemma prefix_app p s : String.prefix p s = true -> exists rest, s = p ++ rest.
Proof.
  revert s. induction p as [|a p IH]; intros s H.
  { by exists s. }
  destruct s as [|b s]; [done|]. simpl in H.
  destruct (ascii_dec a b) as [->|]; [|done].
  destruct (IH s H) as [rest ->]. by exists rest.
Qed.

Lemma title_run_split s :
  s = Backlinks.title_run s ++ drop_chars (String.length (Backlinks.title_run s)) s.
Proof.
  induction s as [|c s IH]; [done|]. simpl.
  destruct (Backlinks.is_close_bracket c); [done|]. simpl.
  rewrite IH at 1. reflexivity.
Qed.

Lemma every_char_title_run s :
  every_char (fun c => negb (Backlinks.is_close_bracket c)) (Backlinks.title_run s) = true.
Proof.
  induction s as [|c s IH]; [done|]. simpl.
  destruct (Backlinks.is_close_bracket c) eqn:E; [done|]. simpl. by rewrite E.
Qed.

Lemma wikilink_at_Some s g :
  Backlinks.wikilink_at s = Some g ->
  g <> EmptyString
  /\ every_char (fun c => negb (Backlinks.is_close_bracket c)) g = true
  /\ exists rest, s = "[[" ++ g ++ "]]" ++ rest.
Proof.
  unfold Backlinks.wikilink_at.
  destruct s as [|a s1]; [done|].
  destruct (ascii_dec a "[") as [->|Ha].
  2:{ destruct a as [[] [] [] [] [] [] [] []]; try done. }
  destruct s1 as [|b s']; [done|].
  destruct (ascii_dec b "[") as [->|Hb].
  2:{ destruct b as [[] [] [] [] [] [] [] []]; try done. }
  destruct (Backlinks.title_run s') as [|c g'] eqn:E; [done|].
  destruct (String.prefix "]]" (drop_chars (String.length (String c g')) s')) eqn:Ep;
    [|done].
  intros [= <-]. split; [done|]. split.
  { rewrite <- E. apply every_char_title_run. }
  apply prefix_app in Ep as [rest Hrest]. exists rest.
  rewrite (title_run_split s') at 1. rewrite E, Hrest. reflexivity.
Qed.

Lemma string_app_assoc (a b c : string) : (a ++ b) ++ c = a ++ b ++ c.
Proof.
  induction a as [|x a IH]; [done|].
  change (String x ((a ++ b) ++ c) = String x (a ++ b ++ c)). by rewrite IH.
Qed.

Lemma wikilink_matches_here c s i :
  Backlinks.wikilink_matches (String c s) i 0
  = match Backlinks.wikilink_at (String c s) with
    | Some g => (i, g) :: Backlinks.wikilink_matches s (S i) (String.length g + 3)
    | None => Backlinks.wikilink_matches s (S i) 0
    end.
Proof. reflexivity. Qed.

Lemma wikilink_matches_found content s :
  forall pre i skip m,
    content = pre ++ s ->
    String.length pre = i ->
    m ∈ Backlinks.wikilink_matches s i skip ->
    snd m <> EmptyString
    /\ every_char (fun c => negb (Backlinks.is_close_bracket c)) (snd m) = true
    /\ exists before after,
         content = before ++ ("[[" ++ snd m ++ "]]") ++ after
         /\ String.length before = fst m.
Proof.
  induction s as [|c s IH]; intros pre i skip m Hc Hi Hm.
  { by apply elem_of_nil in Hm. }
  assert (Hnext : content = (pre ++ String c EmptyString) ++ s).
  { rewrite Hc, string_app_assoc. reflexivity. }
  assert (Hlen : String.length (pre ++ String c EmptyString) = S i).
  { rewrite string_length_app. simpl. lia. }
  destruct skip as [|k].
  - rewrite wikilink_matches_here in Hm.
    destruct (Backlinks.wikilink_at (String c s)) as [g|] eqn:E.
    + apply elem_of_cons in Hm as [->|Hm]; [|by apply (IH _ _ _ _ Hnext Hlen Hm)].
      apply wikilink_at_Some in E as (Hne & Hall & rest & Hrest).
      split; [done|]. split; [done|].
      exists pre, rest. split; [|done].
      rewrite Hc, Hrest. simpl. by rewrite !string_app_assoc.
    + by apply (IH _ _ _ _ Hnext Hlen Hm).
  - simpl in Hm. by apply (IH _ _ _ _ Hnext Hlen Hm).
Qed.

Lemma substring_prefix (b c : string) :
  String.substring 0 (String.length b) (b ++ c) = b.
Proof.
  induction b as [|y b IH].
  - change (EmptyString ++ c) with c. by destruct c.
  - change (String y (String.substring 0 (String.length b) (b ++ c)) = String y b).
    by rewrite IH.
Qed.

Lemma substring_middle (a b c : string) :
  String.substring (String.length a) (String.length b) (a ++ b ++ c) = b.
Proof.
  induction a as [|x a IH].
  - exact (substring_prefix b c).
  - exact IH.
Qed.

(** X19.  Every link [extractWikiLinksFromContent] reports lies in the
    content where its position says: the characters from [start] up to
    [end] are two opening brackets, a text that is not empty and holds no
    closing bracket, and two closing brackets; the title of the link is
    that text, trimmed. *)
Theorem extractWikiLinksFromContent_positions content link :
  link ∈ Backlinks.extractWikiLinksFromContent content ->
  exists raw,
    js_substring content (fst (Backlinks.position link)) (snd (Backlinks.position link))
    = "[[" ++ raw ++ "]]"
    /\ Backlinks.title link = trim raw
    /\ raw <> EmptyString
    /\ every_char (fun c => negb (Backlinks.is_close_bracket c)) raw = true
    /\ (fst (Backlinks.position link) < snd (Backlinks.position link)
        <= String.length content)%nat.
Proof.
  unfold Backlinks.extractWikiLinksFromContent. intros H.
  apply list_elem_of_fmap in H as ([i g] & -> & Hm).
  destruct (wikilink_matches_found content content EmptyString 0 0 (i, g) eq_refl eq_refl Hm)
    as (Hne & Hall & before & after & Hc & Hlen).
  simpl in *. exists g.
  split.
  { unfold js_substring.
    replace (i + (String.length g + 4) - i)%nat
      with (String.length ("[[" ++ g ++ "]]")).
    - rewrite Hc at 1. rewrite <- Hlen. apply substring_middle.
    - rewrite !string_length_app. simpl. lia. }
  split; [done|]. split; [done|]. split; [done|].
  split; [lia|].
  rewrite Hc, !string_length_app. simpl. lia.
Qed.

Lemma extractWikiLinksFromContent_positions_witness :
  exists raw,
    js_substring "see [[ B ]]"
      (fst (Backlinks.position (Backlinks.mkLink "B" (4, 11)%nat "see [[ B ]]")))
      (snd (Backlinks.position (Backlinks.mkLink "B" (4, 11)%nat "see [[ B ]]")))
    = "[[" ++ raw ++ "]]"
    /\ Backlinks.title (Backlinks.mkLink "B" (4, 11)%nat "see [[ B ]]") = trim raw
    /\ raw <> EmptyString
    /\ every_char (fun c => negb (Backlinks.is_close_bracket c)) raw = true
    /\ (fst (Backlinks.position (Backlinks.mkLink "B" (4, 11)%nat "see [[ B ]]"))
        < snd (Backlinks.position (Backlinks.mkLink "B" (4, 11)%nat "see [[ B ]]"))
        <= String.length "see [[ B ]]")%nat.
Proof.
  apply (extractWikiLinksFromContent_positions "see [[ B ]]"
           (Backlinks.mkLink "B" (4, 11)%nat "see [[ B ]]")).
  left.
Defined.

Lemma wikilink_matches_after s :
  forall i skip m,
    m ∈ Backlinks.wikilink_matches s i skip -> (i + skip <= fst m)%nat.
Proof.
  induction s as [|c s IH]; intros i skip m Hm.
  { by apply elem_of_nil in Hm. }
  destruct skip as [|k].
  - rewrite wikilink_matches_here in Hm.
    destruct (Backlinks.wikilink_at (String c s)) as [g|].
    + apply elem_of_cons in Hm as [->|Hm]; [simpl; lia|].
      apply IH in Hm. lia.
    + apply IH in Hm. lia.
  - simpl in Hm. apply IH in Hm. lia.
Qed.

Lemma wikilink_matches_apart s :
  forall i skip l1 m1 m2 l2,
    Backlinks.wikilink_matches s i skip = (l1 ++ m1 :: m2 :: l2)%list ->
    (fst m1 + (String.length (snd m1) + 4) <= fst m2)%nat.
Proof.
  induction s as [|c s IH]; intros i skip l1 m1 m2 l2 H.
  { simpl in H. by destruct l1. }
  destruct skip as [|k].
  - rewrite wikilink_matches_here in H.
    destruct (Backlinks.wikilink_at (String c s)) as [g|].
    + destruct l1 as [|x l1]; simpl in H.
      * injection H as <- H.
        assert (Hm : m2 ∈ Backlinks.wikilink_matches s (S i) (String.length g + 3)).
        { rewrite H. left. }
        apply wikilink_matches_after in Hm. simpl. lia.
      * injection H as _ H. by apply (IH _ _ _ _ _ _ H).
    + by apply (IH _ _ _ _ _ _ H).
  - simpl in H. by apply (IH _ _ _ _ _ _ H).
Qed.

(** X20.  [extractWikiLinksFromContent] reports the links from left to
    right, and no two of them overlap: a link ends before the next one
    starts. *)
Theorem extractWikiLinksFromContent_in_order content l1 a b l2 :
  Backlinks.extractWikiLinksFromContent content = (l1 ++ a :: b :: l2)%list ->
  (snd (Backlinks.position a) <= fst (Backlinks.position b))%nat.
Proof.
  unfold Backlinks.extractWikiLinksFromContent. intros H.
  apply fmap_app_inv in H as (k1 & k & _ & Hk & Hm).
  symmetry in Hk. apply fmap_cons_inv in Hk as (m1 & k' & -> & Hk' & ->).
  symmetry in Hk'. apply fmap_cons_inv in Hk' as (m2 & k2 & -> & _ & ->).
  simpl. by apply (wikilink_matches_apart _ _ _ _ _ _ _ Hm).
Qed.

Lemma extractWikiLinksFromContent_in_order_witness :
  (snd (Backlinks.position (Backlinks.mkLink "A" (0, 5)%nat "[[A]] [[B]]"))
   <= fst (Backlinks.position (Backlinks.mkLink "B" (6, 11)%nat "[[A]] [[B]]")))%nat.
Proof.
  apply (extractWikiLinksFromContent_in_order "[[A]] [[B]]" []
           (Backlinks.mkLink "A" (0, 5)%nat "[[A]] [[B]]")
           (Backlinks.mkLink "B" (6, 11)%nat "[[A]] [[B]]") []).
  reflexivity.
Defined.

Lemma replace_wikilinks_here wrap c s :
  Backlinks.replace_wikilinks wrap (String c s) 0
  = match Backlinks.wikilink_at (String c s) with
    | Some g => wrap g ++ Backlinks.replace_wikilinks wrap s (String.length g + 3)
    | None => String c (Backlinks.replace_wikilinks wrap s 0)
    end.
Proof. reflexivity. Qed.

Lemma replace_wikilinks_grows wrap d s :
  (forall g, String.length (wrap g) = (String.length g + d)%nat) ->
  forall i skip, (skip <= String.length s)%nat ->
    (String.length (Backlinks.replace_wikilinks wrap s skip)
     + 4 * List.length (Backlinks.wikilink_matches s i skip) + skip)%nat
    = (String.length s + d * List.length (Backlinks.wikilink_matches s i skip))%nat.
Proof.
  intros Hw. induction s as [|c s IH]; intros i skip Hs.
  { simpl in *. lia. }
  change (String.length (String c s)) with (S (String.length s)) in *.
  destruct skip as [|k].
  - rewrite replace_wikilinks_here, wikilink_matches_here.
    destruct (Backlinks.wikilink_at (String c s)) as [g|] eqn:E.
    + apply wikilink_at_Some in E as (_ & _ & rest & Hrest).
      apply (f_equal String.length) in Hrest.
      rewrite !string_length_app in Hrest.
      change (String.length (String c s)) with (S (String.length s)) in *.
      change (String.length "[[") with 2%nat in Hrest.
      change (String.length "]]") with 2%nat in Hrest.
      specialize (IH (S i) (String.length g + 3)%nat ltac:(lia)).
      rewrite string_length_app, Hw. cbn [List.length]. lia.
    + specialize (IH (S i) 0%nat ltac:(lia)).
      change (String.length (String c ?x)) with (S (String.length x)). lia.
  - specialize (IH (S i) k ltac:(lia)).
    change (Backlinks.replace_wikilinks wrap (String c s) (S k))
      with (Backlinks.replace_wikilinks wrap s k).
    change (Backlinks.wikilink_matches (String c s) i (S k))
      with (Backlinks.wikilink_matches s (S i) k).
    lia.
Qed.

Lemma replace_wikilinks_none s :
  forall i, Backlinks.wikilink_matches s i 0 = [] ->
            Backlinks.replace_wikilinks (fun g => g) s 0 = s.
Proof.
  induction s as [|c s IH]; intros i; [done|].
  rewrite replace_wikilinks_here, wikilink_matches_here.
  destruct (Backlinks.wikilink_at (String c s)) as [g|] eqn:E; [done|].
  intros H. by rewrite (IH (S i)).
Qed.

(** X21.  [removeWikiLinksFromContent] shortens the content by the four
    brackets of each link [extractWikiLinksFromContent] reports, and
    leaves the content as it is exactly when it reports none. *)
Theorem removeWikiLinksFromContent_drops_the_brackets content :
  (String.length (Backlinks.removeWikiLinksFromContent content)
   + 4 * List.length (Backlinks.extractWikiLinksFromContent content))%nat
  = String.length content
  /\ (Backlinks.removeWikiLinksFromContent content = content
      <-> Backlinks.extractWikiLinksFromContent content = []).
Proof.
  pose proof (replace_wikilinks_grows (fun g => g) 0 content
                (fun g => eq_sym (Nat.add_0_r _)) 0%nat 0%nat ltac:(lia)) as H.
  unfold Backlinks.removeWikiLinksFromContent, Backlinks.extractWikiLinksFromContent.
  rewrite length_map.
  split; [lia|]. split.
  - intros Heq. rewrite Heq in H.
    destruct (Backlinks.wikilink_matches content 0 0); [done|simpl in H; lia].
  - intros Hnil. apply (replace_wikilinks_none content 0).
    by destruct (Backlinks.wikilink_matches content 0 0).
Qed.

(* ===================================================================== *)
(** ** Notes by title *)
(* ===================================================================== *)

Lemma find_r_ok {A} (p : A -> result bool) (q : A -> bool) (l : list A) :
  (forall x, x ∈ l -> p x = Ok (q x)) -> find_r p l = Ok (List.find q l).
Proof.
  induction l as [|x l IH]; intros H; simpl; [done|].
  rewrite (H x) by left. destruct (q x); [done|].
  apply IH. intros y Hy. apply H. by right.
Qed.

Lemma getAllNotes_all_notes s st :
  connected s = true ->
  idb_stores s !! "notes" = Some st ->
  BrainStorage.getAllNotes BrainStorage.all_notes s = (Ok (store_values st), s).
Proof.
  intros Hc Hst. unfold BrainStorage.all_notes.
  rewrite (getAllNotes_flags s st None None None None None Hc Hst).
  rewrite cursor_loop_all. by rewrite filter_all_true.
Qed.

Lemma findNoteByTitle_step s st title :
  connected s = true ->
  idb_stores s !! "notes" = Some st ->
  titled st ->
  Backlinks.findNoteByTitle title s = (Ok (note_titled (store_values st) title), s).
Proof.
  intros Hc Hst Ht. unfold Backlinks.findNoteByTitle.
  rewrite (bind_ok _ _ s (store_values st) s) by by apply getAllNotes_all_notes.
  unfold lift.
  rewrite (bind_ok _ _ s (List.find (title_is title) (store_values st)) s).
  2:{ rewrite (find_r_ok _ (title_is title)); [done|].
      intros n Hn. destruct (Ht n Hn) as [t Hn']. unfold title_is. by rewrite Hn'. }
  unfold note_titled.
  destruct (List.find (title_is title) (store_values st)); [done|].
  rewrite (find_r_ok _ (title_has title)); [done|].
  intros n Hn. destruct (Ht n Hn) as [t Hn']. unfold title_has. by rewrite Hn'.
Qed.

Lemma note_titled_Some notes title n :
  note_titled notes title = Some n ->
  n ∈ notes
  /\ title_has title n = true
  /\ ((exists m, m ∈ notes /\ title_is title m = true) -> title_is title n = true).
Proof.
  unfold note_titled.
  assert (Hinc : forall m, title_is title m = true -> title_has title m = true).
  { intros m. unfold title_is, title_has. destruct (get_prop m "title"); try done.
    intros H. apply String.eqb_eq in H. rewrite H.
    destruct (toLowerCase title) as [|c l]; simpl; [done|].
    destruct (ascii_dec c c); [|done].
    assert (Hp : forall x, String.prefix x x = true).
    { induction x as [|a x IH]; simpl; [done|]. by destruct (ascii_dec a a). }
    by rewrite Hp. }
  destruct (List.find (title_is title) notes) as [n'|] eqn:E.
  - intros [= ->]. apply find_some in E as [Hin Hn].
    split; [by apply list_elem_of_In|]. split; [by apply Hinc|done].
  - intros H. apply find_some in H as [Hin Hn].
    split; [by apply list_elem_of_In|]. split; [done|].
    intros (m & Hm & Hm'). apply list_elem_of_In in Hm.
    pose proof (find_none _ _ E m Hm). congruence.
Qed.

Lemma note_titled_None notes title :
  note_titled notes title = None
  <-> forall m, m ∈ notes -> title_has title m = false.
Proof.
  unfold note_titled. split.
  - destruct (List.find (title_is title) notes); [done|].
    intros H m Hm. apply list_elem_of_In in Hm. by apply (find_none _ _ H).
  - intros H.
    destruct (List.find (title_is title) notes) as [n|] eqn:E.
    + apply find_some in E as [Hin Hn]. apply list_elem_of_In in Hin.
      specialize (H n Hin). unfold title_is, title_has in *.
      destruct (get_prop n "title"); try done.
      apply String.eqb_eq in Hn. rewrite Hn in H.
      assert (Hp : forall x, includes x x = true).
      { intros x. destruct x as [|a x]; simpl; [done|].
        destruct (ascii_dec a a); [|done].
        assert (Hq : forall y, String.prefix y y = true).
        { induction y as [|b y IH]; simpl; [done|]. by destruct (ascii_dec b b). }
        by rewrite Hq. }
      by rewrite Hp in H.
    + destruct (List.find (title_has title) notes) as [n|] eqn:E'; [|done].
      apply find_some in E' as [Hin Hn]. apply list_elem_of_In in Hin.
      specialize (H n Hin). congruence.
Qed.

(** X22.  Over notes whose titles are strings, [findNoteByTitle] never
    fails and changes nothing.  The note it returns is a stored note
    whose title contains the title asked for, case being ignored, and it
    is a note whose title is equal to it up to case whenever there is
    one; it returns no note exactly when no stored title contains the
    title asked for. *)
Theorem findNoteByTitle_prefers_the_exact_title s st title :
  connected s = true ->
  idb_stores s !! "notes" = Some st ->
  titled st ->
  exists found,
    Backlinks.findNoteByTitle title s = (Ok found, s)
    /\ (forall n, found = Some n ->
          n ∈ store_values st
          /\ title_has title n = true
          /\ ((exists m, m ∈ store_values st /\ title_is title m = true) ->
              title_is title n = true))
    /\ (found = None <-> forall m, m ∈ store_values st -> title_has title m = false).
Proof.
  intros Hc Hst Ht. exists (note_titled (store_values st) title).
  split; [by apply findNoteByTitle_step|].
  split; [apply note_titled_Some|apply note_titled_None].
Qed.

Lemma titled_plans : titled plans_store.
Proof.
  intros note H. apply elem_of_store_values in H as [k H].
  simpl in H. apply lookup_insert_Some in H as [[_ <-]|[_ H]].
  { eexists. reflexivity. }
  apply lookup_insert_Some in H as [[_ <-]|[_ H]].
  { eexists. reflexivity. }
  by rewrite lookup_empty in H.
Qed.

Lemma findNoteByTitle_prefers_the_exact_title_witness :
  exists found,
    Backlinks.findNoteByTitle "plan" plans = (Ok found, plans)
    /\ (forall n, found = Some n ->
          n ∈ store_values plans_store
          /\ title_has "plan" n = true
          /\ ((exists m, m ∈ store_values plans_store /\ title_is "plan" m = true) ->
              title_is "plan" n = true))
    /\ (found = None
        <-> forall m, m ∈ store_values plans_store -> title_has "plan" m = false).
Proof.
  apply (findNoteByTitle_prefers_the_exact_title plans plans_store "plan").
  - reflexivity.
  - reflexivity.
  - exact titled_plans.
Defined.

(* ===================================================================== *)
(** ** The backlinks of a note and their sync *)
(* ===================================================================== *)

Lemma delete_each_backlink (l : list obj) :
  forall s st,
    connected s = true ->
    idb_stores s !! "backlinks" = Some st ->
    (forall b, b ∈ l -> get_prop b "id" = VStr (id_of b)) ->
    exists s' st',
      for_each l (fun backlink =>
        let* id := as_key (get_prop backlink "id") in
        BrainStorage.deleteBacklink id) s = (Ok tt, s')
      /\ connected s' = true
      /\ idb_stores s' !! "backlinks" = Some st'
      /\ keyPath st' = keyPath st
      /\ indices st' = indices st
      /\ (forall k, records st' !! k
                    = if decide (k ∈ map id_of l) then None else records st !! k)
      /\ (forall n, n <> "backlinks" -> idb_stores s' !! n = idb_stores s !! n)
      /\ uuids s' = uuids s /\ dates s' = dates s /\ randoms s' = randoms s
      /\ idb_version s' = idb_version s.
Proof.
  induction l as [|b l IH]; intros s st Hc Hst Hid.
  { exists s, st. repeat split; try done. }
  simpl for_each.
  assert (Hb : get_prop b "id" = VStr (id_of b)) by (apply Hid; left).
  set (s1 := set_stores s (<["backlinks" := store_delete st (id_of b)]> (idb_stores s))).
  destruct (IH s1 (store_delete st (id_of b))) as
    (s' & st' & Hrun & Hc' & Hst' & Hkp & Hix & Hrec & Hothers & Hu & Hd & Hr & Hv).
  { done. }
  { subst s1. simpl. by rewrite lookup_insert_eq. }
  { intros b' Hb'. apply Hid. by right. }
  exists s', st'. split.
  { rewrite (bind_ok _ _ s tt s1); [exact Hrun|].
    rewrite Hb. simpl as_key.
    rewrite (bind_ok _ _ s (id_of b) s) by done.
    unfold BrainStorage.deleteBacklink. apply (delete_step s "backlinks" st Hc Hst). }
  split; [done|]. split; [done|]. split; [done|]. split; [done|].
  split.
  { intros k. rewrite Hrec. simpl.
    destruct (decide (k = id_of b)) as [->|Hne].
    - rewrite lookup_delete_eq.
      rewrite (decide_True (P := id_of b ∈ id_of b :: map id_of l)) by left.
      by destruct (decide _).
    - rewrite lookup_delete_ne by done.
      destruct (decide (k ∈ map id_of l)) as [Hin|Hnin].
      + by rewrite decide_True by by right.
      + rewrite decide_False; [done|]. intros H. apply elem_of_cons in H as [?|?]; done. }
  split.
  { intros n Hn. rewrite Hothers by done. subst s1. simpl. by rewrite lookup_insert_ne. }
  done.
Qed.

Lemma removeBacklinksFromNote_step s st noteId :
  backlinks_ready s st ->
  exists s' st',
    Backlinks.removeBacklinksFromNote noteId s = (Ok tt, s')
    /\ backlinks_ready s' st'
    /\ (forall k r, records st' !! k = Some r
                    <-> records st !! k = Some r /\ ~ mentions_note noteId r)
    /\ (forall n, n <> "backlinks" -> idb_stores s' !! n = idb_stores s !! n)
    /\ uuids s' = uuids s /\ dates s' = dates s.
Proof.
  intros [Hc Hst Hkp Hix Hkeyed].
  set (l := (index_only st "sourceNoteId" (VStr noteId)
             ++ index_only st "targetNoteId" (VStr noteId))%list).
  assert (Hl : forall b, b ∈ l <-> (exists k, records st !! k = Some b) /\ mentions_note noteId b).
  { intros b. subst l. rewrite elem_of_app, !elem_of_index_only.
    unfold mentions_note. tauto. }
  assert (Hids : forall b, b ∈ l -> get_prop b "id" = VStr (id_of b)).
  { intros b Hb. apply Hl in Hb as [[k Hk] _].
    specialize (Hkeyed k b Hk). rewrite Hkp in Hkeyed.
    unfold id_of. by rewrite Hkeyed. }
  destruct (delete_each_backlink l s st Hc Hst Hids)
    as (s' & st' & Hrun & Hc' & Hst' & Hkp' & Hix' & Hrec & Hothers & Hu & Hd & _).
  exists s', st'.
  assert (Hchar : forall k r, records st' !! k = Some r
                              <-> records st !! k = Some r /\ ~ mentions_note noteId r).
  { intros k r. rewrite Hrec. destruct (decide (k ∈ map id_of l)) as [Hin|Hnin].
    - split; [done|]. intros [Hk Hnot]. destruct Hnot.
      apply list_elem_of_fmap in Hin as (b & Hkb & Hb).
      apply Hl in Hb as [[k' Hk'] Hm].
      pose proof (Hkeyed k' b Hk') as Hid. rewrite Hkp in Hid.
      unfold id_of in Hkb. rewrite Hid in Hkb. subst k'.
      rewrite Hk in Hk'. by injection Hk' as ->.
    - split; [|by intros [? ?]]. intros Hk. split; [done|].
      intros Hm. apply Hnin. apply list_elem_of_fmap. exists r. split.
      + pose proof (Hkeyed k r Hk) as Hid. rewrite Hkp in Hid.
        unfold id_of. by rewrite Hid.
      + apply Hl. eauto. }
  split.
  { unfold Backlinks.removeBacklinksFromNote.
    rewrite (bind_ok _ _ s l s); [exact Hrun|].
    by apply getBacklinksForNote_step. }
  split.
  { split; try congruence.
    intros k r Hk. rewrite Hkp'. apply Hchar in Hk as [Hk _]. by apply Hkeyed. }
  done.
Qed.

(** X23.  [removeBacklinksFromNote] succeeds on the declared store of
    backlinks and deletes every backlink that has the note at either
    end, as source or as target; the backlinks that remain are exactly
    those that do not mention the note, unchanged; no other store is
    touched and no id or date is drawn. *)
Theorem removeBacklinksFromNote_deletes_both_directions s st noteId :
  backlinks_ready s st ->
  exists s' st',
    Backlinks.removeBacklinksFromNote noteId s = (Ok tt, s')
    /\ backlinks_ready s' st'
    /\ (forall k r, records st' !! k = Some r
                    <-> records st !! k = Some r /\ ~ mentions_note noteId r)
    /\ (forall n, n <> "backlinks" -> idb_stores s' !! n = idb_stores s !! n)
    /\ uuids s' = uuids s /\ dates s' = dates s.
Proof. apply removeBacklinksFromNote_step. Qed.

Lemma linked_backlinks_ready : backlinks_ready linked linked_store.
Proof.
  split.
  - reflexivity.
  - reflexivity.
  - reflexivity.
  - reflexivity.
  - apply keyed_b_sound. reflexivity.
Qed.

Lemma removeBacklinksFromNote_deletes_both_directions_witness :
  exists s' st',
    Backlinks.removeBacklinksFromNote "u1" linked = (Ok tt, s')
    /\ backlinks_ready s' st'
    /\ (forall k r, records st' !! k = Some r
                    <-> records linked_store !! k = Some r /\ ~ mentions_note "u1" r)
    /\ (forall n, n <> "backlinks" -> idb_stores s' !! n = idb_stores linked !! n)
    /\ uuids s' = uuids linked /\ dates s' = dates linked.
Proof.
  apply (removeBacklinksFromNote_deletes_both_directions linked linked_store "u1").
  exact linked_backlinks_ready.
Defined.

Lemma next_ids_S s k :
  next_ids s (S k)
  = upcoming (uuids s) :: map (src (uuids s)) (seq (S (drawn (uuids s))) k).
Proof. reflexivity. Qed.

Lemma fresh_after_create s st k stores id r :
  fresh s st (S k) ->
  id = upcoming (uuids s) ->
  records st !! id = None
  /\ fresh (set_stores (date_and_id_drawn s) stores)
           (set_records st (<[id := r]> (records st))) k.
Proof.
  intros [Hnd Hall] ->. rewrite next_ids_S in Hnd, Hall.
  apply NoDup_cons in Hnd as [Hnin Hnd].
  apply Forall_cons in Hall as [Hnone Hall].
  split; [done|]. split; [exact Hnd|].
  apply Forall_forall. intros x Hx. simpl.
  rewrite lookup_insert_ne.
  - rewrite Forall_forall in Hall. by apply Hall.
  - intros <-. by apply Hnin.
Qed.

Lemma createBacklink_step s st data :
  backlinks_ready s st ->
  records st !! upcoming (uuids s) = None ->
  BrainStorage.createBacklink data s
  = (Ok (entity_of data (upcoming (uuids s)) (upcoming (dates s))),
     set_stores (date_and_id_drawn s)
       (<["backlinks" :=
            set_records st
              (<[upcoming (uuids s) :=
                   entity_of data (upcoming (uuids s)) (upcoming (dates s))]>
                 (records st))]> (idb_stores s))).
Proof.
  intros [Hc Hst Hkp Hix Hkeyed] Hnone.
  unfold BrainStorage.createBacklink.
  rewrite (create_step s "backlinks" st Hc Hst). cbv zeta.
  unfold store_add, primary_key. rewrite Hkp, id_of_entity, Hnone.
  rewrite unique_ok_no_unique_index; [done|].
  rewrite Hix. unfold BrainStorage.backlinks_indices.
  repeat (apply Forall_cons_2; [done|]). apply Forall_nil_2.
Qed.

Lemma backlinks_ready_insert s st id r :
  backlinks_ready s st ->
  get_prop r "id" = VStr id ->
  backlinks_ready
    (set_stores (date_and_id_drawn s)
       (<["backlinks" := set_records st (<[id := r]> (records st))]> (idb_stores s)))
    (set_records st (<[id := r]> (records st))).
Proof.
  intros [Hc Hst Hkp Hix Hkeyed] Hid. split; try done.
  - simpl. by rewrite lookup_insert_eq.
  - intros k x Hk. simpl in *. rewrite Hkp.
    apply lookup_insert_Some in Hk as [[<- <-]|[_ Hk]]; [done|].
    specialize (Hkeyed k x Hk). by rewrite Hkp in Hkeyed.
Qed.

Lemma create_each_backlink noteId nst (links : list Backlinks.WikiLink) :
  forall s st,
    backlinks_ready s st ->
    idb_stores s !! "notes" = Some nst ->
    titled nst ->
    fresh s st (List.length links) ->
    exists s' st',
      for_each links (fun link =>
        let* targetNote := Backlinks.findNoteByTitle (Backlinks.title link) in
        match targetNote with
        | Some targetNote =>
            BrainStorage.createBacklink (Backlinks.backlink_data noteId targetNote link) ;;
            ret tt
        | None => ret tt
        end) s = (Ok tt, s')
      /\ backlinks_ready s' st'
      /\ records st ⊆ records st'
      /\ (forall n, n <> "backlinks" -> idb_stores s' !! n = idb_stores s !! n)
      /\ (forall k r, records st' !! k = Some r -> records st !! k = None ->
            exists link target,
              link ∈ links
              /\ note_titled (store_values nst) (Backlinks.title link) = Some target
              /\ made_from noteId target link k r)
      /\ (forall link target,
            link ∈ links ->
            note_titled (store_values nst) (Backlinks.title link) = Some target ->
            exists k r, records st' !! k = Some r /\ made_from noteId target link k r).
Proof.
  induction links as [|link links IH]; intros s st Hr Hn Ht Hf.
  { exists s, st. split; [done|]. split; [done|]. split; [done|]. split; [done|].
    split.
    - intros k r H1 H2. congruence.
    - intros link target H. by apply elem_of_nil in H. }
  simpl for_each.
  pose proof (findNoteByTitle_step s nst (Backlinks.title link)
                (br_connected _ _ Hr) Hn Ht) as Hfind.
  destruct (note_titled (store_values nst) (Backlinks.title link)) as [target|] eqn:E.
  - set (e := entity_of (Backlinks.backlink_data noteId target link)
                (upcoming (uuids s)) (upcoming (dates s))).
    set (st1 := set_records st (<[upcoming (uuids s) := e]> (records st))).
    set (s1 := set_stores (date_and_id_drawn s) (<["backlinks" := st1]> (idb_stores s))).
    destruct (fresh_after_create s st (List.length links)
                (<["backlinks" := st1]> (idb_stores s)) (upcoming (uuids s)) e Hf eq_refl)
      as [Hnone Hf1].
    assert (Hr1 : backlinks_ready s1 st1).
    { apply backlinks_ready_insert; [done|]. apply id_of_entity. }
    destruct (IH s1 st1 Hr1) as (s' & st' & Hrun & Hr' & Hsub & Hothers & Hnew & Hall).
    { subst s1. simpl. by rewrite lookup_insert_ne. }
    { done. }
    { exact Hf1. }
    exists s', st'. split.
    { rewrite (bind_ok _ _ s tt s1); [exact Hrun|].
      rewrite (bind_ok _ _ s (Some target) s Hfind).
      rewrite (bind_ok _ _ s e s1); [done|].
      by apply createBacklink_step. }
    split; [done|].
    split.
    { etrans; [|exact Hsub]. subst st1. simpl. by apply insert_subseteq. }
    split.
    { intros n Hne. rewrite Hothers by done. subst s1. simpl. by rewrite lookup_insert_ne. }
    split.
    { intros k r Hk Hk0.
      destruct (records st1 !! k) as [r1|] eqn:E1.
      - assert (r1 = r) as ->.
        { pose proof (lookup_weaken _ _ _ _ E1 Hsub). congruence. }
        subst st1. simpl in E1.
        apply lookup_insert_Some in E1 as [[<- <-]|[_ E1]]; [|congruence].
        exists link, target. split; [left|]. split; [done|]. by eexists.
      - destruct (Hnew k r Hk E1) as (l' & t' & Hin & Htitled & Hmade).
        exists l', t'. split; [by right|done]. }
    intros l' t' Hin Htitled. apply elem_of_cons in Hin as [->|Hin].
    + exists (upcoming (uuids s)), e. split.
      * apply (lookup_weaken (records st1)); [|done].
        subst st1. simpl. by rewrite lookup_insert_eq.
      * rewrite E in Htitled. injection Htitled as <-. by eexists.
    + by apply Hall.
  - destruct (IH s st Hr Hn Ht (fresh_fewer _ _ _ Hf))
      as (s' & st' & Hrun & Hr' & Hsub & Hothers & Hnew & Hall).
    exists s', st'. split.
    { rewrite (bind_ok _ _ s tt s); [exact Hrun|].
      by rewrite (bind_ok _ _ s None s Hfind). }
    split; [done|]. split; [done|]. split; [done|].
    split.
    { intros k r Hk Hk0. destruct (Hnew k r Hk Hk0) as (l' & t' & Hin & Htitled & Hmade).
      exists l', t'. split; [by right|done]. }
    intros l' t' Hin Htitled. apply elem_of_cons in Hin as [->|Hin]; [congruence|].
    by apply Hall.
Qed.

(** X24.  What [syncBacklinksForNote] leaves behind.  On the declared
    store of backlinks, over notes whose titles are strings, and with as
    many fresh ids to draw as the content has links, the sync succeeds
    and touches no other store.  A backlink that did not mention the note
    is kept as it was.  Every backlink stored afterwards is such a kept
    one, or was created by this sync from a link of the content and the
    note [findNoteByTitle] returns for its title; and every link of the
    content whose title finds a note has its backlink. *)
Theorem syncBacklinksForNote_regenerates s st nst noteId content :
  backlinks_ready s st ->
  idb_stores s !! "notes" = Some nst ->
  titled nst ->
  fresh s st (List.length (Backlinks.extractWikiLinksFromContent content)) ->
  exists s' st',
    Backlinks.syncBacklinksForNote noteId content s = (Ok tt, s')
    /\ backlinks_ready s' st'
    /\ (forall n, n <> "backlinks" -> idb_stores s' !! n = idb_stores s !! n)
    /\ (forall k r, records st !! k = Some r -> ~ mentions_note noteId r ->
          records st' !! k = Some r)
    /\ (forall k r, records st' !! k = Some r ->
          (records st !! k = Some r /\ ~ mentions_note noteId r)
          \/ exists link target,
               link ∈ Backlinks.extractWikiLinksFromContent content
               /\ Backlinks.findNoteByTitle (Backlinks.title link) s = (Ok (Some target), s)
               /\ made_from noteId target link k r)
    /\ (forall link target,
          link ∈ Backlinks.extractWikiLinksFromContent content ->
          Backlinks.findNoteByTitle (Backlinks.title link) s = (Ok (Some target), s) ->
          exists k r, records st' !! k = Some r /\ made_from noteId target link k r).
Proof.
  intros Hr Hn Ht Hf.
  destruct (removeBacklinksFromNote_step s st noteId Hr)
    as (s1 & st1 & Hrun1 & Hr1 & Hchar & Hothers1 & Hu & _).
  assert (Hf1 : fresh s1 st1 (List.length (Backlinks.extractWikiLinksFromContent content))).
  { destruct Hf as [Hnd Hall]. unfold fresh, next_ids in *. rewrite Hu.
    split; [done|]. eapply Forall_impl; [exact Hall|].
    intros id Hid. simpl in Hid.
    destruct (records st1 !! id) as [r|] eqn:E; [|done].
    apply Hchar in E as [E _]. congruence. }
  assert (Hn1 : idb_stores s1 !! "notes" = Some nst) by (by rewrite Hothers1).
  destruct (create_each_backlink noteId nst _ s1 st1 Hr1 Hn1 Ht Hf1)
    as (s' & st' & Hrun & Hr' & Hsub & Hothers & Hnew & Hall).
  assert (Hfind : forall title,
            Backlinks.findNoteByTitle title s
            = (Ok (note_titled (store_values nst) title), s)).
  { intros title. by apply findNoteByTitle_step; [apply (br_connected _ _ Hr)|..]. }
  exists s', st'. split.
  { unfold Backlinks.syncBacklinksForNote. cbv zeta.
    by rewrite (bind_ok _ _ s tt s1 Hrun1). }
  split; [done|].
  split.
  { intros n Hne. rewrite Hothers by done. by apply Hothers1. }
  split.
  { intros k r Hk Hm. apply (lookup_weaken (records st1)); [|done].
    by apply Hchar. }
  split.
  { intros k r Hk.
    destruct (records st1 !! k) as [r1|] eqn:E1.
    - left. assert (r1 = r) as ->.
      { pose proof (lookup_weaken _ _ _ _ E1 Hsub). congruence. }
      by apply Hchar.
    - right. destruct (Hnew k r Hk E1) as (link & target & Hin & Htitled & Hmade).
      exists link, target. split; [done|]. split; [|done].
      by rewrite Hfind, Htitled. }
  intros link target Hin Hfound. rewrite Hfind in Hfound.
  injection Hfound as Hfound. by apply Hall.
Qed.

Lemma syncBacklinksForNote_regenerates_witness :
  exists s' st',
    Backlinks.syncBacklinksForNote "u0" "see [[B]]" linked = (Ok tt, s')
    /\ backlinks_ready s' st'
    /\ (forall n, n <> "backlinks" -> idb_stores s' !! n = idb_stores linked !! n)
    /\ (forall k r, records linked_store !! k = Some r -> ~ mentions_note "u0" r ->
          records st' !! k = Some r)
    /\ (forall k r, records st' !! k = Some r ->
          (records linked_store !! k = Some r /\ ~ mentions_note "u0" r)
          \/ exists link target,
               link ∈ Backlinks.extractWikiLinksFromContent "see [[B]]"
               /\ Backlinks.findNoteByTitle (Backlinks.title link) linked
                  = (Ok (Some target), linked)
               /\ made_from "u0" target link k r)
    /\ (forall link target,
          link ∈ Backlinks.extractWikiLinksFromContent "see [[B]]" ->
          Backlinks.findNoteByTitle (Backlinks.title link) linked
          = (Ok (Some target), linked) ->
          exists k r, records st' !! k = Some r /\ made_from "u0" target link k r).
Proof.
  apply (syncBacklinksForNote_regenerates linked linked_store linked_notes "u0"
           "see [[B]]").
  - exact linked_backlinks_ready.
  - reflexivity.
  - intros note H. apply elem_of_store_values in H as [k H].
    simpl in H. apply lookup_insert_Some in H as [[_ <-]|[_ H]].
    { eexists. reflexivity. }
    apply lookup_insert_Some in H as [[_ <-]|[_ H]].
    { eexists. reflexivity. }
    by rewrite lookup_empty in H.
  - replace (List.length (Backlinks.extractWikiLinksFromContent "see [[B]]"))
      with 1%nat by reflexivity.
    split.
    + apply NoDup_singleton.
    + apply Forall_cons_2; [reflexivity | apply Forall_nil_2].
Defined.

(* ===================================================================== *)
(** ** Incoming and outgoing links *)
(* ===================================================================== *)

Lemma with_note_at_step s nst f (l : list obj) :
  connected s = true ->
  idb_stores s !! "notes" = Some nst ->
  (forall b, b ∈ l -> exists t, get_prop b f = VStr t) ->
  forall acc,
    Backlinks.with_note_at f l acc s = (Ok (acc ++ omap (with_end nst f) l)%list, s).
Proof.
  intros Hc Hn. induction l as [|b l IH]; intros Hl acc.
  { simpl. unfold ret. by rewrite app_nil_r. }
  destruct (Hl b ltac:(left)) as [t Hb].
  simpl Backlinks.with_note_at. rewrite Hb. simpl Backlinks.getNote_of.
  unfold BrainStorage.getNote.
  rewrite (bind_ok _ _ s (records nst !! t) s) by (by apply get_step).
  simpl omap. unfold with_end at 1, end_of. rewrite Hb.
  destruct (records nst !! t) as [note|]; simpl.
  - rewrite IH by (intros b' Hb'; apply Hl; by right).
    by rewrite <- app_assoc.
  - apply IH. intros b' Hb'. apply Hl. by right.
Qed.

Lemma elem_of_with_end nst f (l : list obj) note b :
  (note, b) ∈ omap (with_end nst f) l
  <-> b ∈ l /\ records nst !! end_of f b = Some note.
Proof.
  rewrite list_elem_of_omap. unfold with_end. split.
  - intros (b' & Hb' & H).
    destruct (records nst !! end_of f b') as [n|] eqn:E; [|done].
    simpl in H. injection H as <- <-. done.
  - intros [Hb H]. exists b. split; [done|]. by rewrite H.
Qed.

(** X25.  [getIncomingBacklinks] pairs with its source note every stored
    backlink that has the note at either end, since it takes them from
    [getBacklinksForNote]: beside the links that come in, it lists the
    links that go out of the note, each paired with the note itself.  A
    backlink whose source note is not stored is left out. *)
Theorem getIncomingBacklinks_lists_both_directions s st nst noteId :
  backlinks_ready s st ->
  idb_stores s !! "notes" = Some nst ->
  ends_are_ids st "sourceNoteId" ->
  exists pairs,
    Backlinks.getIncomingBacklinks noteId s = (Ok pairs, s)
    /\ forall note b,
         (note, b) ∈ pairs
         <-> (exists k, records st !! k = Some b)
             /\ mentions_note noteId b
             /\ records nst !! end_of "sourceNoteId" b = Some note.
Proof.
  intros [Hc Hst Hkp Hix Hkeyed] Hn Hends.
  set (l := (index_only st "sourceNoteId" (VStr noteId)
             ++ index_only st "targetNoteId" (VStr noteId))%list).
  assert (Hl : forall b, b ∈ l <-> (exists k, records st !! k = Some b) /\ mentions_note noteId b).
  { intros b. subst l. rewrite elem_of_app, !elem_of_index_only.
    unfold mentions_note. tauto. }
  exists (omap (with_end nst "sourceNoteId") l). split.
  { unfold Backlinks.getIncomingBacklinks.
    rewrite (bind_ok _ _ s l s) by (by apply getBacklinksForNote_step).
    rewrite (with_note_at_step s nst "sourceNoteId" l Hc Hn); [done|].
    intros b Hb. apply Hl in Hb as [[k Hk] _]. by apply (Hends k). }
  intros note b. rewrite elem_of_with_end, Hl. tauto.
Qed.

Lemma getIncomingBacklinks_lists_both_directions_witness :
  exists pairs,
    Backlinks.getIncomingBacklinks "u0" linked = (Ok pairs, linked)
    /\ forall note b,
         (note, b) ∈ pairs
         <-> (exists k, records linked_store !! k = Some b)
             /\ mentions_note "u0" b
             /\ records linked_notes !! end_of "sourceNoteId" b = Some note.
Proof.
  apply (getIncomingBacklinks_lists_both_directions linked linked_store linked_notes "u0").
  - exact linked_backlinks_ready.
  - reflexivity.
  - intros k b H. simpl in H. apply lookup_insert_Some in H as [[_ <-]|[_ H]].
    + eexists. reflexivity.
    + by rewrite lookup_empty in H.
Defined.

(** X26.  [getOutgoingLinks] pairs with its target note every stored
    backlink whose source is the note, and no other; a backlink whose
    target note is not stored is left out. *)
Theorem getOutgoingLinks_lists_the_links_of_the_note s st nst noteId :
  backlinks_ready s st ->
  idb_stores s !! "notes" = Some nst ->
  ends_are_ids st "targetNoteId" ->
  exists pairs,
    Backlinks.getOutgoingLinks noteId s = (Ok pairs, s)
    /\ forall note b,
         (note, b) ∈ pairs
         <-> (exists k, records st !! k = Some b)
             /\ get_prop b "sourceNoteId" = VStr noteId
             /\ records nst !! end_of "targetNoteId" b = Some note.
Proof.
  intros [Hc Hst Hkp Hix Hkeyed] Hn Hends.
  set (l := List.filter
              (fun bl => strict_eq (get_prop bl "sourceNoteId") (VStr noteId))
              (store_values st)).
  assert (Hl : forall b, b ∈ l <-> (exists k, records st !! k = Some b)
                                   /\ get_prop b "sourceNoteId" = VStr noteId).
  { intros b. subst l. by rewrite elem_of_List_filter, elem_of_store_values,
      strict_eq_string. }
  exists (omap (with_end nst "targetNoteId") l). split.
  { unfold Backlinks.getOutgoingLinks, BrainStorage.getAllBacklinks.
    rewrite (bind_ok _ _ s (store_values st) s).
    2:{ rewrite (getAll_step s "backlinks" st Hc Hst).
        unfold IndexedDBStorage.no_options.
        cbn [IndexedDBStorage.index IndexedDBStorage.range IndexedDBStorage.direction].
        by rewrite cursor_loop_all. }
    cbv zeta. fold l.
    rewrite (with_note_at_step s nst "targetNoteId" l Hc Hn); [done|].
    intros b Hb. apply Hl in Hb as [[k Hk] _]. by apply (Hends k). }
  intros note b. rewrite elem_of_with_end, Hl. tauto.
Qed.

Lemma getOutgoingLinks_lists_the_links_of_the_note_witness :
  exists pairs,
    Backlinks.getOutgoingLinks "u0" linked = (Ok pairs, linked)
    /\ forall note b,
         (note, b) ∈ pairs
         <-> (exists k, records linked_store !! k = Some b)
             /\ get_prop b "sourceNoteId" = VStr "u0"
             /\ records linked_notes !! end_of "targetNoteId" b = Some note.
Proof.
  apply (getOutgoingLinks_lists_the_links_of_the_note linked linked_store linked_notes
           "u0").
  - exact linked_backlinks_ready.
  - reflexivity.
  - intros k b H. simpl in H. apply lookup_insert_Some in H as [[_ <-]|[_ H]].
    + eexists. reflexivity.
    + by rewrite lookup_empty in H.
Defined.

(* ===================================================================== *)
(** ** Renaming a note whose title no note bears *)
(* ===================================================================== *)

(** X27.  [updateBacklinksOnNoteRename] looks the renamed note up by its
    old title.  Over notes whose titles are strings, when no stored title
    contains the old title, case being ignored, the call succeeds and
    changes nothing, whatever links the contents of the notes hold. *)
Theorem rename_of_an_unknown_title_changes_nothing s st oldTitle newTitle :
  connected s = true ->
  idb_stores s !! "notes" = Some st ->
  titled st ->
  (forall m, m ∈ store_values st -> title_has oldTitle m = false) ->
  Backlinks.updateBacklinksOnNoteRename oldTitle newTitle s = (Ok tt, s).
Proof.
  intros Hc Hst Ht Hnone. unfold Backlinks.updateBacklinksOnNoteRename.
  rewrite (bind_ok _ _ s None s); [done|].
  rewrite (findNoteByTitle_step s st oldTitle Hc Hst Ht).
  by rewrite (proj2 (note_titled_None _ _) Hnone).
Qed.

Lemma rename_of_an_unknown_title_changes_nothing_witness :
  Backlinks.updateBacklinksOnNoteRename "Roadmap" "Plan C" plans = (Ok tt, plans).
Proof.
  apply (rename_of_an_unknown_title_changes_nothing plans plans_store "Roadmap" "Plan C").
  - reflexivity.
  - reflexivity.
  - exact titled_plans.
  - intros m H. apply elem_of_store_values in H as [k H].
    simpl in H. apply lookup_insert_Some in H as [[_ <-]|[_ H]].
    { reflexivity. }
    apply lookup_insert_Some in H as [[_ <-]|[_ H]].
    { reflexivity. }
    by rewrite lookup_empty in H.
Defined.

(* ===================================================================== *)
(** ** The fuzzy match of the global search *)
(* ===================================================================== *)

Lemma chars_app (a b : string) :
  list_ascii_of_string (a ++ b)
  = (list_ascii_of_string a ++ list_ascii_of_string b)%list.
Proof.
  induction a as [|c a IH]; [done|].
  change (c :: list_ascii_of_string (a ++ b)
          = c :: (list_ascii_of_string a ++ list_ascii_of_string b)%list).
  by rewrite IH.
Qed.

Lemma chars_length (a : string) :
  List.length (list_ascii_of_string a) = String.length a.
Proof. induction a as [|c a IH]; simpl; [done|by rewrite IH]. Qed.

Lemma chars_get (a : string) :
  forall i, String.get i a = list_ascii_of_string a !! i.
Proof.
  induction a as [|c a IH]; intros i; simpl; [by destruct i|].
  destruct i as [|i]; [done|]. apply IH.
Qed.

Lemma includes_here c hay needle :
  includes (String c hay) needle
  = String.prefix needle (String c hay) || includes hay needle.
Proof. reflexivity. Qed.

Lemma includes_sublist hay needle :
  includes hay needle = true ->
  sublist (list_ascii_of_string needle) (list_ascii_of_string hay).
Proof.
  induction hay as [|c hay IH]; intros H.
  - destruct needle; [apply sublist_nil_l|done].
  - rewrite includes_here in H. apply orb_true_iff in H as [H|H].
    + apply prefix_app in H as [rest Hrest].
      rewrite Hrest, chars_app. by apply sublist_inserts_r.
    + apply sublist_cons. by apply IH.
Qed.

Lemma scan_spec textLower queryLower :
  forall queryIndex,
    (queryIndex <= String.length queryLower)%nat ->
    GlobalSearch.scan textLower queryLower queryIndex = String.length queryLower
    <-> sublist (drop queryIndex (list_ascii_of_string queryLower))
                (list_ascii_of_string textLower).
Proof.
  induction textLower as [|c rest IH]; intros i Hi; simpl.
  - rewrite sublist_nil_r. split.
    + intros ->. apply drop_ge. by rewrite chars_length.
    + intros H. apply drop_nil_inv in H. rewrite chars_length in H. lia.
  - destruct (i <? String.length queryLower)%nat eqn:E.
    + apply Nat.ltb_lt in E.
      destruct (list_ascii_of_string queryLower !! i) as [d|] eqn:Ed.
      2:{ apply lookup_ge_None in Ed. rewrite chars_length in Ed. lia. }
      rewrite (drop_S _ _ _ Ed). rewrite chars_get, Ed.
      destruct (bool_decide (Some d = Some c)) eqn:Eb.
      * apply bool_decide_eq_true in Eb. injection Eb as ->.
        rewrite (IH (S i)) by lia. rewrite sublist_cons_r. split.
        -- intros H. right. by eexists.
        -- intros [H|(l' & [= <-] & H)]; [|done].
           etrans; [|exact H]. by apply sublist_cons.
      * apply bool_decide_eq_false in Eb.
        rewrite (IH i) by lia. rewrite (drop_S _ _ _ Ed).
        rewrite (sublist_cons_r c). split; [by left|].
        intros [H|(l' & [= <- _] & _)]; [done|]. by destruct Eb.
    + apply Nat.ltb_ge in E. assert (i = String.length queryLower) as -> by lia.
      split; [|done]. intros _.
      rewrite drop_ge by (by rewrite chars_length). apply sublist_nil_l.
Qed.

(** X28.  [fuzzySearch] accepts a text for a query exactly when the
    characters of the query, in lower case, occur in the text, in lower
    case, in their order, not necessarily next to one another; so every
    text passes for the empty query, and the test for a substring it
    makes first changes no outcome. *)
Theorem fuzzySearch_is_subsequence text query :
  GlobalSearch.fuzzySearch text query = true
  <-> sublist (list_ascii_of_string (toLowerCase query))
              (list_ascii_of_string (toLowerCase text)).
Proof.
  unfold GlobalSearch.fuzzySearch.
  destruct (String.eqb query EmptyString) eqn:E.
  { apply String.eqb_eq in E as ->. split; [|done]. intros _. apply sublist_nil_l. }
  cbv zeta.
  destruct (includes (toLowerCase text) (toLowerCase query)) eqn:Ei.
  { split; [|done]. intros _. by apply includes_sublist. }
  rewrite Nat.eqb_eq. by rewrite scan_spec by lia.
Qed.

(* ===================================================================== *)
(** ** The title of a note in the editor *)
(* ===================================================================== *)

Lemma every_char_split_lines content :
  Forall (fun line => every_char (fun c => negb (NoteEditor.is_line_feed c)) line = true)
         (NoteEditor.split_lines content).
Proof.
  induction content as [|c rest IH]; simpl.
  { by apply Forall_cons_2; [|apply Forall_nil_2]. }
  destruct (NoteEditor.is_line_feed c) eqn:E.
  { by apply Forall_cons_2. }
  destruct (NoteEditor.split_lines rest) as [|line lines].
  { apply Forall_cons_2; [|apply Forall_nil_2]. simpl. by rewrite E. }
  apply Forall_cons in IH as [H1 H2].
  apply Forall_cons_2; [|done]. simpl. by rewrite E, H1.
Qed.

Lemma every_char_drop_chars p n s :
  every_char p s = true -> every_char p (drop_chars n s) = true.
Proof.
  revert s. induction n as [|n IH]; intros s H; [by destruct s|].
  destruct s as [|c s]; [done|]. simpl in *.
  apply andb_true_iff in H as [_ H]. by apply IH.
Qed.

Lemma every_char_trim_start p s :
  every_char p s = true -> every_char p (trim_start s) = true.
Proof.
  induction s as [|c s IH]; [done|]. simpl. intros H.
  destruct (is_space c); [|done].
  apply andb_true_iff in H as [_ H]. by apply IH.
Qed.

Lemma every_char_trim_end p s :
  every_char p s = true -> every_char p (trim_end s) = true.
Proof.
  induction s as [|c s IH]; [done|]. simpl. intros H.
  apply andb_true_iff in H as [Hc H]. specialize (IH H).
  destruct (trim_end s) as [|d t].
  - destruct (is_space c); [done|]. simpl. by rewrite Hc.
  - simpl in *. by rewrite Hc, IH.
Qed.

Lemma every_char_substring p s :
  forall n m, every_char p s = true -> every_char p (String.substring n m s) = true.
Proof.
  induction s as [|c s IH]; intros n m H.
  { by destruct n, m. }
  simpl in H. apply andb_true_iff in H as [Hc H].
  destruct n as [|n]; simpl.
  - destruct m as [|m]; [done|]. simpl. by rewrite Hc, IH.
  - by apply IH.
Qed.

Lemma length_substring_le s :
  forall m, (String.length (String.substring 0 m s) <= m)%nat.
Proof.
  induction s as [|c s IH]; intros m.
  { destruct m; simpl; lia. }
  destruct m as [|m]; simpl; [lia|]. specialize (IH m). lia.
Qed.

(** X29.  The title [extractTitle] gives a content is one line: it holds
    no line feed.  It is the rest of the first line that starts with a
    number sign and a space, trimmed, however long, and possibly empty;
    or, when no line starts so, a text of 1 to 50 characters. *)
Theorem extractTitle_is_one_line content :
  every_char (fun c => negb (NoteEditor.is_line_feed c))
             (NoteEditor.extractTitle content) = true
  /\ ((exists line,
         List.find (fun line => String.prefix "# " line) (NoteEditor.split_lines content)
         = Some line
         /\ NoteEditor.extractTitle content = trim (drop_chars 2 line))
      \/ (List.find (fun line => String.prefix "# " line) (NoteEditor.split_lines content)
          = None
          /\ (0 < String.length (NoteEditor.extractTitle content) <= 50)%nat)).
Proof.
  pose proof (every_char_split_lines content) as Hlines.
  rewrite Forall_forall in Hlines.
  unfold NoteEditor.extractTitle. cbv zeta.
  destruct (List.find (fun line => String.prefix "# " line)
              (NoteEditor.split_lines content)) as [line|] eqn:E.
  - apply find_some in E as [Hin Hp].
    assert (Ht : truthy_str (Some line) = true).
    { destruct line; [done|done]. }
    rewrite Ht. simpl default. split.
    + apply every_char_trim_end, every_char_trim_start, every_char_drop_chars.
      apply Hlines. by apply list_elem_of_In.
    + left. by exists line.
  - change (truthy_str None) with false. cbv iota.
    destruct (List.find (fun line => truthy (VStr (trim line)))
                (NoteEditor.split_lines content)) as [line|] eqn:E'.
    + apply find_some in E' as [Hin Hp].
      assert (Hne : line <> EmptyString).
      { intros ->. done. }
      assert (Ht : truthy_str (Some line) = true).
      { destruct line; [done|done]. }
      rewrite Ht. simpl default. split.
      * apply every_char_substring. apply Hlines. by apply list_elem_of_In.
      * right. split; [done|]. unfold js_substring.
        pose proof (length_substring_le line (50 - 0)) as Hle.
        destruct line as [|c l]; [done|]. simpl in *. lia.
    + simpl. split; [done|]. right. split; [done|lia].
Qed.

(* ===================================================================== *)
(** ** Highlighting *)
(* ===================================================================== *)

(** X30.  [highlightHashtags] and [highlightWikiLinks] only lengthen the
    content: the result is longer by the 47 characters the span adds
    around each hashtag, and by the 49 it adds around each wiki link. *)
Theorem highlighting_adds_the_markup content :
  String.length (Tags.highlightHashtags content)
  = (String.length content + 47 * List.length (Tags.hashtag_matches content 0))%nat
  /\ String.length (Backlinks.highlightWikiLinks content)
     = (String.length content
        + 49 * List.length (Backlinks.extractWikiLinksFromContent content))%nat.
Proof.
  split.
  - unfold Tags.highlightHashtags.
    set (wrap := fun g => "<span class=" ++ Tags.quote ++ "text-blue-600 font-medium"
                          ++ Tags.quote ++ ">#" ++ g ++ "</span>").
    assert (Hw : forall g, String.length (wrap g) = (String.length g + 48)%nat).
    { intros g. unfold wrap. rewrite !string_length_app. simpl. lia. }
    pose proof (replace_hashtags_grows wrap 48 content Hw 0%nat ltac:(lia)) as H.
    lia.
  - unfold Backlinks.highlightWikiLinks, Backlinks.extractWikiLinksFromContent.
    rewrite length_map.
    set (wrap := fun g => "<span class=" ++ Tags.quote ++ "text-purple-600 font-medium"
                          ++ Tags.quote ++ ">[[" ++ g ++ "]]</span>").
    assert (Hw : forall g, String.length (wrap g) = (String.length g + 53)%nat).
    { intros g. unfold wrap. rewrite !string_length_app. simpl. lia. }
    pose proof (replace_wikilinks_grows wrap 53 content Hw 0%nat 0%nat ltac:(lia)) as H.
    lia.
Qed.
